(** * s2rdd: from an OpenAPI description to a data-driven Robot Framework suite

    A shallow embedding of [src/s2rdd.py].  The program reads a resolved
    OpenAPI description, flattens it into a dictionary of test cases
    ([parse_openapi_spec]), optionally mirrors the test cases into Jira
    ([create_jira_tickets]), and renders an Excel sheet
    ([write_excel_header], [write_excel_test_case_data]), an includes file
    ([write_robot_framework_includes_file]) and a Robot Framework script
    ([write_robot_framework_test_case_file]);
    [transform_openapi_to_robot] drives the passes.

    Conventions of the embedding.
    - Python [str] is [string], the bytes of its UTF-8 encoding.
      Concatenation, [replace] of a text that is not empty, [in],
      comparison and the two patterns act on the encoding as they act on
      the text.  [str.lower], [str.upper] and [int] are computed for
      ASCII text only ([Str.is_ascii]); the properties that depend on
      their value assume ASCII names and keys.
    - A Python [dict] is an association list in insertion order; a
      well-formed one has no repeated key.  A Python [set] is a list
      without repetition, and [list(set)] is a parameter
      ([list_of_set]): the program does not control that order.
    - A Python exception is a value of [exn]; code that can raise returns
      a [result], and a run of the driver ends in an [outcome].
    - The resolved description is typed the way the OpenAPI schema types
      it (prance validates the document before the walker sees it): every
      fixed key the walker probes with [in] is an optional record field,
      and every entry below a path is an operation object.  An entry
      that is a list (path-level [parameters] or [servers]) holds none of
      the keys the walker probes: it is the operation object without
      fields.  The key [paths], which the walker subscripts without a
      test, is optional as well.  The leaves the program only copies
      ([example], [enum]) are [json] values.
    - The [tags] lists of the description are Python list objects: the
      walker stores the object, not a copy, and the Jira mirror appends
      to it in place.  They live in a store ([tag_lists]) and an
      operation holds a reference, so that two operations can hold the
      same list.  No other object of the description is mutated.
    - The file system, the clock, [json.loads] and the HTTP peer are
      fields of a [world]; what a run does to them is a list of
      [effect]s returned with its outcome.  For a run that ends with an
      exception the list holds what the passes before the raising one
      did. *)

From Stdlib Require Import ZArith Ascii String List Bool Lia Permutation Sorted.
From stdpp Require Import base tactics option list gmap strings sorting.
Import ListNotations.

Local Open Scope list_scope.
Local Open Scope string_scope.

(** ** Exceptions and results *)

Inductive exn : Type :=
| ValueError (msg : string)
| UnboundLocalError (name : string)
| AttributeError (msg : string)
| KeyError (key : string)
| TypeError
| JSONDecodeError.

Inductive result (A : Type) : Type :=
| Ok (a : A)
| Raise (e : exn).
Arguments Ok {A} a.
Arguments Raise {A} e.

Definition bind {A B : Type} (m : result A) (k : A -> result B) : result B :=
  match m with
  | Ok a => k a
  | Raise e => Raise e
  end.

(** Monadic left fold: a [for] loop whose body may raise. *)
Fixpoint foldM {A S : Type} (body : S -> A -> result S) (l : list A) (s : S)
  : result S :=
  match l with
  | [] => Ok s
  | a :: l' => bind (body s a) (foldM body l')
  end.

(** ** JSON values (examples, enum literals) *)

#[warnings="-register-all"]
Inductive json : Type :=
| JNull
| JBool (b : bool)
| JNum (z : Z)
| JStr (s : string)
| JArr (l : list json)
| JObj (m : list (string * json)).

(** ** Python strings *)

Module Str.

Definition of_ascii (c : ascii) : string := String c EmptyString.

(** [c] as a code point. *)
Definition code (c : ascii) : nat := nat_of_ascii c.

Definition lower_ascii (c : ascii) : ascii :=
  if (65 <=? code c)%nat && (code c <=? 90)%nat
  then ascii_of_nat (code c + 32) else c.

Definition upper_ascii (c : ascii) : ascii :=
  if (97 <=? code c)%nat && (code c <=? 122)%nat
  then ascii_of_nat (code c - 32) else c.

Fixpoint map (f : ascii -> ascii) (s : string) : string :=
  match s with
  | EmptyString => EmptyString
  | String c s' => String (f c) (map f s')
  end.

(** [str.lower] and [str.upper], for ASCII text. *)
Definition lower : string -> string := map lower_ascii.
Definition upper : string -> string := map upper_ascii.

(** [s.isascii()]: every byte is below 128. *)
Fixpoint is_ascii (s : string) : bool :=
  match s with
  | EmptyString => true
  | String c s' => (code c <? 128)%nat && is_ascii s'
  end.

(** [old in s] for strings. *)
Fixpoint contains (old s : string) : bool :=
  String.prefix old s ||
  match s with
  | EmptyString => false
  | String _ s' => contains old s'
  end.

(** [s.replace(old, new)] for a non-empty [old]: scan left to right, at
    an occurrence of [old] emit [new] and jump over it.  [skip] counts
    the characters of an occurrence still to jump over. *)
Fixpoint replace_from (old new s : string) (skip : nat) : string :=
  match s with
  | EmptyString => EmptyString
  | String c s' =>
      match skip with
      | S k => replace_from old new s' k
      | O =>
          if String.prefix old s
          then new ++ replace_from old new s' (String.length old - 1)
          else String c (replace_from old new s' 0)
      end
  end.

(** With an empty [old] Python puts [new] in front of every character
    and at the end. *)
Fixpoint intersperse (new s : string) : string :=
  match s with
  | EmptyString => new
  | String c s' => new ++ String c (intersperse new s')
  end.

Definition replace (old new s : string) : string :=
  match old with
  | EmptyString => intersperse new s
  | String _ _ => replace_from old new s 0
  end.

(** [sep.join(l)]. *)
Definition join (sep : string) (l : list string) : string :=
  String.concat sep l.

(** Concatenation of a list of strings. *)
Fixpoint cat (l : list string) : string :=
  match l with
  | [] => EmptyString
  | s :: l' => s ++ cat l'
  end.

End Str.

(** ** [int(s)] on a string

    For ASCII text: leading and trailing white space (tab, line feed,
    vertical tab, form feed, carriage return, space) is dropped, one sign
    is allowed, and the digits may be grouped by single underscores.
    [None] stands for [ValueError].  The interpreter's limit on the
    number of digits ([sys.int_max_str_digits], 4300 by default) is not
    part of the function: the properties bound the length of the text. *)

Module PyInt.

Definition is_space (c : ascii) : bool :=
  let n := Str.code c in
  ((9 <=? n) && (n <=? 13) || (n =? 32))%nat.

Definition digit (c : ascii) : option Z :=
  let n := Str.code c in
  if ((48 <=? n) && (n <=? 57))%nat then Some (Z.of_nat (n - 48)) else None.

Fixpoint lstrip (s : string) : string :=
  match s with
  | String c s' => if is_space c then lstrip s' else s
  | EmptyString => EmptyString
  end.

Fixpoint all_space (s : string) : bool :=
  match s with
  | String c s' => is_space c && all_space s'
  | EmptyString => true
  end.

(** [digits acc after_digit s]: the digits seen so far are worth [acc];
    [after_digit] says whether the previous character was a digit (an
    underscore is only allowed there, and a digit must follow it). *)
Fixpoint digits (acc : Z) (after_digit : bool) (s : string) : option Z :=
  match s with
  | EmptyString => if after_digit then Some acc else None
  | String c s' =>
      match digit c with
      | Some d => digits (10 * acc + d) true s'
      | None =>
          if Ascii.eqb c "_"
          then (if after_digit
                then match s' with
                     | String c' _ =>
                         match digit c' with
                         | Some _ => digits acc false s'
                         | None => None
                         end
                     | EmptyString => None
                     end
                else None)
          else if after_digit && all_space s then Some acc else None
      end
  end.

Definition int (s : string) : option Z :=
  match lstrip s with
  | String "-" s' => option_map Z.opp (digits 0 false s')
  | String "+" s' => digits 0 false s'
  | s' => digits 0 false s'
  end.

End PyInt.

(** ** Python dictionaries and sets *)

Module Dict.
Section Dict.
Context {K V : Type} `{EqDecision K}.

(** [d[k]], [None] when the key is missing. *)
Fixpoint get (k : K) (d : list (K * V)) : option V :=
  match d with
  | [] => None
  | (k', v) :: d' => if decide (k = k') then Some v else get k d'
  end.

(** [d[k] = v]: an existing key keeps its place, a new one goes last. *)
Fixpoint set (k : K) (v : V) (d : list (K * V)) : list (K * V) :=
  match d with
  | [] => [(k, v)]
  | (k', v') :: d' =>
      if decide (k = k') then (k, v) :: d' else (k', v') :: set k v d'
  end.

Definition keys (d : list (K * V)) : list K := map fst d.

(** No key occurs twice: what every Python dictionary satisfies. *)
Definition wf (d : list (K * V)) : bool := bool_decide (NoDup (keys d)).
End Dict.
End Dict.

Module PySet.
(** A set of strings, kept in the order of first insertion. *)
Definition add (x : string) (s : list string) : list string :=
  if bool_decide (x ∈ s) then s else s ++ [x].
End PySet.

(** ** The regular expressions of the program

    The two patterns of the source are sequences of literal characters,
    [.*], [.*?] and one capture group.  [re_match] is the backtracking
    matcher of [re] on such sequences: a greedy star first tries to take
    one more character, a lazy star first tries to stop; [.] does not
    take a line feed. *)

Module Re.

Inductive item : Type :=
| Chr (c : ascii)
| DotStar
| DotStarLazy
| GroupOpen
| GroupClose.

(** The state of group 1 during a match. *)
Inductive capture : Type :=
| NoGroup
| InGroup (acc : string)
| Group (txt : string).

Definition push (c : ascii) (cap : capture) : capture :=
  match cap with
  | InGroup acc => InGroup (acc ++ Str.of_ascii c)
  | _ => cap
  end.

Definition close (cap : capture) : capture :=
  match cap with
  | InGroup acc => Group acc
  | _ => cap
  end.

Definition is_newline (c : ascii) : bool := Ascii.eqb c "010".

(** [re_match s p cap]: match the items [p] at the start of [s]; the
    result is the capture and the text left after the match. *)
Fixpoint re_match (s : string) : list item -> capture -> option (capture * string) :=
  fix items (p : list item) (cap : capture) {struct p} :=
    match p with
    | [] => Some (cap, s)
    | Chr c :: p' =>
        match s with
        | String c' s' =>
            if Ascii.eqb c c' then re_match s' p' (push c' cap) else None
        | EmptyString => None
        end
    | DotStar :: p' =>
        match s with
        | String c' s' =>
            if is_newline c' then items p' cap
            else match re_match s' (DotStar :: p') (push c' cap) with
                 | Some r => Some r
                 | None => items p' cap
                 end
        | EmptyString => items p' cap
        end
    | DotStarLazy :: p' =>
        match items p' cap with
        | Some r => Some r
        | None =>
            match s with
            | String c' s' =>
                if is_newline c' then None
                else re_match s' (DotStarLazy :: p') (push c' cap)
            | EmptyString => None
            end
        end
    | GroupOpen :: p' => items p' (InGroup "")
    | GroupClose :: p' => items p' (close cap)
    end.

(** [match[1]]. *)
Definition group1 (cap : capture) : string :=
  match cap with
  | Group txt => txt
  | _ => ""
  end.

(** [re.search]: the match at the leftmost position that has one. *)
Fixpoint search (p : list item) (s : string) : option (capture * string) :=
  match re_match s p NoGroup with
  | Some r => Some r
  | None =>
      match s with
      | String _ s' => search p s'
      | EmptyString => None
      end
  end.

(** [re.finditer] for a pattern without empty matches: the matches from
    left to right, each search resuming where the previous match ended.
    [skip] counts the characters of the last match still to pass. *)
Fixpoint finditer_from (p : list item) (s : string) (skip : nat) : list capture :=
  match s with
  | EmptyString => []
  | String _ s' =>
      match skip with
      | S k => finditer_from p s' k
      | O =>
          match re_match s p NoGroup with
          | Some (cap, rest) =>
              cap :: finditer_from p s' (String.length s - String.length rest - 1)
          | None => finditer_from p s' 0
          end
      end
  end.

Definition finditer (p : list item) (s : string) : list capture :=
  finditer_from p s 0.

Definition literal (s : string) : list item :=
  List.map Chr (list_ascii_of_string s).

End Re.

(** The pattern of [write_robot_framework_includes_file]: the literal
    https://api, a greedy run of any characters, then group 1: a slash,
    a greedy run, a slash, a greedy run. *)
Definition base_url_regex : list Re.item :=
  Re.literal "https://api" ++
  [Re.DotStar; Re.GroupOpen; Re.Chr "/"; Re.DotStar; Re.Chr "/"; Re.DotStar;
   Re.GroupClose].

(** The pattern of [write_robot_framework_test_case_file]: an opening
    brace, group 1: a lazy run of any characters, a closing brace. *)
Definition url_parameter_regex : list Re.item :=
  [Re.Chr "{"; Re.GroupOpen; Re.DotStarLazy; Re.GroupClose; Re.Chr "}"].

(** ** The resolved interface description *)

(** A value of [properties]: only [enum] and [example] are read. *)
Record property_spec : Type := {
  prop_enum : option (list json);
  prop_example : option json
}.

Record schema_object : Type := {
  schema_required : option (list string);
  schema_properties : option (list (string * property_spec))
}.

Record media_type : Type := {
  media_schema : option schema_object;
  media_example : option json
}.

Record request_body : Type := {
  body_content : option (list (string * media_type))
}.

(** The [tags] lists of a description, by reference.  A reference that
    the store does not hold is an empty list. *)
Abbreviation tag_lists := (gmap nat (list string)).

Definition tag_list (lists : tag_lists) (ref : nat) : list string :=
  default [] (lists !! ref).

(** [l.append(x)] on the list object [ref]. *)
Definition list_append (ref : nat) (x : string) (lists : tag_lists) : tag_lists :=
  <[ref := (tag_list lists ref ++ [x])%list]> lists.

Record operation_object : Type := {
  op_tags : option nat;
  op_summary : option string;
  op_description : option string;
  op_operationId : option string;
  op_requestBody : option request_body;
  op_responses : option (list (string * json))
}.

Record server : Type := { url : string }.

Record specification : Type := {
  spec_servers : option (list server);
  spec_paths_entry : option (list (string * list (string * operation_object)));
  spec_tag_lists : tag_lists
}.

(** The [paths] of a description that has the key. *)
Definition spec_paths (spec : specification)
  : list (string * list (string * operation_object)) :=
  match spec_paths_entry spec with
  | Some paths => paths
  | None => []
  end.

(** ** The test-case model *)

(** The value under ["tags"]: the list object of the operation, or the
    empty string the walker stores when the operation has none. *)
Inductive tags_value : Type :=
| TagsStr (s : string)
| TagsList (ref : nat).

Record test_case : Type := {
  properties : option (list (string * property_spec));
  required : option (list string);
  example : option json;
  tags : tags_value;
  summary : string;
  description : string;
  expected_status_code : json
}.

(** [(operationid, operation, path)] *)
Definition service_key : Type := string * string * string.

Abbreviation service_dict := (list (service_key * test_case)).

(** ** [sorted(l, key=str.lower)]

    A stable insertion sort: among equal keys the earlier element stays
    first, as in Python. *)

Definition lower_le (x y : string) : Prop :=
  (Str.lower x ≤ Str.lower y)%string.

Fixpoint insert_sorted (x : string) (l : list string) : list string :=
  match l with
  | [] => [x]
  | y :: l' =>
      if String.leb (Str.lower x) (Str.lower y)
      then x :: l
      else y :: insert_sorted x l'
  end.

Definition sorted_lower (l : list string) : list string :=
  foldr insert_sorted [] l.

(** ** PASS 2: [parse_openapi_spec] *)

(** The local variables of the walker that live across iterations.
    [wk_expected_status_code] is [None] while the variable
    [expected_status_code] is unbound. *)
Record walker : Type := {
  wk_service_dictionary : service_dict;
  wk_varset : list string;
  wk_expected_status_code : option json
}.

(** [required], [properties] and [example] of an operation: only the
    [application/json] entry of [requestBody.content] is inspected. *)
Definition request_fields (op : operation_object)
  : option (list string) * option (list (string * property_spec)) * option json :=
  match op_requestBody op with
  | Some requestbody =>
      match body_content requestbody with
      | Some content =>
          match Dict.get "application/json" content with
          | Some media =>
              let '(required, properties) :=
                match media_schema media with
                | Some schema => (schema_required schema, schema_properties schema)
                | None => (None, None)
                end in
              (required, properties, media_example media)
          | None => (None, None, None)
          end
      | None => (None, None, None)
      end
  | None => (None, None, None)
  end.

(** The first key of a non-empty [responses], through [int]; an empty
    string when [int] raises [ValueError]. *)
Definition status_of_key (k : string) : json :=
  match PyInt.int k with
  | Some z => JNum z
  | None => JStr ""
  end.

(** The assignment to [expected_status_code], which only happens for a
    non-empty [responses]. *)
Definition assign_status (op : operation_object) (old : option json) : option json :=
  match op_responses op with
  | Some responses =>
      match responses with
      | (k, _) :: _ => Some (status_of_key k)
      | [] => old
      end
  | None => old
  end.

(** [if properties: for prop in properties: varset.add(prop)] *)
Definition add_properties (properties : option (list (string * property_spec)))
  (varset : list string) : list string :=
  match properties with
  | Some props => fold_left (fun vs prop => PySet.add prop vs) (Dict.keys props) varset
  | None => varset
  end.

(** The body of the inner loop. *)
Definition walk_operation (path : string) (st : walker)
  (entry : string * operation_object) : result walker :=
  let '(operation, op) := entry in
  let tags := match op_tags op with
              | Some ref => TagsList ref
              | None => TagsStr ""
              end in
  let summary := match op_summary op with Some s => s | None => "" end in
  let description := match op_description op with Some s => s | None => "" end in
  match op_operationId op with
  | None => Raise (ValueError "No operationId present in OpenAPI file, cannot continue")
  | Some operationid =>
      let '(required, properties, example) := request_fields op in
      let status := assign_status op (wk_expected_status_code st) in
      match status with
      | None => Raise (UnboundLocalError "expected_status_code")
      | Some expected_status_code =>
          Ok {| wk_service_dictionary :=
                  Dict.set (operationid, operation, path)
                    {| properties := properties;
                       required := required;
                       example := example;
                       tags := tags;
                       summary := summary;
                       description := description;
                       expected_status_code := expected_status_code |}
                    (wk_service_dictionary st);
                wk_varset := add_properties properties (wk_varset st);
                wk_expected_status_code := status |}
      end
  end.

(** The body of the outer loop. *)
Definition walk_path (st : walker)
  (entry : string * list (string * operation_object)) : result walker :=
  let '(path, operations) := entry in
  foldM (walk_operation path) operations st.

Definition walk_paths (spec : specification) : result walker :=
  match spec_paths_entry spec with
  | Some paths =>
      foldM walk_path paths
        {| wk_service_dictionary := []; wk_varset := [];
           wk_expected_status_code := None |}
  | None => Raise (KeyError "paths")
  end.

Section Walker.

(** [list(varset)]: the order in which Python iterates a set is not
    the order of insertion; any enumeration is possible. *)
Variable list_of_set : list string -> list string.

(** [parser] is the resolved description, [None] when [ResolvingParser]
    raised.  The result is
    [(_success, _servers, _service_dictionary, _all_service_variables)]. *)
Definition parse_openapi_spec (parser : option specification)
  : result (bool * list server * service_dict * list string) :=
  match parser with
  | None => Ok (false, [], [], [])
  | Some spec =>
      let servers := match spec_servers spec with
                     | Some l => l
                     | None => []
                     end in
      bind (walk_paths spec) (fun st =>
        let all_service_variables := sorted_lower (list_of_set (wk_varset st)) in
        Ok (true, servers, wk_service_dictionary st, all_service_variables))
  end.

End Walker.

(** ** The spreadsheet sink

    What the program asks of xlsxwriter: cells written with a format,
    list validations attached to cells, column widths.  The sheet is the
    record of these calls, not the file xlsxwriter makes of them:
    xlsxwriter raises [TypeError] in [write] for a content that is a
    list or a dictionary, and drops a list validation whose values,
    joined by commas, exceed 255 characters. *)

Record format : Type := {
  bold : bool;
  italic : bool;
  num_format : string;
  bg_color : string
}.

Record cell : Type := {
  content : json;
  fmt : format
}.

Record worksheet : Type := {
  cells : gmap (nat * nat) cell;
  validations : gmap (nat * nat) (list json);
  columns : list (nat * nat * Z)
}.

Definition empty_worksheet : worksheet :=
  {| cells := ∅; validations := ∅; columns := [] |}.

(** [worksheet.write(row, col, content, fmt)]: the cell takes the token
    and the format of the call.  xlsxwriter accepts a token that is a
    string, a number, a boolean or [None], for a cell within the limits
    of a sheet. *)
Definition write (row col : nat) (v : json) (f : format) (ws : worksheet) : worksheet :=
  {| cells := <[(row, col) := {| content := v; fmt := f |}]> (cells ws);
     validations := validations ws;
     columns := columns ws |}.

(** [worksheet.data_validation(row, col, row, col, {"validate": "list",
    ...})]: the cell takes the list of the call.  xlsxwriter accepts a
    list whose values, joined by commas, take at most 255 characters. *)
Definition data_validation (row col : nat) (values : list json) (ws : worksheet)
  : worksheet :=
  {| cells := cells ws;
     validations := <[(row, col) := values]> (validations ws);
     columns := columns ws |}.

(** [worksheet.set_column(first, last, width)] *)
Definition set_column (first last : nat) (width : Z) (ws : worksheet) : worksheet :=
  {| cells := cells ws;
     validations := validations ws;
     columns := (columns ws ++ [(first, last, width)])%list |}.

(** Codes for the Excel sheet's cells *)
Definition test_variables_color_code : string := "#bbbbbb".
Definition test_cases_color_code : string := "f9e4b7".
Definition optional_variable_color_code : string := "#99ee99".
Definition required_variable_color_code : string := "ee9999".

(** The first column of the variables (zero-based). *)
Definition start_column : nat := 6.

Definition header_format (color : string) : format :=
  {| bold := true; italic := true; num_format := "@"; bg_color := color |}.

Definition data_format (color : string) : format :=
  {| bold := false; italic := false; num_format := "@"; bg_color := color |}.

Definition bold_test_case_cell_format : format := header_format test_cases_color_code.
Definition bold_test_variables_cell_format : format := header_format test_variables_color_code.
Definition test_case_cell_format : format := data_format test_cases_color_code.
Definition test_variables_cell_format : format := data_format test_variables_color_code.
Definition optional_variable_cell_format : format := data_format optional_variable_color_code.
Definition required_variable_cell_format : format := data_format required_variable_color_code.

(** The text of a variable as Robot Framework writes it. *)
Definition robot_variable (variable : string) : string := "${" ++ variable ++ "}".

(** ** PASS 4: the Excel sheet *)

(** The loop of [write_excel_header]: the state is the sheet and [col]. *)
Definition write_header_variable (st : worksheet * nat) (variable : string)
  : worksheet * nat :=
  let '(ws, col) := st in
  (write 0 col (JStr (robot_variable variable)) bold_test_variables_cell_format ws,
   col + 1).

(** Returns the sheet and [maxcol]. *)
Definition write_excel_header (ws : worksheet) (all_service_variables : list string)
  : worksheet * nat :=
  let ws := write 0 0 (JStr "*** Test Case ***") bold_test_case_cell_format ws in
  let ws := write 0 1 (JStr "[Documentation]") bold_test_case_cell_format ws in
  let ws := write 0 2 (JStr "[Tags]") bold_test_case_cell_format ws in
  let ws := write 0 3 (JStr "${API_CALL}") bold_test_case_cell_format ws in
  let ws := write 0 4 (JStr "${API_OPERATION}") bold_test_case_cell_format ws in
  let ws := write 0 5 (JStr "${EXPECTED_STATUS_CODE}") bold_test_case_cell_format ws in
  let col := start_column in
  let maxcol := start_column + length all_service_variables in
  let '(ws, _) := fold_left write_header_variable all_service_variables (ws, col) in
  (ws, maxcol).

(** [l.index(x)], [None] for [ValueError]. *)
Fixpoint index (x : string) (l : list string) : option nat :=
  match l with
  | [] => None
  | y :: l' => if decide (x = y) then Some 0 else option_map S (index x l')
  end.

(** [",".join(tags)] when [tags] is true, else the empty string.  Joining
    a string joins its characters. *)
Definition tags_csv (lists : tag_lists) (tags : tags_value) : string :=
  match tags with
  | TagsList ref => Str.join "," (tag_list lists ref)
  | TagsStr s => Str.join "," (List.map Str.of_ascii (list_ascii_of_string s))
  end.

(** The format of a property's cell: optional unless [required] is true
    and holds the name. *)
Definition variable_format (required : option (list string)) (prop : string) : format :=
  match required with
  | Some ((_ :: _) as req) =>
      if bool_decide (prop ∈ req)
      then required_variable_cell_format
      else optional_variable_cell_format
  | _ => optional_variable_cell_format
  end.

(** The body of the loop over [properties] in
    [write_excel_test_case_data]. *)
Definition write_property (all_service_variables : list string)
  (required : option (list string)) (add_example_data : bool) (row : nat)
  (ws : worksheet) (entry : string * property_spec) : worksheet :=
  let '(prop, pspec) := entry in
  match index prop all_service_variables with
  | None => ws
  | Some col =>
      let fmt := variable_format required prop in
      let enum_value := prop_enum pspec in
      let column_content :=
        if add_example_data
        then match prop_example pspec with
             | Some ex => ex
             | None => JStr ""
             end
        else JStr "" in
      let ws := write row (col + start_column) column_content fmt ws in
      match enum_value with
      | Some ((_ :: _) as values) =>
          data_validation row (col + start_column) values ws
      | _ => ws
      end
  end.

(** The body of the loop over [test_cases]: the state is the sheet and
    [row].  [lists] is the content of the tag lists when the sheet is
    written. *)
Definition write_test_case (lists : tag_lists) (all_service_variables : list string)
  (add_example_data : bool) (st : worksheet * nat)
  (entry : service_key * test_case) : worksheet * nat :=
  let '(ws, row) := st in
  let '((test_case_name, test_case_operation, test_case_endpoint), tc) := entry in
  let tags_csv_string := tags_csv lists (tags tc) in
  let ws := write row 0 (JStr test_case_name) test_case_cell_format ws in
  let ws := write row 1 (JStr (summary tc)) test_case_cell_format ws in
  let ws := write row 2 (JStr tags_csv_string) test_case_cell_format ws in
  let ws := write row 3 (JStr test_case_name) test_case_cell_format ws in
  let ws := write row 4 (JStr (Str.upper test_case_operation)) test_case_cell_format ws in
  let ws := write row 5 (expected_status_code tc) test_case_cell_format ws in
  let ws :=
    match properties tc with
    | Some ((_ :: _) as props) =>
        fold_left
          (write_property all_service_variables (required tc) add_example_data row)
          props ws
    | _ => ws
    end in
  (ws, row + 1).

(** The cosmetic fill of the variable area, before any content. *)
Definition fill_background (maxrow maxcol : nat) (ws : worksheet) : worksheet :=
  fold_left
    (fun ws row =>
       fold_left
         (fun ws col => write row col (JStr "") test_variables_cell_format ws)
         (seq start_column (maxcol - start_column)) ws)
    (seq 1 maxrow) ws.

(** Returns the sheet and [maxrow]. *)
Definition write_excel_test_case_data (lists : tag_lists) (ws : worksheet)
  (all_service_variables : list string) (test_cases : service_dict)
  (add_example_data : bool) : worksheet * nat :=
  let maxrow := length test_cases in
  let maxcol := start_column + length all_service_variables in
  let ws := fill_background maxrow maxcol ws in
  let '(ws, _) :=
    fold_left (write_test_case lists all_service_variables add_example_data)
      test_cases (ws, 1) in
  let ws := set_column 2 maxcol 25 ws in
  let ws := set_column 0 1 50 ws in
  (ws, maxrow).

(** ** The world outside the program *)

(** What [resp.json()] delivers.  The members of an object are typed the
    way Jira types the members of its answers, as strings; the other
    kinds of JSON value are kept because the program treats them
    differently. *)
Inductive body : Type :=
| BodyObject (members : list (string * string))
| BodyArray (items : list json)
| BodyString (s : string)
| BodyNumber (z : Z)
| BodyBool (b : bool)
| BodyNull.

(** What [requests.post] hands back: the status code and the body as
    [resp.json()] reads it ([None] when that raises). *)
Record response : Type := {
  status_code : Z;
  json_body : option body
}.

Inductive file_content : Type :=
| Text (s : string)
| Sheet (ws : worksheet).

(** What a run does to the outside. *)
Inductive effect : Type :=
| Mkdir (path : string)
| WriteFile (path : string) (c : file_content)
| HttpPost (target : string) (body : string).

Record world : Type := {
  (** [os.path.exists], [os.path.isdir], [os.path.isfile] *)
  path_exists : string -> bool;
  isdir : string -> bool;
  isfile : string -> bool;
  (** [os.mkdir] succeeds *)
  mkdir_ok : string -> bool;
  (** the content [open(filename, "r").read()] delivers, [None] when it raises *)
  read_text : string -> option string;
  (** [open(filename, "w")], or closing the workbook, succeeds *)
  writable : string -> bool;
  (** [ResolvingParser(filename).specification], [None] when it raises *)
  resolve : string -> option specification;
  (** [datetime.now()], formatted *)
  now : string;
  (** [json.loads] accepts the text *)
  json_loads_ok : string -> bool;
  (** the answers to the successive [requests.post] calls; [None] is a
      call that raises *)
  http : list (option response)
}.

(** [os.path.join] of a directory and a file name. *)
Definition path_join (a b : string) : string :=
  if String.prefix "/" b then b
  else if String.eqb a "" then b
  else if String.eqb (String.substring (String.length a - 1) 1 a) "/" then a ++ b
  else a ++ "/" ++ b.

Definition double_quote : string := Str.of_ascii "034".
Definition single_quote : string := Str.of_ascii "039".
Definition backslash : string := Str.of_ascii "092".
Definition line_feed : string := Str.of_ascii "010".

(** ** Templates *)

Definition check_and_create_data_directory (w : world) (directory_name : string)
  : bool * list effect :=
  if negb (path_exists w directory_name)
  then (if mkdir_ok w directory_name
        then (true, [Mkdir directory_name])
        else (false, []))
  else (if negb (isdir w directory_name) then (false, []) else (true, [])).

Definition check_if_file_exists (w : world) (filename : string) : bool :=
  isfile w filename.

(** Returns [(success, file_content)]. *)
Definition read_template_file_from_disk (w : world) (filename : string)
  : bool * option string :=
  if negb (check_if_file_exists w filename) then (false, None)
  else match read_text w filename with
       | Some file_content => (true, Some file_content)
       | None => (false, None)
       end.

Record templates : Type := {
  includes_string : string;
  header_string : string;
  footer_string : option string;
  keyword_body_string : string;
  keyword_no_body_string : string
}.

(** [None] is the failure tuple [(False, None, ...)].  The footer may be
    missing. *)
Definition read_template_files (w : world) : option templates :=
  let template_directory := "templates" in
  let read name := read_template_file_from_disk w (path_join template_directory name) in
  match read "template_robot_generic_includes.robot" with
  | (true, Some includes) =>
      match read "template_robot_header.robot" with
      | (true, Some header) =>
          match read "template_robot_keyword_with_request_body.robot" with
          | (true, Some keyword_body) =>
              match read "template_robot_keyword_without_request_body.robot" with
              | (true, Some keyword_no_body) =>
                  Some {| includes_string := includes;
                          header_string := header;
                          footer_string := snd (read "template_robot_footer.robot");
                          keyword_body_string := keyword_body;
                          keyword_no_body_string := keyword_no_body |}
              | _ => None
              end
          | _ => None
          end
      | _ => None
      end
  | _ => None
  end.

(** ** PASS 3: the Jira mirror *)

Definition JIRA_SERVER_URL : string := "https://jira.acme.com:443".

(** [bool(resp)] for a [requests] response: no 4xx or 5xx status. *)
Definition response_ok (r : response) : bool :=
  negb ((400 <=? status_code r)%Z && (status_code r <? 600)%Z).

(** [bool(json_response)] *)
Definition body_true (json_response : body) : bool :=
  match json_response with
  | BodyObject members => negb (bool_decide (members = []))
  | BodyArray items => match items with [] => false | _ :: _ => true end
  | BodyString s => negb (String.eqb s "")
  | BodyNumber z => negb (z =? 0)%Z
  | BodyBool b => b
  | BodyNull => false
  end.

(** [x == "key"] for an item of a JSON array. *)
Definition is_key_text (x : json) : bool :=
  match x with
  | JStr s => String.eqb s "key"
  | _ => false
  end.

(** [resp] is the answer of [requests.post], [None] when it raised.
    Returns [(success, jira_ticket_id)].  The test ["key" in
    json_response] and the subscript that follows it are written for a
    dictionary: a number has no [in], and a list or a string that holds
    ["key"] has no such subscript. *)
Definition create_jira_item (resp : option response)
  (expected_http_response : Z) (extract_ticket_id : bool)
  : result (bool * option string) :=
  match resp with
  | Some r =>
      if negb (response_ok r) then Ok (false, None)
      else if negb (status_code r =? expected_http_response)%Z then Ok (false, None)
      else if negb extract_ticket_id then Ok (true, None)
      else match json_body r with
           | Some json_response =>
               if negb (body_true json_response) then Ok (false, None)
               else match json_response with
                    | BodyObject members =>
                        match Dict.get "key" members with
                        | Some jira_ticket_key => Ok (true, Some jira_ticket_key)
                        | None => Ok (false, None)
                        end
                    | BodyArray items =>
                        if existsb is_key_text items then Raise TypeError
                        else Ok (false, None)
                    | BodyString s =>
                        if Str.contains "key" s then Raise TypeError
                        else Ok (false, None)
                    | BodyNumber _ | BodyBool _ | BodyNull => Raise TypeError
                    end
           | None => Ok (false, None)
           end
  | None => Ok (false, None)
  end.

(** One call of [requests.post]: the next answer of the peer. *)
Definition post (net : list (option response)) : option response * list (option response) :=
  match net with
  | r :: net' => (r, net')
  | [] => (None, [])
  end.

(** The state of the loop over the test cases: the tickets created, the
    tag lists, the answers still to come, the requests sent.  The
    dictionary of test cases itself is not changed by the mirror: only
    the list objects under ["tags"] are. *)
Record mirror : Type := {
  jira_test_tickets : list string;
  store : tag_lists;
  net : list (option response);
  sent : list effect
}.

(** [tags.append(jira_ticket_id)]: the list object grows in place;
    strings have no [append]. *)
Definition append_tag (tags : tags_value) (jira_ticket_id : string)
  (lists : tag_lists) : result tag_lists :=
  match tags with
  | TagsList ref => Ok (list_append ref jira_ticket_id lists)
  | TagsStr _ => Raise (AttributeError "'str' object has no attribute 'append'")
  end.

Definition jira_issue_url : string := JIRA_SERVER_URL ++ "/jira/rest/api/2/issue/".

(** The body of the loop of [create_jira_tickets].  The record always has
    the key ["tags"], and [type(... == list)] is the class [bool], which
    is true: the ticket is appended whenever the submission succeeded. *)
Definition create_test_ticket (w : world) (jira_test_template : string)
  (st : mirror) (entry : service_key * test_case) : result mirror :=
  let '((test_case_name, test_case_operation, test_case_endpoint), tc) := entry in
  let description := description tc in
  let description := Str.replace double_quote (backslash ++ double_quote) description in
  let description := Str.replace single_quote (backslash ++ single_quote) description in
  let test_string := Str.replace "REPLACE_DESCRIPTION_REPLACE" description jira_test_template in
  let test_string := Str.replace "REPLACE_TEST_CASE_NAME_REPLACE" test_case_name test_string in
  if negb (json_loads_ok w test_string) then Raise JSONDecodeError
  else
    let '(resp, net') := post (net st) in
    let sent' := (sent st ++ [HttpPost jira_issue_url test_string])%list in
    bind (create_jira_item resp 201 true) (fun answer =>
      match answer with
      | (true, Some jira_ticket_id) =>
          bind (append_tag (tags tc) jira_ticket_id (store st)) (fun store' =>
            Ok {| jira_test_tickets := (jira_test_tickets st ++ [jira_ticket_id])%list;
                  store := store';
                  net := net';
                  sent := sent' |})
      | _ =>
          Ok {| jira_test_tickets := jira_test_tickets st;
                store := store st;
                net := net';
                sent := sent' |}
      end).

(** [json.dumps({"add": jira_test_tickets})] for ticket keys without
    characters that JSON escapes ([plain_key]). *)
Definition dumps_relation (jira_test_tickets : list string) : string :=
  "{" ++ double_quote ++ "add" ++ double_quote ++ ": [" ++
  Str.join ", " (List.map (fun t => double_quote ++ t ++ double_quote) jira_test_tickets)
  ++ "]}".

(** The test execution ticket and its link to the tests; returns
    [success] and the requests sent. *)
Definition create_test_execution (jira_test_execution_template openapi_filename : string)
  (st : mirror) : result (bool * list effect) :=
  match jira_test_tickets st with
  | _ :: _ =>
      let body := Str.replace "REPLACE_API_NAME_REPLACE" openapi_filename
                    jira_test_execution_template in
      let '(resp, net') := post (net st) in
      let sent' := (sent st ++ [HttpPost jira_issue_url body])%list in
      bind (create_jira_item resp 201 true) (fun answer =>
        match answer with
        | (true, jira_ticket_id) =>
            let id := match jira_ticket_id with Some i => i | None => "None" end in
            let target :=
              JIRA_SERVER_URL ++ "/jira/rest/raven/1.0/api/testexec/" ++ id ++ "/test" in
            let '(resp, _) := post net' in
            bind (create_jira_item resp 200 false) (fun linked =>
              Ok (fst linked,
                  (sent' ++ [HttpPost target (dumps_relation (jira_test_tickets st))])%list))
        | (false, _) => Ok (false, sent')
        end)
  | [] => Ok (false, sent st)
  end.

(** Returns [success], the tag lists as the mirror leaves them, and the
    requests sent. *)
Definition create_jira_tickets (w : world) (lists : tag_lists) (test_cases : service_dict)
  (openapi_filename : string) : result (bool * tag_lists * list effect) :=
  let template_directory := "templates" in
  match read_template_file_from_disk w (path_join template_directory "template_jira_test_case") with
  | (true, Some jira_test_template) =>
      match read_template_file_from_disk w
              (path_join template_directory "template_jira_test_execution") with
      | (true, Some jira_test_execution_template) =>
          bind (foldM (create_test_ticket w jira_test_template) test_cases
                  {| jira_test_tickets := []; store := lists;
                     net := http w; sent := [] |})
            (fun st =>
               bind (create_test_execution jira_test_execution_template
                       openapi_filename st)
                 (fun '(success, sent') => Ok (success, store st, sent')))
      | _ => Ok (false, lists, [])
      end
  | _ => Ok (false, lists, [])
  end.

(** ** PASS 5: the includes file *)

Definition base_url_default : string :=
  "BASE_URL_NOT_FOUND_AND_NEEDS_TO_BE_SET_MANUALLY".

(** The body of the loop over [servers]: a match overwrites [base_url]. *)
Definition scan_server (base_url : string) (srv : server) : string :=
  match Re.search base_url_regex (url srv) with
  | Some (matches, _) => Re.group1 matches
  | None => base_url
  end.

Definition find_base_url (servers : list server) : string :=
  fold_left scan_server servers base_url_default.

(** The text of the includes file. *)
Definition includes_text (w : world) (servers : list server)
  (template_string openapi_filename : string) : string :=
  let base_url := find_base_url servers in
  let template_string := Str.replace "REPLACE_ROBOT_BASE_URL_REPLACE" base_url template_string in
  let template_string := Str.replace "REPLACE_OPENAPI_FILENAME_REPLACE" openapi_filename template_string in
  Str.replace "REPLACE_DATETIME_CREATION_REPLACE" (now w) template_string.

(** Returns [success] and the file written. *)
Definition write_robot_framework_includes_file (w : world) (servers : list server)
  (template_string target_filename openapi_filename : string) : bool * list effect :=
  let template_string := includes_text w servers template_string openapi_filename in
  if writable w target_filename
  then (true, [WriteFile target_filename (Text template_string)])
  else (false, []).

(** ** PASS 6: the Robot Framework test case file *)

(** [my_arguments_string] *)
Definition arguments_string (all_service_variables : list string) : string :=
  fold_left (fun my_arguments_string service_var =>
               my_arguments_string ++ "  " ++ robot_variable service_var)
    all_service_variables
    "${API_CALL}  ${API_OPERATION}  ${EXPECTED_STATUS_CODE}".

Definition header_text (w : world) (header_template : string)
  (all_service_variables : list string) (openapi_filename : string) : string :=
  let _header_string :=
    Str.replace "REPLACE_DATA_DRIVER_ARGUMENTS_REPLACE"
      (arguments_string all_service_variables) header_template in
  let _header_string :=
    Str.replace "REPLACE_OPENAPI_FILENAME_REPLACE" openapi_filename _header_string in
  Str.replace "REPLACE_DATETIME_CREATION_REPLACE" (now w) _header_string.

(** One variable definition of the script. *)
Definition set_test_variable (name : string) : string :=
  "    Set Test Variable  ${" ++ name ++ "}  " ++ name ++ line_feed.

(** [url_parameters] and the endpoint as the script uses it. *)
Definition url_parameters (test_case_endpoint : string) : string * string :=
  if Str.contains "{" test_case_endpoint
  then
    let matches := Re.finditer url_parameter_regex test_case_endpoint in
    (fold_left (fun acc m => acc ++ set_test_variable (Re.group1 m)) matches line_feed,
     Str.replace "{" "${" test_case_endpoint)
  else ("", test_case_endpoint).

(** [properties_generator_string] *)
Definition properties_generator (props : list (string * property_spec)) : string :=
  fold_left
    (fun acc prop =>
       acc ++ "    ${JsonDictionary}=  Add Variable To Dict If Value Is Not None  VARIABLE_NAME="
           ++ prop ++ "  VARIABLE_VALUE=${" ++ prop ++ "}  OUTPUT_DICT=${JsonDictionary}"
           ++ line_feed)
    (Dict.keys props) "".

(** The block of one test case. *)
Definition keyword_text (my_arguments_string keyword_body_template
  keyword_no_body_template : string) (entry : service_key * test_case) : string :=
  let '((test_case_name, test_case_operation, test_case_endpoint), tc) := entry in
  let '(url_parameters, test_case_endpoint) := url_parameters test_case_endpoint in
  let test_case_operation := Str.upper test_case_operation in
  let summary := summary tc in
  let properties := match properties tc with
                    | Some ((_ :: _) as props) => Some props
                    | _ => None
                    end in
  let _keyword_placeholder :=
    match properties with
    | Some _ => keyword_body_template
    | None => keyword_no_body_template
    end in
  let _keyword_placeholder :=
    Str.replace "REPLACE_OPERATION_REPLACE" test_case_operation _keyword_placeholder in
  let _keyword_placeholder :=
    Str.replace "REPLACE_OPERATIONID_REPLACE" test_case_name _keyword_placeholder in
  let _keyword_placeholder :=
    Str.replace "REPLACE_DOCUMENTATION_REPLACE" summary _keyword_placeholder in
  let _keyword_placeholder :=
    Str.replace "REPLACE_DATA_DRIVER_ARGUMENTS_REPLACE" my_arguments_string _keyword_placeholder in
  let _keyword_placeholder :=
    Str.replace "REPLACE_URL_PARAMETERS_REPLACE" url_parameters _keyword_placeholder in
  let _keyword_placeholder :=
    match properties with
    | Some props =>
        Str.replace "REPLACE_SCHEMA_GENERATOR_STRING_REPLACE"
          (properties_generator props) _keyword_placeholder
    | None => _keyword_placeholder
    end in
  let _keyword_placeholder :=
    Str.replace "REPLACE_HTTP_OPERATION_REPLACE" test_case_operation _keyword_placeholder in
  Str.replace "REPLACE_API_PATH_REPLACE" test_case_endpoint _keyword_placeholder.

(** Everything the function writes to [robot_file], in order. *)
Definition robot_text (w : world) (all_service_variables : list string)
  (test_cases : service_dict) (openapi_filename header_template : string)
  (footer_template : option string)
  (keyword_body_template keyword_no_body_template : string) : string :=
  let my_arguments_string := arguments_string all_service_variables in
  header_text w header_template all_service_variables openapi_filename
  ++ Str.cat (List.map (keyword_text my_arguments_string keyword_body_template
                          keyword_no_body_template) test_cases)
  ++ match footer_template with
     | Some footer => footer
     | None => ""
     end.

(** Returns [success] and the file written; [False] when the file cannot
    be opened for writing. *)
Definition write_robot_framework_test_case_file (w : world)
  (all_service_variables : list string) (test_cases : service_dict)
  (target_filename openapi_filename header_template : string)
  (footer_template : option string)
  (keyword_body_template keyword_no_body_template : string) : bool * list effect :=
  if negb (writable w target_filename) then (false, [])
  else (true,
        [WriteFile target_filename
           (Text (robot_text w all_service_variables test_cases openapi_filename
                    header_template footer_template keyword_body_template
                    keyword_no_body_template))]).

(** ** The driver *)

(** The tag lists of the description the resolver loaded. *)
Definition loaded_tag_lists (parser : option specification) : tag_lists :=
  match parser with
  | Some spec => spec_tag_lists spec
  | None => ∅
  end.

(** How a run ends: with the value it returns, or with an exception that
    nothing caught. *)
Inductive outcome : Type :=
| Returned (success : bool)
| Raised (e : exn).

Section Driver.

Variable list_of_set : list string -> list string.

Definition transform_openapi_to_robot (w : world)
  (openapi_filename output_filename output_dir : string)
  (add_example_data : bool) (jira_access_key : option string)
  : outcome * list effect :=
  let target_filename := output_filename in
  let robot_target_filename := path_join output_dir (target_filename ++ ".robot") in
  let excel_target_filename := path_join output_dir (target_filename ++ ".xlsx") in
  let includes_target_filename := path_join output_dir "includes.resource" in
  (* PASS 1 *)
  let '(ok, log) := check_and_create_data_directory w output_dir in
  if negb ok then (Returned false, log) else
  match read_template_files w with
  | None => (Returned false, log)
  | Some tpl =>
  (* PASS 2 *)
  if negb (check_if_file_exists w openapi_filename) then (Returned false, log) else
  match parse_openapi_spec list_of_set (resolve w openapi_filename) with
  | Raise e => (Raised e, log)
  | Ok (false, _, _, _) => (Returned false, log)
  | Ok (true, servers, service_dictionary, all_service_variables) =>
  (* PASS 3 *)
  let lists := loaded_tag_lists (resolve w openapi_filename) in
  let mirrored :=
    match jira_access_key with
    | Some (String _ _) =>
        create_jira_tickets w lists service_dictionary openapi_filename
    | _ => Ok (true, lists, [])
    end in
  match mirrored with
  | Raise e => (Raised e, log)
  | Ok (false, _, sent) => (Returned false, (log ++ sent)%list)
  | Ok (true, lists, sent) =>
  let log := (log ++ sent)%list in
  (* PASS 4 *)
  let '(worksheet, maxcol) := write_excel_header empty_worksheet all_service_variables in
  let '(worksheet, maxrow) :=
    write_excel_test_case_data lists worksheet all_service_variables service_dictionary
      add_example_data in
  if negb (writable w excel_target_filename) then (Returned false, log) else
  let log := (log ++ [WriteFile excel_target_filename (Sheet worksheet)])%list in
  (* PASS 5 *)
  let '(success, written) :=
    write_robot_framework_includes_file w servers (includes_string tpl)
      includes_target_filename openapi_filename in
  if negb success then (Returned false, (log ++ written)%list) else
  let log := (log ++ written)%list in
  (* PASS 6 *)
  let '(success, written) :=
    write_robot_framework_test_case_file w all_service_variables service_dictionary
      robot_target_filename openapi_filename (header_string tpl) (footer_string tpl)
      (keyword_body_string tpl) (keyword_no_body_string tpl) in
  (Returned true, (log ++ written)%list)
  end
  end
  end.

End Driver.

(** ** A small description and a world to run the program in *)

Module Sample.

Definition text_property : property_spec :=
  {| prop_enum := None; prop_example := None |}.

Definition status_property : property_spec :=
  {| prop_enum := Some [JStr "available"; JStr "sold"];
     prop_example := Some (JStr "available") |}.

Definition pet_body : request_body :=
  {| body_content :=
       Some [("application/json",
              {| media_schema :=
                   Some {| schema_required := Some ["name"];
                           schema_properties :=
                             Some [("name", text_property);
                                   ("Status", status_property);
                                   ("id", text_property)] |};
                 media_example := None |})] |}.

Definition addPet : operation_object :=
  {| op_tags := Some 0;
     op_summary := Some "Add a new pet";
     op_description := Some "Add a new pet to the store";
     op_operationId := Some "addPet";
     op_requestBody := Some pet_body;
     op_responses := Some [("200", JNull); ("405", JNull)] |}.

Definition getPetById : operation_object :=
  {| op_tags := None;
     op_summary := Some "Find pet by ID";
     op_description := None;
     op_operationId := Some "getPetById";
     op_requestBody := None;
     op_responses := Some [("default", JNull)] |}.

(** An operation without [responses]. *)
Definition deletePet : operation_object :=
  {| op_tags := Some 1;
     op_summary := None;
     op_description := None;
     op_operationId := Some "deletePet";
     op_requestBody := None;
     op_responses := None |}.

(** An operation without [operationId]. *)
Definition anonymous : operation_object :=
  {| op_tags := None;
     op_summary := None;
     op_description := None;
     op_operationId := None;
     op_requestBody := None;
     op_responses := Some [("200", JNull)] |}.

(** The tags of [addPet] and of [deletePet]: two lists with the same
    content. *)
Definition pet_tags : tag_lists := {[ 0 := ["pet"]; 1 := ["pet"] ]}.

Definition petstore : specification :=
  {| spec_servers := Some [ {| url := "https://api.example.com/v1/pets" |} ];
     spec_paths_entry :=
       Some [("/pet", [("post", addPet)]);
             ("/pet/{petId}", [("get", getPetById); ("delete", deletePet)])];
     spec_tag_lists := pet_tags |}.

Definition petstore_anonymous : specification :=
  {| spec_servers := None;
     spec_paths_entry := Some [("/pet", [("post", addPet); ("get", anonymous)])];
     spec_tag_lists := pet_tags |}.

Definition petstore_unbound : specification :=
  {| spec_servers := None;
     spec_paths_entry :=
       Some [("/pet/{petId}", [("delete", deletePet); ("get", getPetById)])];
     spec_tag_lists := pet_tags |}.

(** A description in which [addPet] and [updatePet] hold one and the
    same tags list. *)
Definition updatePet : operation_object :=
  {| op_tags := Some 0;
     op_summary := Some "Update a pet";
     op_description := Some "Update an existing pet";
     op_operationId := Some "updatePet";
     op_requestBody := None;
     op_responses := Some [("200", JNull)] |}.

Definition petstore_shared : specification :=
  {| spec_servers := None;
     spec_paths_entry := Some [("/pet", [("post", addPet); ("put", updatePet)])];
     spec_tag_lists := {[ 0 := ["pet"] ]} |}.

(** A description without the key [paths]. *)
Definition petstore_without_paths : specification :=
  {| spec_servers := None; spec_paths_entry := None; spec_tag_lists := ∅ |}.

(** [json.loads] accepts the text: a recogniser of JSON texts (values,
    objects, arrays, strings with their escapes, numbers, the literals). *)
Definition is_ws (c : ascii) : bool :=
  Ascii.eqb c " " || Ascii.eqb c "009" || Ascii.eqb c "010" || Ascii.eqb c "013".

Definition is_digit (c : ascii) : bool :=
  ((48 <=? Str.code c) && (Str.code c <=? 57))%nat.

Definition is_hex (c : ascii) : bool :=
  is_digit c
  || ((65 <=? Str.code c) && (Str.code c <=? 70))%nat
  || ((97 <=? Str.code c) && (Str.code c <=? 102))%nat.

Fixpoint skip_ws (s : string) : string :=
  match s with
  | String c s' => if is_ws c then skip_ws s' else s
  | EmptyString => EmptyString
  end.

Fixpoint skip_digits (s : string) : string :=
  match s with
  | String c s' => if is_digit c then skip_digits s' else s
  | EmptyString => EmptyString
  end.

(** The rest of the text after the closing quote of a string. *)
Fixpoint json_string (s : string) : option string :=
  match s with
  | EmptyString => None
  | String c s' =>
      if Ascii.eqb c "034" then Some s'
      else if Ascii.eqb c "092" then
        match s' with
        | String e s'' =>
            if Ascii.eqb e "034" || Ascii.eqb e "092" || Ascii.eqb e "/"
               || Ascii.eqb e "b" || Ascii.eqb e "f" || Ascii.eqb e "n"
               || Ascii.eqb e "r" || Ascii.eqb e "t"
            then json_string s''
            else if Ascii.eqb e "u" then
              match s'' with
              | String h1 (String h2 (String h3 (String h4 s3))) =>
                  if is_hex h1 && is_hex h2 && is_hex h3 && is_hex h4
                  then json_string s3 else None
              | _ => None
              end
            else None
        | EmptyString => None
        end
      else if (Str.code c <? 32)%nat then None
      else json_string s'
  end.

(** The rest of the text after a number that starts here. *)
Definition json_number (s : string) : option string :=
  let s := match s with String "-" s' => s' | _ => s end in
  let integer :=
    match s with
    | String c s' =>
        if Ascii.eqb c "0" then Some s'
        else if is_digit c then Some (skip_digits s')
        else None
    | EmptyString => None
    end in
  let fraction rest :=
    match rest with
    | String "." (String d rest') => if is_digit d then skip_digits rest' else rest
    | _ => rest
    end in
  let exponent rest :=
    match rest with
    | String e rest' =>
        if Ascii.eqb e "e" || Ascii.eqb e "E" then
          match rest' with
          | String sign (String d rest'') =>
              if is_digit sign then skip_digits (String d rest'')
              else if (Ascii.eqb sign "+" || Ascii.eqb sign "-") && is_digit d
                   then skip_digits rest''
                   else rest
          | String d EmptyString => if is_digit d then EmptyString else rest
          | EmptyString => rest
          end
        else rest
    | EmptyString => rest
    end in
  option_map (fun rest => exponent (fraction rest)) integer.

Definition json_literal (s : string) : option string :=
  let after word :=
    if String.prefix word s
    then Some (String.substring (String.length word) (String.length s) s)
    else None in
  match after "true", after "false", after "null", after "NaN", after "Infinity",
        after "-Infinity" with
  | Some rest, _, _, _, _, _ | _, Some rest, _, _, _, _ | _, _, Some rest, _, _, _
  | _, _, _, Some rest, _, _ | _, _, _, _, Some rest, _ | _, _, _, _, _, Some rest =>
      Some rest
  | _, _, _, _, _, _ => None
  end.

Inductive json_place : Type := Value | Members | Items.

(** The rest of the text after the value, the members of an object or
    the items of an array that start here. *)
Fixpoint json_scan (fuel : nat) (place : json_place) (s : string) : option string :=
  match fuel with
  | O => None
  | S fuel =>
      match place with
      | Value =>
          match s with
          | String "034" s' => json_string s'
          | String "{" s' =>
              match skip_ws s' with
              | String "}" rest => Some rest
              | s1 => json_scan fuel Members s1
              end
          | String "[" s' =>
              match skip_ws s' with
              | String "]" rest => Some rest
              | s1 => json_scan fuel Items s1
              end
          | _ =>
              match json_literal s with
              | Some rest => Some rest
              | None => json_number s
              end
          end
      | Members =>
          match s with
          | String "034" s' =>
              match json_string s' with
              | Some rest =>
                  match skip_ws rest with
                  | String ":" rest1 =>
                      match json_scan fuel Value (skip_ws rest1) with
                      | Some rest2 =>
                          match skip_ws rest2 with
                          | String "," rest3 => json_scan fuel Members (skip_ws rest3)
                          | String "}" rest3 => Some rest3
                          | _ => None
                          end
                      | None => None
                      end
                  | _ => None
                  end
              | None => None
              end
          | _ => None
          end
      | Items =>
          match json_scan fuel Value s with
          | Some rest =>
              match skip_ws rest with
              | String "," rest1 => json_scan fuel Items (skip_ws rest1)
              | String "]" rest1 => Some rest1
              | _ => None
              end
          | None => None
          end
      end
  end.

Definition json_text (s : string) : bool :=
  match json_scan (2 * String.length s + 2) Value (skip_ws s) with
  | Some rest => String.eqb (skip_ws rest) ""
  | None => false
  end.

Definition template_files : list (string * string) :=
  [("templates/template_robot_generic_includes.robot",
    "${BASE_URL}  REPLACE_ROBOT_BASE_URL_REPLACE");
   ("templates/template_robot_header.robot",
    "[Arguments]  REPLACE_DATA_DRIVER_ARGUMENTS_REPLACE;");
   ("templates/template_robot_keyword_with_request_body.robot",
    "REPLACE_OPERATIONID_REPLACE:REPLACE_URL_PARAMETERS_REPLACEREPLACE_SCHEMA_GENERATOR_STRING_REPLACEREPLACE_HTTP_OPERATION_REPLACE REPLACE_API_PATH_REPLACE;");
   ("templates/template_robot_keyword_without_request_body.robot",
    "REPLACE_OPERATIONID_REPLACE:REPLACE_URL_PARAMETERS_REPLACEREPLACE_HTTP_OPERATION_REPLACE REPLACE_API_PATH_REPLACE;");
   ("templates/template_jira_test_case",
    "{" ++ double_quote ++ "summary" ++ double_quote ++ ": "
    ++ double_quote ++ "REPLACE_TEST_CASE_NAME_REPLACE" ++ double_quote ++ ", "
    ++ double_quote ++ "description" ++ double_quote ++ ": "
    ++ double_quote ++ "REPLACE_DESCRIPTION_REPLACE" ++ double_quote ++ "}");
   ("templates/template_jira_test_execution",
    "{" ++ double_quote ++ "summary" ++ double_quote ++ ": "
    ++ double_quote ++ "REPLACE_API_NAME_REPLACE" ++ double_quote ++ "}")].

(** Every directory exists, the templates are on disk, every file can
    be written except those of [locked], the description file resolves
    to [spec], and [json.loads] accepts the JSON texts. *)
Definition make_world (spec : specification) (locked : list string)
  (answers : list (option response)) : world :=
  {| path_exists := fun _ => true;
     isdir := fun _ => true;
     isfile := fun _ => true;
     mkdir_ok := fun _ => true;
     read_text := fun name => Dict.get name template_files;
     writable := fun name => negb (bool_decide (name ∈ locked));
     resolve := fun _ => Some spec;
     now := "01-Jan-2021 00:00:00";
     json_loads_ok := json_text;
     http := answers |}.

(** The enumeration of a set in the order of insertion. *)
Definition insertion_order (l : list string) : list string := l.

Definition created (key : string) : option response :=
  Some {| status_code := 201; json_body := Some (BodyObject [("key", key)]) |}.

Definition written (log : list effect) : list string :=
  omap (fun e => match e with WriteFile p _ => Some p | _ => None end) log.

End Sample.

(** ** Notions the properties are stated with *)

(** The operations of a description in the order the walker visits
    them, each with its path and its method. *)
Definition operations (spec : specification) : list (string * string * operation_object) :=
  flat_map (fun '(path, ops) => List.map (fun '(operation, op) => (path, operation, op)) ops)
    (spec_paths spec).

(** The description is a tree of dictionaries: no path occurs twice, and
    below a path no method occurs twice. *)
Definition wf_spec (spec : specification) : bool :=
  Dict.wf (spec_paths spec) && forallb (fun entry => Dict.wf (snd entry)) (spec_paths spec).

(** The keys of the [properties] of an operation, when it has any. *)
Definition property_keys (op : operation_object) : list string :=
  match snd (fst (request_fields op)) with
  | Some props => Dict.keys props
  | None => []
  end.

(** The inner loop body on a visited operation. *)
Definition visit (st : walker) (x : string * string * operation_object) : result walker :=
  let '(path, operation, op) := x in walk_operation path st (operation, op).

(** Does the walker assign [expected_status_code] at this operation? *)
Definition assigns_status (op : operation_object) : bool :=
  match op_responses op with
  | Some (_ :: _) => true
  | _ => false
  end.

(** The names in a [required] entry. *)
Definition required_names (tc : test_case) : list string :=
  match required tc with
  | Some l => l
  | None => []
  end.

(** Does the character occur in the string? *)
Fixpoint has_char (c : ascii) (s : string) : bool :=
  match s with
  | EmptyString => false
  | String c' s' => Ascii.eqb c c' || has_char c s'
  end.

Definition newline : ascii := "010".

(** The derivation as the specification words it: the first server whose
    URL matches decides. *)
Fixpoint base_url_of_first_match (servers : list server) : string :=
  match servers with
  | [] => base_url_default
  | srv :: servers' =>
      match Re.search base_url_regex (url srv) with
      | Some (matches, _) => Re.group1 matches
      | None => base_url_of_first_match servers'
      end
  end.

Definition matches_base_url (srv : server) : bool :=
  match Re.search base_url_regex (url srv) with
  | Some _ => true
  | None => false
  end.

(** The text of a cell. *)
Definition cell_text (ws : worksheet) (row col : nat) : string :=
  match cells ws !! (row, col) with
  | Some cl => match content cl with
               | JStr text => text
               | _ => ""
               end
  | None => ""
  end.

(** The header cells of the variable columns, from column [start_column]
    to [maxcol - 1]. *)
Definition variable_columns (ws : worksheet) (maxcol : nat) : list string :=
  List.map (cell_text ws 0) (seq start_column (maxcol - start_column)).

(** A path template given by its pieces: the text before the first
    placeholder, then each placeholder name with the text that follows
    its closing brace. *)
Definition path_template (before : string) (parts : list (string * string)) : string :=
  before ++ Str.cat (List.map (fun part => "{" ++ fst part ++ "}" ++ snd part) parts).

(** The same pieces with every placeholder in the syntax of the engine. *)
Definition engine_path (before : string) (parts : list (string * string)) : string :=
  before ++ Str.cat (List.map (fun part => "${" ++ fst part ++ "}" ++ snd part) parts).

(** The pieces are what they are called: no opening brace outside a
    placeholder, and a name is free of braces and line feeds. *)
Definition plain_text (text : string) : bool := negb (has_char "{" text).

Definition parameter_name (name : string) : bool :=
  negb (has_char "{" name) && negb (has_char "}" name) && negb (has_char newline name).

Definition template_pieces (before : string) (parts : list (string * string)) : bool :=
  plain_text before
  && forallb (fun part => parameter_name (fst part) && plain_text (snd part)) parts.

(** The base URL pattern after its literal prefix, and what is left of
    it as a match proceeds. *)
Definition after_api : list Re.item :=
  [Re.DotStar; Re.GroupOpen; Re.Chr "/"; Re.DotStar; Re.Chr "/"; Re.DotStar;
   Re.GroupClose].
Definition second_segment : list Re.item :=
  [Re.DotStar; Re.Chr "/"; Re.DotStar; Re.GroupClose].
Definition last_run : list Re.item := [Re.DotStar; Re.GroupClose].

(** The parameter pattern after the opening brace. *)
Definition name_run : list Re.item := [Re.DotStarLazy; Re.GroupClose; Re.Chr "}"].

(** The properties of a test case when they are true (not [None], not
    empty). *)
Definition true_properties (tc : test_case) : option (list (string * property_spec)) :=
  match properties tc with
  | Some ((_ :: _) as props) => Some props
  | _ => None
  end.

(** [_keyword_placeholder] of [keyword_text] at the point where the URL
    parameters are substituted: the chosen template with the operation,
    the operation id, the documentation and the arguments filled in. *)
Definition keyword_head (my_arguments_string keyword_body_template
  keyword_no_body_template : string) (entry : service_key * test_case) : string :=
  let '((test_case_name, test_case_operation, _), tc) := entry in
  Str.replace "REPLACE_DATA_DRIVER_ARGUMENTS_REPLACE" my_arguments_string
    (Str.replace "REPLACE_DOCUMENTATION_REPLACE" (summary tc)
       (Str.replace "REPLACE_OPERATIONID_REPLACE" test_case_name
          (Str.replace "REPLACE_OPERATION_REPLACE" (Str.upper test_case_operation)
             (match true_properties tc with
              | Some _ => keyword_body_template
              | None => keyword_no_body_template
              end)))).

(** [_keyword_placeholder] of [keyword_text] at the point where the path
    is substituted. *)
Definition keyword_before_path (my_arguments_string keyword_body_template
  keyword_no_body_template : string) (entry : service_key * test_case) : string :=
  let '((_, test_case_operation, test_case_endpoint), tc) := entry in
  Str.replace "REPLACE_HTTP_OPERATION_REPLACE" (Str.upper test_case_operation)
    (match true_properties tc with
     | Some props =>
         Str.replace "REPLACE_SCHEMA_GENERATOR_STRING_REPLACE" (properties_generator props)
     | None => fun text => text
     end
       (Str.replace "REPLACE_URL_PARAMETERS_REPLACE"
          (fst (url_parameters test_case_endpoint))
          (keyword_head my_arguments_string keyword_body_template
             keyword_no_body_template entry))).

(** The key under which the walker stores an operation; [None] for an
    operation without [operationId]. *)
Definition operation_key (x : string * string * operation_object) : option service_key :=
  let '(path, operation, op) := x in
  match op_operationId op with
  | Some operationid => Some (operationid, operation, path)
  | None => None
  end.

(** The record the walker builds for an operation when the status
    variable holds [code]. *)
Definition operation_record (op : operation_object) (code : json) : test_case :=
  {| properties := snd (fst (request_fields op));
     required := fst (fst (request_fields op));
     example := snd (request_fields op);
     tags := match op_tags op with Some ref => TagsList ref | None => TagsStr "" end;
     summary := match op_summary op with Some s => s | None => "" end;
     description := match op_description op with Some s => s | None => "" end;
     expected_status_code := code |}.

(** Two sheets agree at a cell: same content and format, same
    validation. *)
Definition same_at (ws ws' : worksheet) (row col : nat) : Prop :=
  cells ws !! (row, col) = cells ws' !! (row, col) /\
  validations ws !! (row, col) = validations ws' !! (row, col).

(** No true property of the test case has its column at [col]. *)
Definition no_property_at (all_service_variables : list string) (tc : test_case)
  (col : nat) : Prop :=
  start_column <= col /\
  forall props prop,
    true_properties tc = Some props ->
    prop ∈ Dict.keys props ->
    index prop all_service_variables <> Some (col - start_column).

(** The ticket a submission creates, from the answer to its request. *)
Definition ticket_of_answer (answer : option response) : option string :=
  match create_jira_item answer 201 true with
  | Ok (true, Some jira_ticket_id) => Some jira_ticket_id
  | _ => None
  end.

(** Does the test case hold the tags list [ref]? *)
Definition holds_list (ref : nat) (tc : test_case) : bool :=
  match tags tc with
  | TagsList ref' => Nat.eqb ref' ref
  | TagsStr _ => false
  end.

(** The tickets the mirror appends to the list [ref]: those created for
    the test cases that hold it, in the order of the test cases.  The
    answer to the submission of the test case at position [i] is the
    [first + i]-th answer of the peer. *)
Fixpoint tickets_of_list (answers : list (option response)) (first : nat)
  (test_cases : service_dict) (ref : nat) : list string :=
  match test_cases with
  | [] => []
  | (_, tc) :: test_cases' =>
      (match ticket_of_answer (nth first answers None) with
       | Some jira_ticket_id => if holds_list ref tc then [jira_ticket_id] else []
       | None => []
       end ++ tickets_of_list answers (S first) test_cases' ref)%list
  end.

(** A ticket key that [json.dumps] writes as it is, between quotes:
    printable ASCII without the quote and the backslash. *)
Definition plain_char (c : ascii) : bool :=
  ((32 <=? Str.code c) && (Str.code c <=? 126))%nat
  && negb (Ascii.eqb c "034") && negb (Ascii.eqb c "092").

Fixpoint plain_key (s : string) : bool :=
  match s with
  | EmptyString => true
  | String c s' => plain_char c && plain_key s'
  end.

(** The text of a number written with the decimal digits [ds], and the
    number it denotes. *)
Definition decimal_text (ds : list nat) : string :=
  string_of_list_ascii (List.map (fun d => ascii_of_nat (48 + d)) ds).

Definition decimal_value (ds : list nat) : Z :=
  fold_left (fun acc d => (10 * acc + Z.of_nat d)%Z) ds 0%Z.

(** A text that holds a letter of the ASCII alphabet. *)
Definition letter (c : ascii) : bool :=
  ((65 <=? Str.code c) && (Str.code c <=? 90))%nat
  || ((97 <=? Str.code c) && (Str.code c <=? 122))%nat.

Fixpoint has_letter (s : string) : bool :=
  match s with
  | EmptyString => false
  | String c s' => letter c || has_letter s'
  end.

(** A content that [worksheet.write] accepts: not a list, not a
    dictionary. *)
Definition scalar (v : json) : bool :=
  match v with
  | JArr _ | JObj _ => false
  | _ => true
  end.

(** The text of a list validation as xlsxwriter measures it, for values
    that are strings. *)
Definition enum_texts (values : list json) : option (list string) :=
  mapM (fun v => match v with JStr s => Some s | _ => None end) values.

(** The examples of the properties of the test cases. *)
Definition property_examples (test_cases : service_dict) : list json :=
  flat_map (fun entry =>
              match properties (snd entry) with
              | Some props => omap (fun p => prop_example (snd p)) props
              | None => []
              end) test_cases.

(** The limits of a sheet: rows and columns, and the length of the text
    of a list validation. *)
Definition xls_rowmax : Z := 1048576.
Definition xls_colmax : Z := 16384.
Definition validation_list_max : nat := 255.

(** The tickets the first [n] requests create, in order. *)
Definition created_tickets (answers : list (option response)) (n : nat) : list string :=
  omap (fun i => ticket_of_answer (nth i answers None)) (seq 0 n).

(** The paths of the files a run wrote, in order. *)
Definition files_written (log : list effect) : list string :=
  omap (fun e => match e with WriteFile path _ => Some path | _ => None end) log.

(** The targets of the requests a run sent, in order. *)
Definition requests_sent (log : list effect) : list string :=
  omap (fun e => match e with HttpPost target _ => Some target | _ => None end) log.

(** [group] is made of the last two segments of a line of [url], after
    the text https://api on that line: a slash, a segment, a slash, a
    segment, none of the two segments holding a slash, and after them the
    end of the text or of the line. *)
Definition last_two_segments (url group : string) : Prop :=
  exists before host seg1 seg2 rest,
    url = before ++ "https://api" ++ host ++ "/" ++ seg1 ++ "/" ++ seg2 ++ rest /\
    group = "/" ++ seg1 ++ "/" ++ seg2 /\
    has_char "/" seg1 = false /\ has_char "/" seg2 = false /\
    has_char newline host = false /\ has_char newline seg1 = false /\
    has_char newline seg2 = false /\
    (rest = "" \/ exists r, rest = String newline r).

(** ** The program on the sample description *)

Example int_200 : PyInt.int "200" = Some 200%Z.
Proof. reflexivity. Qed.

Example int_default : PyInt.int "default" = None.
Proof. reflexivity. Qed.

Example int_2XX : PyInt.int "2XX" = None.
Proof. reflexivity. Qed.

Example int_spaces : PyInt.int " 4_04 " = Some 404%Z.
Proof. reflexivity. Qed.

Example int_negative : PyInt.int "-12" = Some (-12)%Z.
Proof. reflexivity. Qed.

(** The separators of the C0 controls are no white space for [int]. *)
Example int_separator : PyInt.int (String "028" "200") = None.
Proof. reflexivity. Qed.

Example json_text_rendered :
  Sample.json_text
    ("{" ++ double_quote ++ "summary" ++ double_quote ++ ": "
     ++ double_quote ++ "addPet" ++ double_quote ++ "}") = true
  /\ Sample.json_text "{summary: addPet}" = false
  /\ Sample.json_text
       ("[1, -2.5e3, true, null, {" ++ double_quote ++ "a" ++ double_quote ++ ": []}]")
     = true
  /\ Sample.json_text
       (double_quote ++ "it" ++ backslash ++ single_quote ++ "s" ++ double_quote) = false
  /\ Sample.json_text "[1,]" = false
  /\ Sample.json_text "" = false.
Proof. vm_compute. repeat split; reflexivity. Qed.

Example replace_braces : Str.replace "{" "${" "/pets/{petId}" = "/pets/${petId}".
Proof. reflexivity. Qed.

Example replace_overlap : Str.replace "aa" "b" "aaa" = "ba".
Proof. reflexivity. Qed.

Example lower_mixed : Str.lower "PetId" = "petid".
Proof. reflexivity. Qed.

Example search_two_segments :
  option_map (fun r => Re.group1 (fst r))
    (Re.search base_url_regex "https://api.example.com/v1/pets")
  = Some "/v1/pets".
Proof. reflexivity. Qed.

Example search_three_segments :
  option_map (fun r => Re.group1 (fst r))
    (Re.search base_url_regex "https://api.example.com/a/b/c")
  = Some "/b/c".
Proof. reflexivity. Qed.

Example search_one_segment :
  Re.search base_url_regex "https://api.example.com/v1" = None.
Proof. reflexivity. Qed.

Example search_other_host :
  Re.search base_url_regex "https://petstore.swagger.io/v1/pets" = None.
Proof. reflexivity. Qed.

Example finditer_two_parameters :
  List.map Re.group1 (Re.finditer url_parameter_regex "/pets/{petId}/toys/{toyId}")
  = ["petId"; "toyId"].
Proof. reflexivity. Qed.

Example sorted_lower_mixed :
  sorted_lower ["name"; "Id"; "age"; "id"; "Zip"] = ["age"; "Id"; "id"; "name"; "Zip"].
Proof. reflexivity. Qed.

Example petstore_parses :
  option_map (fun r => (List.map fst (snd (fst r)), snd r))
    (match parse_openapi_spec Sample.insertion_order (Some Sample.petstore) with
     | Ok r => Some r
     | Raise _ => None
     end)
  = Some ([("addPet", "post", "/pet");
           ("getPetById", "get", "/pet/{petId}");
           ("deletePet", "delete", "/pet/{petId}")],
          ["id"; "name"; "Status"]).
Proof. vm_compute. reflexivity. Qed.

Example petstore_run :
  let '(out, log) :=
    transform_openapi_to_robot Sample.insertion_order
      (Sample.make_world Sample.petstore [] []) "petstore.json" "export" "output"
      false None in
  out = Returned true /\
  Sample.written log = ["output/export.xlsx"; "output/includes.resource"; "output/export.robot"].
Proof. vm_compute. split; reflexivity. Qed.

Example petstore_sheet :
  match parse_openapi_spec Sample.insertion_order (Some Sample.petstore) with
  | Ok (_, _, service_dictionary, all_service_variables) =>
      let '(ws, maxcol) := write_excel_header empty_worksheet all_service_variables in
      let '(ws, maxrow) :=
        write_excel_test_case_data Sample.pet_tags ws all_service_variables
          service_dictionary true in
      (maxcol, maxrow) = (9, 3)
      /\ List.map (cell_text ws 0) (seq 0 9)
         = ["*** Test Case ***"; "[Documentation]"; "[Tags]"; "${API_CALL}";
            "${API_OPERATION}"; "${EXPECTED_STATUS_CODE}"; "${id}"; "${name}"; "${Status}"]
      /\ List.map (cell_text ws 1) (seq 0 9)
         = ["addPet"; "Add a new pet"; "pet"; "addPet"; "POST"; ""; ""; ""; "available"]
      /\ List.map (fun col => option_map (fun cl => bg_color (fmt cl)) (cells ws !! (1, col)))
           (seq 5 4)
         = [Some "f9e4b7"; Some "#99ee99"; Some "ee9999"; Some "#99ee99"]
      /\ option_map content (cells ws !! (1, 5)) = Some (JNum 200)
      /\ validations ws !! (1, 8) = Some [JStr "available"; JStr "sold"]
      /\ List.map (cell_text ws 3) (seq 0 5)
         = ["deletePet"; ""; "pet"; "deletePet"; "DELETE"]
      /\ option_map (fun cl => bg_color (fmt cl)) (cells ws !! (3, 7)) = Some "#bbbbbb"
  | Raise _ => False
  end.
Proof. vm_compute. repeat split; reflexivity. Qed.

Example petstore_script :
  robot_text (Sample.make_world Sample.petstore [] []) ["id"; "name"]
    [(("getPetById", "get", "/pet/{petId}"),
      {| properties := None; required := None; example := None;
         tags := TagsStr ""; summary := "Find pet by ID"; description := "";
         expected_status_code := JStr "" |})]
    "petstore.json" "[Arguments]  REPLACE_DATA_DRIVER_ARGUMENTS_REPLACE;" None
    "" "REPLACE_OPERATIONID_REPLACE:REPLACE_URL_PARAMETERS_REPLACEREPLACE_HTTP_OPERATION_REPLACE REPLACE_API_PATH_REPLACE;"
  = "[Arguments]  ${API_CALL}  ${API_OPERATION}  ${EXPECTED_STATUS_CODE}  ${id}  ${name};"
    ++ "getPetById:" ++ line_feed
    ++ "    Set Test Variable  ${petId}  petId" ++ line_feed
    ++ "GET /pet/${petId};".
Proof. vm_compute. reflexivity. Qed.

(** ** Loops that may raise *)

Lemma bind_Ok {A B : Type} (m : result A) (k : A -> result B) (b : B) :
  bind m k = Ok b -> exists a, m = Ok a /\ k a = Ok b.
Proof. destruct m as [a|e]; simpl; [eauto | discriminate]. Qed.

Lemma foldM_app {A S : Type} (body : S -> A -> result S) (l1 l2 : list A) (s : S) :
  foldM body (l1 ++ l2)%list s = bind (foldM body l1 s) (foldM body l2).
Proof.
  revert s. induction l1 as [|a l1 IH]; intros s; simpl; [reflexivity|].
  destruct (body s a); simpl; [apply IH | reflexivity].
Qed.

(** A loop that meets an element on which the body raises from every
    state does not complete. *)
Lemma foldM_raises {A S : Type} (body : S -> A -> result S) (l : list A) (a : A) :
  a ∈ l -> (forall s, exists e, body s a = Raise e) ->
  forall s, exists e, foldM body l s = Raise e.
Proof.
  intros Hin Hbody. induction l as [|b l IH]; intros s.
  - inversion Hin.
  - simpl. apply elem_of_cons in Hin as [<- | Hin].
    + destruct (Hbody s) as [e ->]. eauto.
    + destruct (body s b) as [s'|e]; simpl; eauto.
Qed.

Lemma foldM_inner_flat (path : string) (ops : list (string * operation_object)) (st : walker) :
  foldM (walk_operation path) ops st
  = foldM visit (List.map (fun '(operation, op) => (path, operation, op)) ops) st.
Proof.
  revert st. induction ops as [|[operation op] ops IH]; intros st; [reflexivity|].
  cbn [foldM List.map].
  change (visit st (path, operation, op)) with (walk_operation path st (operation, op)).
  destruct (walk_operation path st (operation, op)); cbn [bind]; [apply IH | reflexivity].
Qed.

Lemma foldM_paths_flat (paths : list (string * list (string * operation_object))) (st : walker) :
  foldM walk_path paths st
  = foldM visit
      (flat_map (fun '(path, ops) =>
                   List.map (fun '(operation, op) => (path, operation, op)) ops) paths) st.
Proof.
  revert st. induction paths as [|[path ops] paths IH]; intros st; [reflexivity|].
  cbn [foldM flat_map]. rewrite foldM_app, <- foldM_inner_flat.
  change (walk_path st (path, ops)) with (foldM (walk_operation path) ops st).
  destruct (foldM (walk_operation path) ops st); cbn [bind]; [apply IH | reflexivity].
Qed.

(** The two nested loops visit [operations spec] from left to right,
    when the description has the key [paths]. *)
Lemma walk_paths_visit (spec : specification) :
  spec_paths_entry spec <> None ->
  walk_paths spec
  = foldM visit (operations spec)
      {| wk_service_dictionary := []; wk_varset := []; wk_expected_status_code := None |}.
Proof.
  intros Hentry. unfold walk_paths, operations, spec_paths.
  destruct (spec_paths_entry spec) as [paths|]; [|congruence]. apply foldM_paths_flat.
Qed.

Lemma walk_paths_no_entry (spec : specification) :
  spec_paths_entry spec = None -> walk_paths spec = Raise (KeyError "paths").
Proof. intros Hentry. unfold walk_paths. rewrite Hentry. reflexivity. Qed.

Lemma walk_paths_Ok (spec : specification) (st : walker) :
  walk_paths spec = Ok st ->
  spec_paths_entry spec <> None /\
  foldM visit (operations spec)
    {| wk_service_dictionary := []; wk_varset := []; wk_expected_status_code := None |}
  = Ok st.
Proof.
  intros Hwalk. destruct (spec_paths_entry spec) as [paths|] eqn:Hentry.
  - split; [discriminate|]. rewrite <- walk_paths_visit; [exact Hwalk | congruence].
  - rewrite (walk_paths_no_entry _ Hentry) in Hwalk. discriminate.
Qed.

Lemma operations_entry (spec : specification) :
  operations spec <> [] -> spec_paths_entry spec <> None.
Proof.
  unfold operations, spec_paths. destruct (spec_paths_entry spec); [discriminate|].
  intros H. contradiction H. reflexivity.
Qed.

Lemma elem_of_operations_entry (spec : specification) x :
  x ∈ operations spec -> spec_paths_entry spec <> None.
Proof.
  intros Hin. apply operations_entry. intros Hnil. rewrite Hnil in Hin. inversion Hin.
Qed.

Lemma elem_of_operations (spec : specification) path operation op :
  (path, operation, op) ∈ operations spec <->
  exists ops, (path, ops) ∈ spec_paths spec /\ (operation, op) ∈ ops.
Proof.
  unfold operations. rewrite list_elem_of_In, in_flat_map. split.
  - intros [[path' ops] [Hin Hin']]. apply in_map_iff in Hin' as [[operation' op'] [Heq Hin']].
    inversion Heq; subst. exists ops. rewrite !list_elem_of_In. auto.
  - intros [ops [Hin Hin']]. exists (path, ops).
    apply list_elem_of_In in Hin. apply list_elem_of_In in Hin'.
    split; [assumption|]. apply in_map_iff. exists (operation, op). auto.
Qed.

Lemma visit_no_operationId (st : walker) path operation op :
  op_operationId op = None ->
  visit st (path, operation, op)
  = Raise (ValueError "No operationId present in OpenAPI file, cannot continue").
Proof. intros H. unfold visit, walk_operation. rewrite H. reflexivity. Qed.

(** The walker does not complete on a description with an operation
    that has no [operationId]. *)
Lemma walk_paths_anonymous (spec : specification) path operation op :
  (path, operation, op) ∈ operations spec -> op_operationId op = None ->
  exists e, walk_paths spec = Raise e.
Proof.
  intros Hin Hid. rewrite walk_paths_visit by (eapply elem_of_operations_entry; exact Hin).
  eapply foldM_raises; [exact Hin|].
  intros s. rewrite visit_no_operationId by assumption. eauto.
Qed.

(** ** Dictionaries *)

Lemma dict_get_set {K V : Type} `{EqDecision K} (k k' : K) (v : V) (d : list (K * V)) :
  Dict.get k (Dict.set k' v d) = if decide (k = k') then Some v else Dict.get k d.
Proof.
  induction d as [|[k0 v0] d IH]; simpl.
  - destruct (decide (k = k')); reflexivity.
  - destruct (decide (k' = k0)) as [->|Hne]; simpl.
    + destruct (decide (k = k0)); reflexivity.
    + destruct (decide (k = k0)) as [->|Hne'].
      * destruct (decide (k0 = k')); [congruence | reflexivity].
      * exact IH.
Qed.

Lemma dict_get_set_eq {K V : Type} `{EqDecision K} (k : K) (v : V) (d : list (K * V)) :
  Dict.get k (Dict.set k v d) = Some v.
Proof. rewrite dict_get_set. destruct (decide (k = k)); congruence. Qed.

Lemma dict_get_set_ne {K V : Type} `{EqDecision K} (k k' : K) (v : V) (d : list (K * V)) :
  k <> k' -> Dict.get k (Dict.set k' v d) = Dict.get k d.
Proof. intros Hne. rewrite dict_get_set. destruct (decide (k = k')); congruence. Qed.

(** ** The walker, one operation at a time *)

(** What a visit that completes has done. *)
Lemma visit_Ok (st st' : walker) path operation op :
  visit st (path, operation, op) = Ok st' ->
  exists operationid code,
    op_operationId op = Some operationid /\
    assign_status op (wk_expected_status_code st) = Some code /\
    wk_expected_status_code st' = Some code /\
    wk_varset st' = add_properties (snd (fst (request_fields op))) (wk_varset st) /\
    (exists tc,
        wk_service_dictionary st'
        = Dict.set (operationid, operation, path) tc (wk_service_dictionary st) /\
        expected_status_code tc = code /\
        properties tc = snd (fst (request_fields op)) /\
        required tc = fst (fst (request_fields op)) /\
        tags tc = match op_tags op with Some t => TagsList t | None => TagsStr "" end).
Proof.
  unfold visit, walk_operation.
  destruct (op_operationId op) as [operationid|]; [|discriminate].
  destruct (request_fields op) as [[req props] ex].
  destruct (assign_status op (wk_expected_status_code st)) as [code|]; [|discriminate].
  intros [= <-]. exists operationid, code. simpl. repeat split. eauto 10.
Qed.

(** A visit that finds the variable unbound and does not bind it. *)
Lemma visit_unbound (st : walker) path operation op operationid :
  op_operationId op = Some operationid ->
  wk_expected_status_code st = None ->
  assigns_status op = false ->
  visit st (path, operation, op) = Raise (UnboundLocalError "expected_status_code").
Proof.
  intros Hid Hst Hno. unfold visit, walk_operation. rewrite Hid.
  destruct (request_fields op) as [[req props] ex].
  unfold assign_status, assigns_status in *. rewrite Hst.
  destruct (op_responses op) as [[|[k v] rest]|]; try discriminate; reflexivity.
Qed.

Lemma assign_status_assigns (op : operation_object) (old : option json) k v rest :
  op_responses op = Some ((k, v) :: rest) ->
  assign_status op old = Some (status_of_key k).
Proof. intros H. unfold assign_status. rewrite H. reflexivity. Qed.

Lemma assign_status_keeps (op : operation_object) (old : option json) :
  assigns_status op = false -> assign_status op old = old.
Proof.
  unfold assign_status, assigns_status.
  destruct (op_responses op) as [[|[k v] rest]|]; intros; try discriminate; reflexivity.
Qed.

(** Operations that do not assign the status leave the variable as it is. *)
Lemma visits_keep_status (l : list (string * string * operation_object)) (st st' : walker) :
  foldM visit l st = Ok st' ->
  Forall (fun x => assigns_status (snd x) = false) l ->
  wk_expected_status_code st' = wk_expected_status_code st.
Proof.
  revert st. induction l as [|[[path operation] op] l IH]; intros st Hrun Hall.
  - injection Hrun as <-. reflexivity.
  - cbn [foldM] in Hrun. apply bind_Ok in Hrun as [st1 [Hvisit Hrun]].
    apply Forall_cons in Hall as [Hop Hall].
    rewrite (IH _ Hrun Hall).
    apply visit_Ok in Hvisit as (operationid & code & _ & Hassign & Hcode & _).
    rewrite Hcode, <- Hassign. apply assign_status_keeps. exact Hop.
Qed.

(** Later visits do not touch the record of an operation they do not
    name. *)
Lemma visits_keep_record (l : list (string * string * operation_object)) (st st' : walker)
  (operationid operation path : string) :
  foldM visit l st = Ok st' ->
  (path, operation) ∉ List.map fst l ->
  Dict.get (operationid, operation, path) (wk_service_dictionary st')
  = Dict.get (operationid, operation, path) (wk_service_dictionary st).
Proof.
  revert st. induction l as [|[[path0 operation0] op0] l IH]; intros st Hrun Hfresh.
  - injection Hrun as <-. reflexivity.
  - cbn [foldM] in Hrun. apply bind_Ok in Hrun as [st1 [Hvisit Hrun]].
    cbn [List.map fst] in Hfresh. apply not_elem_of_cons in Hfresh as [Hne Hfresh].
    rewrite (IH _ Hrun Hfresh).
    apply visit_Ok in Hvisit as (id0 & code & _ & _ & _ & _ & tc & Hdict & _).
    rewrite Hdict. apply dict_get_set_ne. congruence.
Qed.

Lemma elem_of_tagged (path p o : string) (ops : list (string * operation_object)) :
  (p, o) ∈ List.map fst (List.map (fun '(operation, op) => (path, operation, op)) ops) ->
  p = path /\ o ∈ List.map fst ops.
Proof.
  induction ops as [|[operation op] ops IH]; cbn [List.map fst].
  - intros H. inversion H.
  - intros H. apply elem_of_cons in H as [H|H].
    + inversion H; subst. split; [reflexivity | apply elem_of_cons; auto].
    + destruct (IH H) as [-> Hin]. split; [reflexivity | apply elem_of_cons; auto].
Qed.

(** In a well-formed description no (path, method) pair is visited twice. *)
Lemma wf_spec_NoDup (spec : specification) :
  wf_spec spec = true -> NoDup (List.map fst (operations spec)).
Proof.
  unfold wf_spec, operations, Dict.wf, Dict.keys. intros H.
  apply andb_true_iff in H as [Hpaths Hops].
  apply bool_decide_eq_true in Hpaths. rewrite forallb_forall in Hops.
  induction (spec_paths spec) as [|[path ops] paths IH]; [constructor|].
  cbn [flat_map]. rewrite map_app. cbn [List.map fst] in Hpaths.
  apply NoDup_cons in Hpaths as [Hpath Hpaths].
  apply NoDup_app. split; [|split].
  - assert (Hwf : NoDup (List.map fst ops)).
    { specialize (Hops (path, ops) (or_introl eq_refl)).
      apply bool_decide_eq_true in Hops. exact Hops. }
    clear -Hwf. induction ops as [|[operation op] ops IH]; [constructor|].
    cbn [List.map fst] in *. apply NoDup_cons in Hwf as [Hnew Hwf].
    apply NoDup_cons. split; [|auto].
    intros Hin. apply Hnew. apply elem_of_tagged in Hin as [_ Hin]. exact Hin.
  - intros [p o] Hin1 Hin2. apply Hpath.
    apply elem_of_tagged in Hin1 as [-> _].
    clear -Hin2. induction paths as [|[path' ops'] paths IH]; cbn [flat_map List.map fst] in *.
    + inversion Hin2.
    + rewrite map_app in Hin2. apply elem_of_app in Hin2 as [Hin2|Hin2].
      * apply elem_of_tagged in Hin2 as [-> _]. apply elem_of_cons; auto.
      * apply elem_of_cons; auto.
  - apply IH; [exact Hpaths|]. intros x Hx. apply Hops. right. exact Hx.
Qed.

(** The run of the walker around one visited operation. *)
Lemma walk_split (l1 l2 : list (string * string * operation_object)) x (st st' : walker) :
  foldM visit (l1 ++ x :: l2)%list st = Ok st' ->
  exists st1 st2,
    foldM visit l1 st = Ok st1 /\ visit st1 x = Ok st2 /\ foldM visit l2 st2 = Ok st'.
Proof.
  rewrite foldM_app. intros H. apply bind_Ok in H as [st1 [H1 H]].
  cbn [foldM] in H. apply bind_Ok in H as [st2 [H2 H]]. eauto.
Qed.

(** The record the walker leaves for a visited operation, read from the
    final dictionary: it was built from the operation and from the status
    variable as the operations before it left it. *)
Lemma walker_record (spec : specification) (st : walker) l1 l2 path operation op :
  wf_spec spec = true ->
  walk_paths spec = Ok st ->
  operations spec = (l1 ++ (path, operation, op) :: l2)%list ->
  exists st1 operationid tc,
    foldM visit l1
      {| wk_service_dictionary := []; wk_varset := []; wk_expected_status_code := None |}
    = Ok st1 /\
    op_operationId op = Some operationid /\
    Dict.get (operationid, operation, path) (wk_service_dictionary st) = Some tc /\
    assign_status op (wk_expected_status_code st1) = Some (expected_status_code tc) /\
    properties tc = snd (fst (request_fields op)) /\
    required tc = fst (fst (request_fields op)) /\
    tags tc = match op_tags op with Some ref => TagsList ref | None => TagsStr "" end.
Proof.
  intros Hwf Hrun Hsplit. apply walk_paths_Ok in Hrun as [_ Hrun]. rewrite Hsplit in Hrun.
  apply walk_split in Hrun as (st1 & st2 & H1 & Hvisit & H2).
  apply visit_Ok in Hvisit
    as (operationid & code & Hid & Hassign & _ & _ & tc & Hdict & Hcode & Hprops & Hreq & Htags).
  exists st1, operationid, tc. repeat split; try assumption.
  - rewrite (visits_keep_record l2 st2 st operationid operation path H2).
    + rewrite Hdict. apply dict_get_set_eq.
    + apply wf_spec_NoDup in Hwf. rewrite Hsplit, map_app in Hwf.
      apply NoDup_app in Hwf as (_ & _ & Hwf). cbn [List.map fst] in Hwf.
      apply NoDup_cons in Hwf as [Hfresh _]. exact Hfresh.
  - rewrite Hcode. exact Hassign.
Qed.

Lemma parse_Ok (list_of_set : list string -> list string) (spec : specification)
  success servers service_dictionary all_service_variables :
  parse_openapi_spec list_of_set (Some spec)
  = Ok (success, servers, service_dictionary, all_service_variables) ->
  exists st,
    walk_paths spec = Ok st /\
    success = true /\
    service_dictionary = wk_service_dictionary st /\
    all_service_variables = sorted_lower (list_of_set (wk_varset st)).
Proof.
  unfold parse_openapi_spec. intros H. apply bind_Ok in H as [st [Hwalk H]].
  injection H as <- <- <- <-. eauto.
Qed.

(** ** C6 *)

Lemma digit_of_nat (d : nat) :
  d < 10 ->
  PyInt.digit (ascii_of_nat (48 + d)) = Some (Z.of_nat d) /\
  PyInt.is_space (ascii_of_nat (48 + d)) = false /\
  ascii_of_nat (48 + d) <> "-"%char /\ ascii_of_nat (48 + d) <> "+"%char.
Proof.
  intros Hd. do 10 (destruct d as [|d]; [repeat split; discriminate|]). lia.
Qed.

Lemma digits_decimal_text (ds : list nat) (acc : Z) (after_digit : bool) :
  Forall (fun d => d < 10) ds ->
  after_digit = true \/ ds <> [] ->
  PyInt.digits acc after_digit (decimal_text ds)
  = Some (fold_left (fun acc d => (10 * acc + Z.of_nat d)%Z) ds acc).
Proof.
  intros Hds. revert acc after_digit.
  induction Hds as [|d ds Hd _ IH]; intros acc after_digit Hstart.
  - destruct Hstart as [-> | Hne]; [reflexivity | congruence].
  - unfold decimal_text. cbn [List.map string_of_list_ascii PyInt.digits fold_left].
    rewrite (proj1 (digit_of_nat d Hd)). apply IH. auto.
Qed.

(** [int] of a text made of decimal digits is the number they denote. *)
Lemma int_decimal_text (ds : list nat) :
  ds <> [] -> Forall (fun d => d < 10) ds ->
  PyInt.int (decimal_text ds) = Some (decimal_value ds).
Proof.
  intros Hne Hds. pose proof (digits_decimal_text ds 0 false Hds (or_intror Hne)) as Hdigits.
  destruct ds as [|d ds]; [congruence|].
  apply Forall_cons in Hds as [Hd _].
  destruct (digit_of_nat d Hd) as (_ & Hspace & Hminus & Hplus).
  unfold PyInt.int, decimal_value. unfold decimal_text in *.
  cbn [List.map string_of_list_ascii PyInt.lstrip] in *. rewrite Hspace.
  destruct (ascii_of_nat (48 + d)) as [b0 b1 b2 b3 b4 b5 b6 b7] eqn:Hc.
  destruct b0, b1, b2, b3, b4, b5, b6, b7; try exact Hdigits; congruence.
Qed.

Lemma letter_no_digit (c : ascii) :
  letter c = true ->
  PyInt.digit c = None /\ Ascii.eqb c "_" = false /\ PyInt.is_space c = false /\
  c <> "-"%char /\ c <> "+"%char.
Proof.
  destruct c as [[] [] [] [] [] [] [] []]; intros H; try discriminate H;
    repeat split; discriminate.
Qed.

Lemma has_letter_all_space (s : string) :
  has_letter s = true -> PyInt.all_space s = false.
Proof.
  induction s as [|c s IH]; [discriminate|]. cbn [has_letter PyInt.all_space].
  intros H. apply orb_true_iff in H as [H|H].
  - rewrite (proj1 (proj2 (proj2 (letter_no_digit c H)))). reflexivity.
  - rewrite (IH H). apply andb_false_r.
Qed.

Lemma digits_letter (s : string) (acc : Z) (after_digit : bool) :
  has_letter s = true -> PyInt.digits acc after_digit s = None.
Proof.
  revert acc after_digit. induction s as [|c s IH]; intros acc after_digit H; [discriminate|].
  pose proof (has_letter_all_space _ H) as Hspace.
  cbn [has_letter] in H. cbn [PyInt.digits].
  destruct (letter c) eqn:Hc.
  - destruct (letter_no_digit c Hc) as (-> & -> & _).
    rewrite Hspace, andb_false_r. reflexivity.
  - cbn [orb] in H. destruct (PyInt.digit c) as [d|]; [apply IH; exact H|].
    destruct (Ascii.eqb c "_").
    + destruct after_digit; [|reflexivity].
      destruct s as [|c' s']; [reflexivity|].
      destruct (PyInt.digit c'); [apply IH; exact H | reflexivity].
    + rewrite Hspace, andb_false_r. reflexivity.
Qed.

(** [int] fails on a text that holds a letter. *)
Lemma int_letter (s : string) : has_letter s = true -> PyInt.int s = None.
Proof.
  intros H. unfold PyInt.int.
  assert (Hstrip : has_letter (PyInt.lstrip s) = true).
  { induction s as [|c s IH]; [discriminate|]. cbn [PyInt.lstrip].
    destruct (PyInt.is_space c) eqn:Hspace; [|exact H].
    apply IH. cbn [has_letter] in H. apply orb_true_iff in H as [H|H]; [|exact H].
    rewrite (proj1 (proj2 (proj2 (letter_no_digit c H)))) in Hspace. discriminate. }
  destruct (PyInt.lstrip s) as [|c s'] eqn:Hs; [discriminate|].
  assert (Hrest : c = "-"%char \/ c = "+"%char -> has_letter s' = true).
  { intros Hsign. cbn [has_letter] in Hstrip.
    apply orb_true_iff in Hstrip as [Hc|Hrest]; [|exact Hrest].
    destruct (letter_no_digit c Hc) as (_ & _ & _ & Hminus & Hplus).
    destruct Hsign; contradiction. }
  destruct c as [b0 b1 b2 b3 b4 b5 b6 b7].
  destruct b0, b1, b2, b3, b4, b5, b6, b7;
    try (apply digits_letter; exact Hstrip);
    rewrite (digits_letter s') by (apply Hrest; auto); reflexivity.
Qed.

(** C6. For every operation with a non-empty [responses] map, the record
    stored for it carries as expected status code the first key of the map
    passed through [int]; when [int] fails for that key the stored value
    is the empty string.  So a key written with decimal digits is stored
    as the number they denote, and a key that holds a letter as the empty
    string.  (The key is ASCII text within the length [int] converts.) *)
Theorem expected_status_is_first_response_key
  (list_of_set : list string -> list string) (spec : specification)
  servers service_dictionary all_service_variables path ops operation op k v rest :
  wf_spec spec = true ->
  parse_openapi_spec list_of_set (Some spec)
  = Ok (true, servers, service_dictionary, all_service_variables) ->
  (path, ops) ∈ spec_paths spec ->
  (operation, op) ∈ ops ->
  op_responses op = Some ((k, v) :: rest) ->
  Str.is_ascii k = true ->
  String.length k <= 4300 ->
  exists operationid tc,
    op_operationId op = Some operationid /\
    Dict.get (operationid, operation, path) service_dictionary = Some tc /\
    expected_status_code tc = match PyInt.int k with
                              | Some z => JNum z
                              | None => JStr ""
                              end /\
    (forall ds, ds <> [] -> Forall (fun d => d < 10) ds -> k = decimal_text ds ->
                expected_status_code tc = JNum (decimal_value ds)) /\
    (has_letter k = true -> expected_status_code tc = JStr "").
Proof.
  intros Hwf Hparse Hpath Hop Hresp _ _.
  apply parse_Ok in Hparse as (st & Hwalk & _ & -> & _).
  assert (Hin : (path, operation, op) ∈ operations spec)
    by (apply elem_of_operations; eauto).
  apply list_elem_of_split in Hin as (l1 & l2 & Hsplit).
  destruct (walker_record spec st l1 l2 path operation op Hwf Hwalk Hsplit)
    as (st1 & operationid & tc & _ & Hid & Hget & Hassign & _).
  rewrite (assign_status_assigns op _ k v rest Hresp) in Hassign.
  injection Hassign as Hcode.
  exists operationid, tc. split; [exact Hid|]. split; [exact Hget|].
  split; [symmetry; exact Hcode|]. split.
  - intros ds Hne Hds ->. rewrite <- Hcode. unfold status_of_key.
    rewrite (int_decimal_text ds Hne Hds). reflexivity.
  - intros Hletter. rewrite <- Hcode. unfold status_of_key.
    rewrite (int_letter k Hletter). reflexivity.
Qed.

Lemma expected_status_is_first_response_key_witness :
  let service_dictionary :=
    match parse_openapi_spec Sample.insertion_order (Some Sample.petstore) with
    | Ok (_, _, d, _) => d
    | Raise _ => []
    end in
  (exists tc,
      Dict.get ("addPet", "post", "/pet") service_dictionary = Some tc /\
      expected_status_code tc = JNum 200) /\
  (exists tc,
      Dict.get ("getPetById", "get", "/pet/{petId}") service_dictionary = Some tc /\
      expected_status_code tc = JStr "").
Proof.
  intros service_dictionary. split.
  - destruct (expected_status_is_first_response_key Sample.insertion_order Sample.petstore
                [ {| url := "https://api.example.com/v1/pets" |} ] service_dictionary
                ["id"; "name"; "Status"] "/pet" [("post", Sample.addPet)] "post"
                Sample.addPet "200" JNull [("405", JNull)])
      as (operationid & tc & Hid & Hget & _ & Hdigits & _).
    + vm_compute. reflexivity.
    + vm_compute. reflexivity.
    + apply elem_of_cons. left. reflexivity.
    + apply elem_of_cons. left. reflexivity.
    + reflexivity.
    + reflexivity.
    + cbn. lia.
    + injection Hid as <-. exists tc. split; [exact Hget|].
      apply (Hdigits [2; 0; 0]); [discriminate | repeat constructor | reflexivity].
  - destruct (expected_status_is_first_response_key Sample.insertion_order Sample.petstore
                [ {| url := "https://api.example.com/v1/pets" |} ] service_dictionary
                ["id"; "name"; "Status"] "/pet/{petId}"
                [("get", Sample.getPetById); ("delete", Sample.deletePet)] "get"
                Sample.getPetById "default" JNull [])
      as (operationid & tc & Hid & Hget & _ & _ & Hletter).
    + vm_compute. reflexivity.
    + vm_compute. reflexivity.
    + apply elem_of_cons. right. apply elem_of_cons. left. reflexivity.
    + apply elem_of_cons. left. reflexivity.
    + reflexivity.
    + reflexivity.
    + cbn. lia.
    + injection Hid as <-. exists tc. split; [exact Hget|]. apply Hletter. reflexivity.
Defined.

(** ** C10 *)

(** C10. An operation without a [responses] key does not reset the
    expected status code: its record receives the value computed for the
    most recent earlier operation with (a non-empty) [responses]; and when
    the first operation visited has no [responses], the walker stops with
    the local variable unbound. *)
Theorem status_carries_over_without_responses
  (list_of_set : list string -> list string) :
  (forall spec servers service_dictionary all_service_variables
          l1 path1 operation1 op1 k v rest mid path operation op l2,
      wf_spec spec = true ->
      parse_openapi_spec list_of_set (Some spec)
      = Ok (true, servers, service_dictionary, all_service_variables) ->
      operations spec
      = (l1 ++ (path1, operation1, op1) :: mid ++ (path, operation, op) :: l2)%list ->
      op_responses op1 = Some ((k, v) :: rest) ->
      Forall (fun x => assigns_status (snd x) = false) mid ->
      op_responses op = None ->
      exists operationid tc,
        op_operationId op = Some operationid /\
        Dict.get (operationid, operation, path) service_dictionary = Some tc /\
        expected_status_code tc = status_of_key k)
  /\
  (forall spec path operation op operationid l2,
      operations spec = (path, operation, op) :: l2 ->
      op_operationId op = Some operationid ->
      op_responses op = None ->
      parse_openapi_spec list_of_set (Some spec)
      = Raise (UnboundLocalError "expected_status_code")).
Proof.
  split.
  - intros spec servers sd asv l1 path1 operation1 op1 k v rest mid path operation op l2
      Hwf Hparse Hsplit Hresp1 Hmid Hresp.
    apply parse_Ok in Hparse as (st & Hwalk & _ & -> & _).
    assert (Hsplit' : operations spec
                      = ((l1 ++ (path1, operation1, op1) :: mid)
                           ++ (path, operation, op) :: l2)%list)
      by (rewrite Hsplit, <- app_assoc; reflexivity).
    destruct (walker_record spec st _ l2 path operation op Hwf Hwalk Hsplit')
      as (st1 & operationid & tc & Hbefore & Hid & Hget & Hassign & _).
    exists operationid, tc. repeat split; try assumption.
    apply walk_split in Hbefore as (sta & stb & _ & Hvisit1 & Hmidrun).
    apply visit_Ok in Hvisit1 as (id1 & code1 & _ & Hassign1 & Hcode1 & _).
    rewrite (assign_status_assigns op1 _ k v rest Hresp1) in Hassign1.
    injection Hassign1 as <-.
    rewrite (visits_keep_status mid stb st1 Hmidrun Hmid), Hcode1 in Hassign.
    rewrite assign_status_keeps in Hassign
      by (unfold assigns_status; rewrite Hresp; reflexivity).
    injection Hassign as <-. reflexivity.
  - intros spec path operation op operationid l2 Hops Hid Hresp.
    unfold parse_openapi_spec.
    rewrite walk_paths_visit by (apply operations_entry; rewrite Hops; discriminate).
    rewrite Hops. cbn [foldM].
    rewrite (visit_unbound _ path operation op operationid Hid);
      [reflexivity | reflexivity |].
    unfold assigns_status. rewrite Hresp. reflexivity.
Qed.

Lemma status_carries_over_without_responses_witness :
  (exists operationid tc,
      op_operationId Sample.deletePet = Some operationid /\
      Dict.get (operationid, "delete", "/pet/{petId}")
        (match parse_openapi_spec Sample.insertion_order (Some Sample.petstore) with
         | Ok (_, _, d, _) => d
         | Raise _ => []
         end) = Some tc /\
      expected_status_code tc = status_of_key "default")
  /\ parse_openapi_spec Sample.insertion_order (Some Sample.petstore_unbound)
     = Raise (UnboundLocalError "expected_status_code").
Proof.
  split.
  - eapply (proj1 (status_carries_over_without_responses Sample.insertion_order)
              Sample.petstore _ _ _ [("/pet", "post", Sample.addPet)]
              "/pet/{petId}" "get" Sample.getPetById "default" JNull [] []
              "/pet/{petId}" "delete" Sample.deletePet []).
    + vm_compute. reflexivity.
    + vm_compute. reflexivity.
    + reflexivity.
    + reflexivity.
    + constructor.
    + reflexivity.
  - eapply (proj2 (status_carries_over_without_responses Sample.insertion_order)
              Sample.petstore_unbound "/pet/{petId}" "delete" Sample.deletePet "deletePet").
    + reflexivity.
    + reflexivity.
    + reflexivity.
Defined.

(** ** C4 and C5: a description with an anonymous operation *)

Lemma parse_anonymous (list_of_set : list string -> list string) (spec : specification)
  path ops operation op :
  (path, ops) ∈ spec_paths spec -> (operation, op) ∈ ops -> op_operationId op = None ->
  exists e, parse_openapi_spec list_of_set (Some spec) = Raise e.
Proof.
  intros Hpath Hop Hid.
  destruct (walk_paths_anonymous spec path operation op) as [e He];
    [apply elem_of_operations; eauto | exact Hid |].
  exists e. unfold parse_openapi_spec. rewrite He. reflexivity.
Qed.

Lemma check_and_create_data_directory_log (w : world) (directory_name : string) :
  forall p c, WriteFile p c ∉ snd (check_and_create_data_directory w directory_name).
Proof.
  intros p c. unfold check_and_create_data_directory.
  destruct (negb (path_exists w directory_name)).
  - destruct (mkdir_ok w directory_name); cbn [snd]; intros H.
    + apply list_elem_of_singleton in H. discriminate.
    + inversion H.
  - destruct (negb (isdir w directory_name)); cbn [snd]; intros H; inversion H.
Qed.

(** A run whose walker raises ends with that exception, or earlier with
    [False]; it has written no file. *)
Lemma transform_parse_raises (list_of_set : list string -> list string) (w : world)
  openapi_filename output_filename output_dir add_example_data jira_access_key e :
  parse_openapi_spec list_of_set (resolve w openapi_filename) = Raise e ->
  let run := transform_openapi_to_robot list_of_set w openapi_filename output_filename
               output_dir add_example_data jira_access_key in
  (fst run = Returned false \/ fst run = Raised e) /\
  (forall p c, WriteFile p c ∉ snd run) /\
  (fst (check_and_create_data_directory w output_dir) = true ->
   read_template_files w <> None ->
   check_if_file_exists w openapi_filename = true ->
   fst run = Raised e).
Proof.
  intros Hparse. unfold transform_openapi_to_robot.
  pose proof (check_and_create_data_directory_log w output_dir) as Hlog.
  destruct (check_and_create_data_directory w output_dir) as [ok log].
  cbn [fst snd] in *.
  destruct ok; cbn [negb].
  - destruct (read_template_files w) as [tpl|].
    + destruct (check_if_file_exists w openapi_filename); cbn [negb].
      * rewrite Hparse. cbn [fst snd]. auto.
      * cbn [fst snd]. split; [auto|]. split; [exact Hlog|]. intros; discriminate.
    + cbn [fst snd]. split; [auto|]. split; [exact Hlog|]. intros; congruence.
  - cbn [fst snd]. split; [auto|]. split; [exact Hlog|]. intros; discriminate.
Qed.

(** C4. When the description holds an operation without [operationId],
    the transformation aborts (it returns [False] or ends with an
    exception, never [True]) and writes no file: neither the sheet, nor
    the includes file, nor the script. *)
Theorem anonymous_operation_aborts_without_output
  (list_of_set : list string -> list string) (w : world)
  openapi_filename output_filename output_dir add_example_data jira_access_key
  spec path ops operation op :
  resolve w openapi_filename = Some spec ->
  (path, ops) ∈ spec_paths spec ->
  (operation, op) ∈ ops ->
  op_operationId op = None ->
  let run := transform_openapi_to_robot list_of_set w openapi_filename output_filename
               output_dir add_example_data jira_access_key in
  fst run <> Returned true /\
  (fst run = Returned false \/ exists e, fst run = Raised e) /\
  forall p c, WriteFile p c ∉ snd run.
Proof.
  intros Hresolve Hpath Hop Hid.
  destruct (parse_anonymous list_of_set spec path ops operation op Hpath Hop Hid) as [e He].
  rewrite <- Hresolve in He.
  destruct (transform_parse_raises list_of_set w openapi_filename output_filename
              output_dir add_example_data jira_access_key e He) as (Hout & Hlog & _).
  cbn zeta. split; [|split].
  - destruct Hout as [-> | ->]; discriminate.
  - destruct Hout as [-> | ->]; eauto.
  - exact Hlog.
Qed.

Lemma anonymous_operation_aborts_without_output_witness :
  let run := transform_openapi_to_robot Sample.insertion_order
               (Sample.make_world Sample.petstore_anonymous [] [])
               "petstore.json" "export" "output" false None in
  fst run <> Returned true /\
  (fst run = Returned false \/ exists e, fst run = Raised e) /\
  forall p c, WriteFile p c ∉ snd run.
Proof.
  eapply (anonymous_operation_aborts_without_output Sample.insertion_order
            (Sample.make_world Sample.petstore_anonymous [] [])
            "petstore.json" "export" "output" false None
            Sample.petstore_anonymous "/pet" _ "get" Sample.anonymous).
  - reflexivity.
  - apply elem_of_cons. left. reflexivity.
  - apply elem_of_cons. right. apply elem_of_cons. left. reflexivity.
  - reflexivity.
Defined.

(** C5, as the code has it.  The walker returns the success indicator
    [False] when, and only when, the description cannot be loaded.  An
    operation without [operationId] is signalled by an exception
    ([ValueError] at that operation) that leaves [parse_openapi_spec], and
    [transform_openapi_to_robot], which has no handler, ends with it. *)
Theorem walker_failure_signals (list_of_set : list string -> list string) :
  parse_openapi_spec list_of_set None = Ok (false, [], [], [])
  /\
  (forall spec r,
      parse_openapi_spec list_of_set (Some spec) = Ok r -> fst (fst (fst r)) = true)
  /\
  (forall path st operation op,
      op_operationId op = None ->
      walk_operation path st (operation, op)
      = Raise (ValueError "No operationId present in OpenAPI file, cannot continue"))
  /\
  (forall spec path ops operation op,
      (path, ops) ∈ spec_paths spec ->
      (operation, op) ∈ ops ->
      op_operationId op = None ->
      exists e,
        parse_openapi_spec list_of_set (Some spec) = Raise e /\
        forall w openapi_filename output_filename output_dir add_example_data
               jira_access_key,
          resolve w openapi_filename = Some spec ->
          fst (check_and_create_data_directory w output_dir) = true ->
          read_template_files w <> None ->
          check_if_file_exists w openapi_filename = true ->
          fst (transform_openapi_to_robot list_of_set w openapi_filename
                 output_filename output_dir add_example_data jira_access_key)
          = Raised e).
Proof.
  split; [reflexivity|]. split; [|split].
  - intros spec [[[success servers] sd] asv] H.
    apply parse_Ok in H as (_ & _ & -> & _). reflexivity.
  - intros path st operation op Hid.
    apply (visit_no_operationId st path operation op Hid).
  - intros spec path ops operation op Hpath Hop Hid.
    destruct (parse_anonymous list_of_set spec path ops operation op Hpath Hop Hid)
      as [e He].
    exists e. split; [exact He|].
    intros w openapi_filename output_filename output_dir add_example_data
      jira_access_key Hresolve Hdir Htpl Hfile.
    rewrite <- Hresolve in He.
    apply (transform_parse_raises list_of_set w openapi_filename output_filename
             output_dir add_example_data jira_access_key e He); assumption.
Qed.

Lemma walker_failure_signals_witness :
  walk_operation "/pet" 
    {| wk_service_dictionary := []; wk_varset := []; wk_expected_status_code := None |}
    ("get", Sample.anonymous)
  = Raise (ValueError "No operationId present in OpenAPI file, cannot continue")
  /\
  exists e,
    parse_openapi_spec Sample.insertion_order (Some Sample.petstore_anonymous) = Raise e /\
    fst (transform_openapi_to_robot Sample.insertion_order
           (Sample.make_world Sample.petstore_anonymous [] [])
           "petstore.json" "export" "output" false None)
    = Raised e.
Proof.
  pose proof (walker_failure_signals Sample.insertion_order) as (_ & _ & Hstep & Hrun).
  split.
  - apply Hstep. reflexivity.
  - destruct (Hrun Sample.petstore_anonymous "/pet"
                [("post", Sample.addPet); ("get", Sample.anonymous)]
                "get" Sample.anonymous) as [e [He Hall]].
    + apply elem_of_cons. left. reflexivity.
    + apply elem_of_cons. right. apply elem_of_cons. left. reflexivity.
    + reflexivity.
    + exists e. split; [exact He|].
      apply Hall; [reflexivity | reflexivity | vm_compute; discriminate | reflexivity].
Defined.

(** C5 as stated fails: on a description with an anonymous operation the
    walker hands no success indicator to its caller; the exception leaves
    the walker and the driver. *)
Lemma walker_raises_past_its_boundary :
  parse_openapi_spec Sample.insertion_order (Some Sample.petstore_anonymous)
  = Raise (ValueError "No operationId present in OpenAPI file, cannot continue")
  /\
  (forall r, parse_openapi_spec Sample.insertion_order (Some Sample.petstore_anonymous)
             <> Ok r)
  /\
  fst (transform_openapi_to_robot Sample.insertion_order
         (Sample.make_world Sample.petstore_anonymous [] [])
         "petstore.json" "export" "output" false None)
  = Raised (ValueError "No operationId present in OpenAPI file, cannot continue").
Proof.
  split; [vm_compute; reflexivity|]. split; [|vm_compute; reflexivity].
  intros r H. vm_compute in H. discriminate.
Qed.

(** ** C2: the result of PASS 6 *)

(** C2 at a run in which only the script cannot be opened for writing:
    [write_robot_framework_test_case_file] reports [False], the script is
    not among the files written, and the driver still returns [True]. *)
Lemma unwritable_script_reported_as_success :
  let w := Sample.make_world Sample.petstore ["output/export.robot"] [] in
  let run := transform_openapi_to_robot Sample.insertion_order w
               "petstore.json" "export" "output" false None in
  (forall all_service_variables test_cases header footer keyword_body keyword_no_body,
      write_robot_framework_test_case_file w all_service_variables test_cases
        "output/export.robot" "petstore.json" header footer keyword_body keyword_no_body
      = (false, []))
  /\ fst run = Returned true
  /\ Sample.written (snd run) = ["output/export.xlsx"; "output/includes.resource"].
Proof.
  split; [|split].
  - intros. reflexivity.
  - vm_compute. reflexivity.
  - vm_compute. reflexivity.
Qed.

(** ** C9: the ticket of a test case and its tags *)

(** The answer to the [i]-th call of [requests.post]. *)
Lemma post_nth (answers : list (option response)) :
  post answers = (nth 0 answers None, tl answers).
Proof. destruct answers; reflexivity. Qed.

Lemma nth_tl {A : Type} (i : nat) (l : list A) (d : A) :
  nth i (tl l) d = nth (S i) l d.
Proof. destruct l; [destruct i|]; reflexivity. Qed.

(** An append to one list object shows in that list and in no other. *)
Lemma tag_list_append (lists : tag_lists) (ref ref' : nat) (x : string) :
  tag_list (list_append ref x lists) ref'
  = (tag_list lists ref' ++ if Nat.eqb ref ref' then [x] else [])%list.
Proof.
  unfold list_append, tag_list. destruct (Nat.eqb_spec ref ref') as [->|Hne].
  - rewrite lookup_insert_eq. reflexivity.
  - rewrite lookup_insert_ne by exact Hne. rewrite app_nil_r. reflexivity.
Qed.

Lemma ticket_of_answer_Some (answer : option response) (jira_ticket_id : string) :
  ticket_of_answer answer = Some jira_ticket_id <->
  create_jira_item answer 201 true = Ok (true, Some jira_ticket_id).
Proof.
  unfold ticket_of_answer.
  destruct (create_jira_item answer 201 true) as [[[|] [id|]]|e];
    split; intros H; try discriminate; congruence.
Qed.

(** One round of the loop of [create_jira_tickets] that completes: it
    sends one request and takes one answer; when the answer carries a
    ticket, the test case holds a list and the ticket is appended to that
    list object. *)
Lemma create_test_ticket_state (w : world) (template : string) (st st' : mirror) key tc :
  create_test_ticket w template st (key, tc) = Ok st' ->
  net st' = tl (net st) /\
  (exists body, sent st' = (sent st ++ [HttpPost jira_issue_url body])%list) /\
  match ticket_of_answer (nth 0 (net st) None) with
  | Some jira_ticket_id =>
      jira_test_tickets st' = (jira_test_tickets st ++ [jira_ticket_id])%list /\
      exists ref, tags tc = TagsList ref /\
                  store st' = list_append ref jira_ticket_id (store st)
  | None => jira_test_tickets st' = jira_test_tickets st /\ store st' = store st
  end.
Proof.
  unfold create_test_ticket, ticket_of_answer. destruct key as [[name operation] endpoint].
  destruct (negb (json_loads_ok w _)); [discriminate|].
  rewrite post_nth.
  destruct (create_jira_item (nth 0 (net st) None) 201 true) as [[[|] [ticket|]]|e];
    cbn [bind]; try discriminate.
  - destruct (tags tc) as [s|ref] eqn:Htags; cbn [append_tag bind]; [discriminate|].
    intros [= <-]. cbn [net sent jira_test_tickets store]. eauto 10.
  - intros [= <-]. cbn [net sent jira_test_tickets store]. eauto 10.
  - intros [= <-]. cbn [net sent jira_test_tickets store]. eauto 10.
  - intros [= <-]. cbn [net sent jira_test_tickets store]. eauto 10.
Qed.

Lemma omap_seq_shift {A : Type} (f : nat -> option A) (start n : nat) :
  omap f (seq (S start) n) = omap (fun i => f (S i)) (seq start n).
Proof.
  revert start. induction n as [|n IH]; intros start; [reflexivity|].
  cbn [seq omap list_omap]. rewrite <- IH. reflexivity.
Qed.

Lemma tickets_of_list_shift (answers : list (option response)) (first : nat)
  (test_cases : service_dict) (ref : nat) :
  tickets_of_list (tl answers) first test_cases ref
  = tickets_of_list answers (S first) test_cases ref.
Proof.
  revert first. induction test_cases as [|[key tc] test_cases IH]; intros first;
    [reflexivity|].
  cbn [tickets_of_list]. rewrite nth_tl, IH. reflexivity.
Qed.

Lemma tickets_of_list_app (answers : list (option response)) (first : nat)
  (l1 l2 : service_dict) (ref : nat) :
  tickets_of_list answers first (l1 ++ l2)%list ref
  = (tickets_of_list answers first l1 ref
       ++ tickets_of_list answers (first + length l1) l2 ref)%list.
Proof.
  revert first. induction l1 as [|[key tc] l1 IH]; intros first.
  - cbn [app length tickets_of_list]. rewrite Nat.add_0_r. reflexivity.
  - cbn [app length tickets_of_list]. rewrite IH, <- app_assoc.
    replace (S first + length l1) with (first + S (length l1)) by lia. reflexivity.
Qed.

Lemma tickets_of_list_other (answers : list (option response)) (first : nat)
  (test_cases : service_dict) (ref : nat) :
  Forall (fun entry => holds_list ref (snd entry) = false) test_cases ->
  tickets_of_list answers first test_cases ref = [].
Proof.
  intros Hall. revert first. induction Hall as [|[key tc] test_cases Htc _ IH]; intros first;
    [reflexivity|].
  cbn [tickets_of_list]. cbn [snd] in Htc. rewrite Htc, IH.
  destruct (ticket_of_answer _); reflexivity.
Qed.

(** The tickets of a list, around the test case at position [i]. *)
Lemma tickets_of_list_at (answers : list (option response)) (test_cases : service_dict)
  (i : nat) (key : service_key) (tc : test_case) (ref : nat) (jira_ticket_id : string) :
  test_cases !! i = Some (key, tc) ->
  tags tc = TagsList ref ->
  ticket_of_answer (nth i answers None) = Some jira_ticket_id ->
  tickets_of_list answers 0 test_cases ref
  = (tickets_of_list answers 0 (take i test_cases) ref
       ++ jira_ticket_id :: tickets_of_list answers (S i) (drop (S i) test_cases) ref)%list.
Proof.
  intros Hi Htags Hanswer.
  assert (Hlen : length (take i test_cases) = i).
  { apply length_take_le. apply lookup_lt_Some in Hi. lia. }
  rewrite <- (take_drop_middle test_cases i (key, tc) Hi) at 1.
  rewrite tickets_of_list_app, Hlen. cbn [tickets_of_list Nat.add].
  rewrite Hanswer. unfold holds_list. rewrite Htags, Nat.eqb_refl. reflexivity.
Qed.

(** The tickets of a list that one test case alone holds. *)
Lemma tickets_of_list_alone (answers : list (option response)) (test_cases : service_dict)
  (i : nat) (key : service_key) (tc : test_case) (ref : nat) (jira_ticket_id : string) :
  test_cases !! i = Some (key, tc) ->
  tags tc = TagsList ref ->
  ticket_of_answer (nth i answers None) = Some jira_ticket_id ->
  (forall j key' tc', j <> i -> test_cases !! j = Some (key', tc') ->
                      tags tc' <> TagsList ref) ->
  tickets_of_list answers 0 test_cases ref = [jira_ticket_id].
Proof.
  intros Hi Htags Hanswer Halone.
  rewrite (tickets_of_list_at _ _ _ _ _ _ _ Hi Htags Hanswer).
  assert (Hother : forall j key' tc',
             j <> i -> test_cases !! j = Some (key', tc') -> holds_list ref tc' = false).
  { intros j key' tc' Hj Hlookup. specialize (Halone j key' tc' Hj Hlookup).
    unfold holds_list. destruct (tags tc') as [s|ref']; [reflexivity|].
    destruct (Nat.eqb_spec ref' ref) as [->|]; [contradiction Halone|]; reflexivity. }
  rewrite !tickets_of_list_other; [reflexivity | |].
  - apply Forall_forall. intros [key' tc'] Hin.
    apply list_elem_of_lookup in Hin as [j Hj].
    rewrite lookup_drop in Hj. eapply (Hother (S i + j)); [lia | exact Hj].
  - apply Forall_forall. intros [key' tc'] Hin.
    apply list_elem_of_lookup in Hin as [j Hj].
    apply lookup_take_Some in Hj as [Hj Hlt]. eapply (Hother j); [lia | exact Hj].
Qed.

(** The loop of [create_jira_tickets], when it completes: the answers it
    took, the tickets it created, what it appended to each list, and the
    requests it sent. *)
Lemma create_test_tickets_state (w : world) (template : string)
  (test_cases : service_dict) (st st' : mirror) :
  foldM (create_test_ticket w template) test_cases st = Ok st' ->
  (forall k, nth k (net st') None = nth (length test_cases + k) (net st) None) /\
  jira_test_tickets st'
  = (jira_test_tickets st ++ created_tickets (net st) (length test_cases))%list /\
  (forall ref, tag_list (store st') ref
               = (tag_list (store st) ref
                    ++ tickets_of_list (net st) 0 test_cases ref)%list) /\
  (forall i key tc s,
      test_cases !! i = Some (key, tc) -> tags tc = TagsStr s ->
      ticket_of_answer (nth i (net st) None) = None) /\
  exists posts,
    sent st' = (sent st ++ posts)%list /\
    length posts = length test_cases /\
    Forall (fun e => exists body, e = HttpPost jira_issue_url body) posts.
Proof.
  revert st. induction test_cases as [|[key tc] test_cases IH]; intros st Hrun.
  - injection Hrun as <-. cbn [length created_tickets seq omap list_omap tickets_of_list].
    rewrite app_nil_r. split; [reflexivity|]. split; [reflexivity|].
    split; [intros ref; rewrite app_nil_r; reflexivity|].
    split; [intros i key tc s Hi; inversion Hi|].
    exists []. rewrite app_nil_r. repeat split. constructor.
  - cbn [foldM] in Hrun. apply bind_Ok in Hrun as [st1 [Hstep Hrun]].
    apply create_test_ticket_state in Hstep as (Hnet & [body Hsent] & Hticket).
    destruct (IH st1 Hrun)
      as (Hnth & Htickets' & Hlists & Huntagged & posts & Hsent' & Hposts & Hall).
    split; [|split; [|split; [|split]]].
    + intros k. rewrite Hnth, Hnet, nth_tl. cbn [length]. f_equal.
    + rewrite Htickets'. unfold created_tickets. cbn [length seq omap list_omap].
      rewrite omap_seq_shift. rewrite Hnet.
      assert (Hshift : omap (fun i => ticket_of_answer (nth i (tl (net st)) None))
                         (seq 0 (length test_cases))
                       = omap (fun i => ticket_of_answer (nth (S i) (net st) None))
                           (seq 0 (length test_cases))).
      { apply list_omap_ext.
        apply Forall2_same_length_lookup. split; [reflexivity|].
        intros i x y Hx Hy. rewrite Hx in Hy. injection Hy as <-.
        rewrite nth_tl. reflexivity. }
      rewrite Hshift.
      destruct (ticket_of_answer (nth 0 (net st) None)) as [id|].
      * destruct Hticket as [-> _]. rewrite <- app_assoc. reflexivity.
      * destruct Hticket as [-> _]. reflexivity.
    + intros ref. rewrite Hlists, Hnet, tickets_of_list_shift. cbn [tickets_of_list].
      destruct (ticket_of_answer (nth 0 (net st) None)) as [id|].
      * destruct Hticket as (_ & ref' & Htags & ->). rewrite tag_list_append.
        unfold holds_list. rewrite Htags, <- app_assoc. reflexivity.
      * destruct Hticket as [_ ->]. reflexivity.
    + intros [|i] key' tc' s Hi Htags.
      * injection Hi as <- <-.
        destruct (ticket_of_answer (nth 0 (net st) None)) as [id|]; [|reflexivity].
        destruct Hticket as (_ & ref & Href & _). congruence.
      * cbn in Hi. rewrite <- nth_tl, <- Hnet. eapply Huntagged; eassumption.
    + exists (HttpPost jira_issue_url body :: posts).
      rewrite Hsent', Hsent, <- app_assoc. cbn [length]. repeat split; [lia|].
      constructor; [eauto | exact Hall].
Qed.





(** ** Strings *)

Lemma append_assoc (a b c : string) : (a ++ b) ++ c = a ++ (b ++ c).
Proof.
  induction a as [|x a IH]; [reflexivity|].
  change (String x ((a ++ b) ++ c) = String x (a ++ (b ++ c))). f_equal. exact IH.
Qed.

Lemma append_nil_r (a : string) : a ++ "" = a.
Proof.
  induction a as [|x a IH]; [reflexivity|].
  change (String x (a ++ "") = String x a). f_equal. exact IH.
Qed.

Lemma has_char_cons (c x : ascii) (s : string) :
  has_char c (String x s) = false -> Ascii.eqb c x = false /\ has_char c s = false.
Proof. simpl. intros H. apply orb_false_iff in H. exact H. Qed.

(** *** Substitution in a template *)

Lemma prefix_length (old s : string) :
  String.prefix old s = true -> String.length old <= String.length s.
Proof.
  revert s. induction old as [|o old IH]; intros s H; [cbn; lia|].
  destruct s as [|x s]; [discriminate|]. cbn in H.
  destruct (ascii_dec o x); [|discriminate]. apply IH in H. cbn. lia.
Qed.

(** A character that does not occur in [old] ends every attempt to read
    [old]. *)
Lemma prefix_stops (old x y : string) (c : ascii) :
  has_char c old = false ->
  String.prefix old (x ++ String c y) = String.prefix old x.
Proof.
  revert x. induction old as [|o old IH]; intros x Hc.
  - destruct x; reflexivity.
  - apply has_char_cons in Hc as [Ho Hc]. destruct x as [|b x].
    + change ("" ++ String c y) with (String c y). cbn.
      destruct (ascii_dec o c) as [->|]; [|reflexivity].
      rewrite Ascii.eqb_refl in Ho. discriminate.
    + change (String b x ++ String c y) with (String b (x ++ String c y)). cbn.
      destruct (ascii_dec o b); [apply IH; exact Hc | reflexivity].
Qed.

Lemma prefix_app (old x y : string) :
  String.prefix old x = true -> String.prefix old (x ++ y) = true.
Proof.
  revert x. induction old as [|o old IH]; intros x H.
  - destruct (x ++ y); reflexivity.
  - destruct x as [|b x]; [discriminate|].
    change (String b x ++ y) with (String b (x ++ y)). cbn in *.
    destruct (ascii_dec o b); [apply IH; exact H | discriminate].
Qed.

Lemma prefix_of_longer (p q s : string) :
  String.prefix (p ++ q) s = true -> String.prefix p s = true.
Proof.
  revert s. induction p as [|o p IH]; intros s H.
  - destruct s; reflexivity.
  - destruct s as [|b s]; [discriminate|].
    change (String o p ++ q) with (String o (p ++ q)) in H. cbn in *.
    destruct (ascii_dec o b); [apply IH; exact H | discriminate].
Qed.

Lemma contains_cons (old : string) (x : ascii) (s : string) :
  Str.contains old (String x s) = String.prefix old (String x s) || Str.contains old s.
Proof. reflexivity. Qed.

Lemma contains_app_l (old x y : string) :
  Str.contains old (x ++ y) = false -> Str.contains old x = false.
Proof.
  induction x as [|b x IH]; intros H.
  - change ("" ++ y) with y in H. destruct old as [|o old]; [|reflexivity].
    destruct y; discriminate.
  - change (String b x ++ y) with (String b (x ++ y)) in H.
    rewrite contains_cons in *. apply orb_false_iff in H as [Hp H].
    rewrite (IH H), orb_false_r.
    destruct (String.prefix old (String b x)) eqn:Hp'; [|reflexivity].
    apply (prefix_app _ _ y) in Hp'.
    change (String b x ++ y) with (String b (x ++ y)) in Hp'. congruence.
Qed.

Lemma contains_of_longer (p q s : string) :
  Str.contains p s = false -> Str.contains (p ++ q) s = false.
Proof.
  induction s as [|b s IH]; intros H.
  - destruct p as [|o p]; [discriminate | reflexivity].
  - rewrite contains_cons in *. apply orb_false_iff in H as [Hp H].
    rewrite (IH H), orb_false_r.
    destruct (String.prefix (p ++ q) (String b s)) eqn:Hp'; [|reflexivity].
    apply prefix_of_longer in Hp'. congruence.
Qed.

(** Where [old] does not occur nothing is replaced. *)
Lemma replace_absent (o : ascii) (old new s : string) :
  Str.contains (String o old) s = false ->
  Str.replace_from (String o old) new s 0 = s.
Proof.
  induction s as [|x s IH]; intros H; [reflexivity|].
  rewrite contains_cons in H. apply orb_false_iff in H as [Hp H].
  cbn [Str.replace_from]. rewrite Hp, (IH H). reflexivity.
Qed.

(** The scan of a text up to a character that does not occur in [old]
    does not look beyond it. *)
Lemma replace_up_to (old new a y : string) (c : ascii) (k : nat) :
  has_char c old = false ->
  k <= String.length a ->
  Str.replace_from old new (a ++ String c y) k
  = Str.replace_from old new a k ++ Str.replace_from old new (String c y) 0.
Proof.
  intros Hc. revert k. induction a as [|x a IH]; intros k Hk.
  - cbn in Hk. replace k with 0 by lia. reflexivity.
  - change (String x a ++ String c y) with (String x (a ++ String c y)).
    cbn [Str.replace_from]. destruct k as [|k].
    + change (String x (a ++ String c y)) with (String x a ++ String c y).
      rewrite (prefix_stops old (String x a) y c Hc).
      destruct (String.prefix old (String x a)) eqn:Hp.
      * apply prefix_length in Hp. cbn [String.length] in Hp.
        rewrite IH by lia. rewrite append_assoc. reflexivity.
      * rewrite IH by lia. reflexivity.
    + cbn [String.length] in Hk. apply IH. lia.
Qed.

(** A block that starts and ends with characters foreign to [old], and
    in which [old] does not occur, passes a substitution of [old]
    unchanged, whatever stands around it. *)
Lemma replace_frame (o : ascii) (old new a m b : string) (c1 c2 : ascii) :
  has_char c1 (String o old) = false ->
  has_char c2 (String o old) = false ->
  Str.contains (String o old) m = false ->
  Str.replace (String o old) new (a ++ String c1 (m ++ String c2 b))
  = Str.replace (String o old) new a
    ++ String c1 (m ++ String c2 (Str.replace (String o old) new b)).
Proof.
  intros Hc1 Hc2 Hm. unfold Str.replace.
  assert (Hstep : forall c y,
             has_char c (String o old) = false ->
             Str.replace_from (String o old) new (String c y) 0
             = String c (Str.replace_from (String o old) new y 0)).
  { intros c y Hc. cbn [Str.replace_from].
    replace (String.prefix (String o old) (String c y)) with false; [reflexivity|].
    symmetry. cbn. destruct (ascii_dec o c) as [->|]; [|reflexivity].
    apply has_char_cons in Hc as [Hc _]. rewrite Ascii.eqb_refl in Hc. discriminate. }
  rewrite (replace_up_to _ _ a _ c1 0 Hc1) by lia. rewrite (Hstep _ _ Hc1).
  rewrite (replace_up_to _ _ m _ c2 0 Hc2) by lia. rewrite (Hstep _ _ Hc2).
  rewrite (replace_absent _ _ _ _ Hm). reflexivity.
Qed.

(** Where [old] occurs, the text after the substitution holds [new]. *)
Lemma replace_present (o : ascii) (old new s : string) :
  Str.contains (String o old) s = true ->
  exists a b, Str.replace (String o old) new s = a ++ new ++ b.
Proof.
  unfold Str.replace. induction s as [|x s IH]; intros H; [discriminate|].
  rewrite contains_cons in H. cbn [Str.replace_from].
  destruct (String.prefix (String o old) (String x s)).
  - exists "". eexists. reflexivity.
  - destruct (IH H) as (a & b & Hab). exists (String x a), b. rewrite Hab. reflexivity.
Qed.

(** ** C3: the base URL of the includes file *)

(** The equations of the matcher. *)
Section MatcherEquations.

Import Re.

Lemma re_match_nil (s : string) (cap : capture) :
  re_match s [] cap = Some (cap, s).
Proof. destruct s; reflexivity. Qed.

Lemma re_match_open (s : string) (p : list item) (cap : capture) :
  re_match s (GroupOpen :: p) cap = re_match s p (InGroup "").
Proof. destruct s; reflexivity. Qed.

Lemma re_match_close (s : string) (p : list item) (cap : capture) :
  re_match s (GroupClose :: p) cap = re_match s p (close cap).
Proof. destruct s; reflexivity. Qed.

Lemma re_match_chr (c c' : ascii) (s : string) (p : list item) (cap : capture) :
  re_match (String c' s) (Chr c :: p) cap
  = if Ascii.eqb c c' then re_match s p (push c' cap) else None.
Proof. reflexivity. Qed.

Lemma re_match_chr_end (c : ascii) (p : list item) (cap : capture) :
  re_match "" (Chr c :: p) cap = None.
Proof. reflexivity. Qed.

Lemma re_match_star (c : ascii) (s : string) (p : list item) (cap : capture) :
  re_match (String c s) (DotStar :: p) cap
  = if is_newline c then re_match (String c s) p cap
    else match re_match s (DotStar :: p) (push c cap) with
         | Some r => Some r
         | None => re_match (String c s) p cap
         end.
Proof. reflexivity. Qed.

Lemma re_match_star_end (p : list item) (cap : capture) :
  re_match "" (DotStar :: p) cap = re_match "" p cap.
Proof. reflexivity. Qed.

Lemma re_match_lazy (c : ascii) (s : string) (p : list item) (cap : capture) :
  re_match (String c s) (DotStarLazy :: p) cap
  = match re_match (String c s) p cap with
    | Some r => Some r
    | None =>
        if is_newline c then None
        else re_match s (DotStarLazy :: p) (push c cap)
    end.
Proof. reflexivity. Qed.

Lemma re_match_lazy_end (p : list item) (cap : capture) :
  re_match "" (DotStarLazy :: p) cap = re_match "" p cap.
Proof. cbn. destruct p as [|[] p]; try reflexivity; cbn;
  match goal with |- match ?x with _ => _ end = _ => destruct x; reflexivity end.
Qed.

Lemma not_newline (c : ascii) : Ascii.eqb newline c = false -> is_newline c = false.
Proof. unfold is_newline. rewrite Ascii.eqb_sym. auto. Qed.

End MatcherEquations.

Section BaseUrlRegex.

Import Re.

(** The last run of the group takes the rest of the line. *)
Lemma last_run_takes_all (s acc : string) :
  has_char newline s = false ->
  re_match s last_run (InGroup acc) = Some (Group (acc ++ s), "").
Proof.
  revert acc. induction s as [|c s IH]; intros acc Hnl.
  - unfold last_run. rewrite re_match_star_end, re_match_close, re_match_nil.
    rewrite append_nil_r. reflexivity.
  - apply has_char_cons in Hnl as [Hc Hnl].
    unfold last_run. rewrite re_match_star, (not_newline _ Hc).
    fold last_run. cbn [push]. rewrite (IH _ Hnl). unfold Str.of_ascii.
    rewrite append_assoc. reflexivity.
Qed.

(** Without a slash ahead the second segment cannot be closed. *)
Lemma second_segment_needs_slash (s : string) (cap : capture) :
  has_char "/" s = false -> re_match s second_segment cap = None.
Proof.
  revert cap. induction s as [|c s IH]; intros cap Hs.
  - reflexivity.
  - apply has_char_cons in Hs as [Hc Hs].
    unfold second_segment. rewrite re_match_star. fold second_segment.
    rewrite (IH _ Hs), re_match_chr, Hc.
    destruct (is_newline c); reflexivity.
Qed.

Lemma second_segment_match (seg1 seg2 acc : string) :
  has_char "/" seg1 = false -> has_char newline seg1 = false ->
  has_char "/" seg2 = false -> has_char newline seg2 = false ->
  re_match (seg1 ++ "/" ++ seg2) second_segment (InGroup acc)
  = Some (Group (acc ++ seg1 ++ "/" ++ seg2), "").
Proof.
  intros Hs1 Hn1 Hs2 Hn2. revert acc Hs1 Hn1.
  induction seg1 as [|c seg1 IH]; intros acc Hs1 Hn1.
  - change ("" ++ "/" ++ seg2) with (String "/" seg2).
    unfold second_segment. rewrite re_match_star. fold second_segment.
    rewrite (second_segment_needs_slash _ _ Hs2), re_match_chr.
    change (is_newline "/") with false. change (Ascii.eqb "/" "/") with true.
    cbn [push]. fold last_run. rewrite (last_run_takes_all _ _ Hn2).
    unfold Str.of_ascii. rewrite append_assoc. reflexivity.
  - apply has_char_cons in Hs1 as [Hc Hs1]. apply has_char_cons in Hn1 as [Hcn Hn1].
    change (String c seg1 ++ "/" ++ seg2) with (String c (seg1 ++ "/" ++ seg2)).
    unfold second_segment. rewrite re_match_star, (not_newline _ Hcn).
    fold second_segment. cbn [push]. rewrite (IH _ Hs1 Hn1). unfold Str.of_ascii.
    rewrite append_assoc. reflexivity.
Qed.

Lemma after_api_needs_slash (s : string) (cap : capture) :
  has_char "/" s = false -> re_match s after_api cap = None.
Proof.
  revert cap. induction s as [|c s IH]; intros cap Hs.
  - reflexivity.
  - apply has_char_cons in Hs as [Hc Hs].
    unfold after_api. rewrite re_match_star. fold after_api.
    rewrite (IH _ Hs), re_match_open, re_match_chr, Hc.
    destruct (is_newline c); reflexivity.
Qed.

(** With at most one slash ahead the group cannot be matched. *)
Lemma after_api_needs_two_slashes (seg1 seg2 : string) (cap : capture) :
  has_char "/" seg1 = false -> has_char "/" seg2 = false ->
  re_match (seg1 ++ "/" ++ seg2) after_api cap = None.
Proof.
  intros Hs1 Hs2. revert cap Hs1. induction seg1 as [|c seg1 IH]; intros cap Hs1.
  - change ("" ++ "/" ++ seg2) with (String "/" seg2).
    unfold after_api. rewrite re_match_star. fold after_api.
    rewrite (after_api_needs_slash _ _ Hs2), re_match_open, re_match_chr.
    change (is_newline "/") with false. change (Ascii.eqb "/" "/") with true.
    fold second_segment. apply second_segment_needs_slash. exact Hs2.
  - apply has_char_cons in Hs1 as [Hc Hs1].
    change (String c seg1 ++ "/" ++ seg2) with (String c (seg1 ++ "/" ++ seg2)).
    unfold after_api. rewrite re_match_star. fold after_api.
    rewrite (IH _ Hs1), re_match_open, re_match_chr, Hc.
    destruct (is_newline c); reflexivity.
Qed.

Lemma after_api_match (host seg1 seg2 : string) (cap : capture) :
  has_char newline host = false ->
  has_char "/" seg1 = false -> has_char newline seg1 = false ->
  has_char "/" seg2 = false -> has_char newline seg2 = false ->
  re_match (host ++ "/" ++ seg1 ++ "/" ++ seg2) after_api cap
  = Some (Group ("/" ++ seg1 ++ "/" ++ seg2), "").
Proof.
  intros Hh Hs1 Hn1 Hs2 Hn2. revert cap Hh.
  induction host as [|c host IH]; intros cap Hh.
  - change ("" ++ "/" ++ seg1 ++ "/" ++ seg2) with (String "/" (seg1 ++ "/" ++ seg2)).
    unfold after_api. rewrite re_match_star. fold after_api.
    rewrite (after_api_needs_two_slashes _ _ _ Hs1 Hs2), re_match_open, re_match_chr.
    change (is_newline "/") with false. change (Ascii.eqb "/" "/") with true.
    cbn [push]. fold second_segment.
    rewrite (second_segment_match _ _ _ Hs1 Hn1 Hs2 Hn2). reflexivity.
  - apply has_char_cons in Hh as [Hc Hh].
    change (String c host ++ "/" ++ seg1 ++ "/" ++ seg2)
      with (String c (host ++ "/" ++ seg1 ++ "/" ++ seg2)).
    unfold after_api. rewrite re_match_star, (not_newline _ Hc). fold after_api.
    rewrite (IH _ Hh). reflexivity.
Qed.

(** A URL of the shape https://api<host>/<seg>/<seg> matches, and the
    group is its trailing /<seg>/<seg>. *)
Lemma search_two_segment_url (host seg1 seg2 : string) :
  has_char newline host = false ->
  has_char "/" seg1 = false -> has_char newline seg1 = false ->
  has_char "/" seg2 = false -> has_char newline seg2 = false ->
  search base_url_regex ("https://api" ++ host ++ "/" ++ seg1 ++ "/" ++ seg2)
  = Some (Group ("/" ++ seg1 ++ "/" ++ seg2), "").
Proof.
  intros Hh Hs1 Hn1 Hs2 Hn2.
  assert (Hmatch :
            re_match ("https://api" ++ host ++ "/" ++ seg1 ++ "/" ++ seg2)
              base_url_regex NoGroup
            = Some (Group ("/" ++ seg1 ++ "/" ++ seg2), "")).
  { change (re_match (host ++ "/" ++ seg1 ++ "/" ++ seg2) after_api NoGroup
            = Some (Group ("/" ++ seg1 ++ "/" ++ seg2), "")).
    apply after_api_match; assumption. }
  change ("https://api" ++ host ++ "/" ++ seg1 ++ "/" ++ seg2)
    with (String "h" ("ttps://api" ++ host ++ "/" ++ seg1 ++ "/" ++ seg2)) in *.
  cbn [search]. rewrite Hmatch. reflexivity.
Qed.

End BaseUrlRegex.

Lemma scan_server_no_match (base_url : string) (srv : server) :
  matches_base_url srv = false -> scan_server base_url srv = base_url.
Proof.
  unfold matches_base_url, scan_server.
  destruct (Re.search base_url_regex (url srv)) as [[matches rest]|];
    [discriminate | reflexivity].
Qed.

Lemma scan_servers_no_match (servers : list server) (base_url : string) :
  Forall (fun srv => matches_base_url srv = false) servers ->
  fold_left scan_server servers base_url = base_url.
Proof.
  revert base_url. induction servers as [|srv servers IH]; intros base_url Hall.
  - reflexivity.
  - apply Forall_cons in Hall as [Hsrv Hall]. cbn [fold_left].
    rewrite (scan_server_no_match _ _ Hsrv). apply IH. exact Hall.
Qed.

(** The sentinel passes the two substitutions that follow the one of the
    base URL. *)
Lemma sentinel_survives (old new a b : string) :
  old = "REPLACE_OPENAPI_FILENAME_REPLACE" \/ old = "REPLACE_DATETIME_CREATION_REPLACE" ->
  Str.replace old new (a ++ base_url_default ++ b)
  = Str.replace old new a ++ base_url_default ++ Str.replace old new b.
Proof.
  intros Hold.
  change (a ++ base_url_default ++ b)
    with (a ++ String "B" ("ASE_URL_NOT_FOUND_AND_NEEDS_TO_BE_SET_MANUALL" ++ String "Y" b)).
  destruct Hold as [-> | ->];
    (erewrite replace_frame; [reflexivity | reflexivity | reflexivity | reflexivity]).
Qed.

(** C3, as the code has it.  The includes renderer substitutes, for the
    base URL token, the group of the last server whose URL matches the
    pattern (for a URL https://api<host>/<seg>/<seg> that group is the
    trailing /<seg>/<seg>); when no server matches it substitutes the
    sentinel BASE_URL_NOT_FOUND_AND_NEEDS_TO_BE_SET_MANUALLY, not an empty
    value, and the includes text then holds that sentinel wherever the
    template has the token. *)
Theorem base_url_of_last_match :
  (forall servers,
      Forall (fun srv => matches_base_url srv = false) servers ->
      find_base_url servers = "BASE_URL_NOT_FOUND_AND_NEEDS_TO_BE_SET_MANUALLY")
  /\
  (forall before srv after matches rest,
      Re.search base_url_regex (url srv) = Some (matches, rest) ->
      Forall (fun srv' => matches_base_url srv' = false) after ->
      find_base_url (before ++ srv :: after)%list = Re.group1 matches)
  /\
  (forall host seg1 seg2,
      has_char newline host = false ->
      has_char "/" seg1 = false -> has_char newline seg1 = false ->
      has_char "/" seg2 = false -> has_char newline seg2 = false ->
      option_map (fun r => Re.group1 (fst r))
        (Re.search base_url_regex ("https://api" ++ host ++ "/" ++ seg1 ++ "/" ++ seg2))
      = Some ("/" ++ seg1 ++ "/" ++ seg2))
  /\
  (forall w servers template_string openapi_filename,
      includes_text w servers template_string openapi_filename
      = Str.replace "REPLACE_DATETIME_CREATION_REPLACE" (now w)
          (Str.replace "REPLACE_OPENAPI_FILENAME_REPLACE" openapi_filename
             (Str.replace "REPLACE_ROBOT_BASE_URL_REPLACE" (find_base_url servers)
                template_string)))
  /\
  (forall w servers template_string openapi_filename,
      Forall (fun srv => matches_base_url srv = false) servers ->
      Str.contains "REPLACE_ROBOT_BASE_URL_REPLACE" template_string = true ->
      exists a b,
        includes_text w servers template_string openapi_filename
        = a ++ "BASE_URL_NOT_FOUND_AND_NEEDS_TO_BE_SET_MANUALLY" ++ b).
Proof.
  assert (Hnone : forall servers,
             Forall (fun srv => matches_base_url srv = false) servers ->
             find_base_url servers = base_url_default).
  { intros servers Hall. unfold find_base_url.
    rewrite (scan_servers_no_match _ _ Hall). reflexivity. }
  split; [exact Hnone|]. split; [|split; [|split]].
  - intros before srv after matches rest Hmatch Hafter. unfold find_base_url.
    rewrite fold_left_app. cbn [fold_left].
    rewrite (scan_servers_no_match _ _ Hafter). unfold scan_server.
    rewrite Hmatch. reflexivity.
  - intros host seg1 seg2 Hh Hs1 Hn1 Hs2 Hn2.
    rewrite (search_two_segment_url host seg1 seg2 Hh Hs1 Hn1 Hs2 Hn2). reflexivity.
  - reflexivity.
  - intros w servers template_string openapi_filename Hall Htoken.
    unfold includes_text. rewrite (Hnone _ Hall).
    destruct (replace_present _ _ base_url_default _ Htoken) as (a & b & ->).
    rewrite !sentinel_survives by auto.
    eexists. eexists. reflexivity.
Qed.

Lemma base_url_of_last_match_witness :
  find_base_url [ {| url := "https://petstore.swagger.io/v2" |} ]
  = "BASE_URL_NOT_FOUND_AND_NEEDS_TO_BE_SET_MANUALLY"
  /\
  find_base_url ([ {| url := "https://api.example.com/v1/pets" |} ]
                   ++ {| url := "https://api.example.org/v2/toys" |}
                   :: [ {| url := "https://petstore.swagger.io/v2" |} ])%list
  = Re.group1 (Re.Group "/v2/toys")
  /\
  option_map (fun r => Re.group1 (fst r))
    (Re.search base_url_regex ("https://api" ++ ".example.org" ++ "/" ++ "v2" ++ "/" ++ "toys"))
  = Some ("/" ++ "v2" ++ "/" ++ "toys")
  /\
  exists a b,
    includes_text (Sample.make_world Sample.petstore [] [])
      [ {| url := "https://petstore.swagger.io/v2" |} ]
      "${BASE_URL}  REPLACE_ROBOT_BASE_URL_REPLACE" "petstore.json"
    = a ++ "BASE_URL_NOT_FOUND_AND_NEEDS_TO_BE_SET_MANUALLY" ++ b.
Proof.
  pose proof base_url_of_last_match as (Hnone & Hlast & Hshape & _ & Htext).
  split; [|split; [|split]].
  - apply Hnone. repeat constructor.
  - apply (Hlast _ _ _ (Re.Group "/v2/toys") "").
    + reflexivity.
    + repeat constructor.
  - apply Hshape; reflexivity.
  - apply Htext.
    + repeat constructor.
    + reflexivity.
Defined.

(** C3 as stated fails when more than one server matches: the first match
    does not decide, a later one replaces it. *)
Lemma base_url_is_not_of_first_match :
  let servers := [ {| url := "https://api.example.com/v1/pets" |};
                   {| url := "https://api.example.org/v2/toys" |} ] in
  base_url_of_first_match servers = "/v1/pets"
  /\ find_base_url servers = "/v2/toys"
  /\ find_base_url servers <> base_url_of_first_match servers
  /\ includes_text (Sample.make_world Sample.petstore [] []) servers
       "${BASE_URL}  REPLACE_ROBOT_BASE_URL_REPLACE" "petstore.json"
     = "${BASE_URL}  /v2/toys".
Proof. vm_compute. repeat split; try reflexivity. discriminate. Qed.

(** ** C7: required and optional cells *)

Lemma cells_write_eq (row col : nat) (v : json) (f : format) (ws : worksheet) :
  cells (write row col v f ws) !! (row, col) = Some {| content := v; fmt := f |}.
Proof. unfold write. cbn [cells]. apply lookup_insert_eq. Qed.

Lemma cells_write_ne (row col row' col' : nat) (v : json) (f : format) (ws : worksheet) :
  (row, col) <> (row', col') ->
  cells (write row col v f ws) !! (row', col') = cells ws !! (row', col').
Proof. intros Hne. unfold write. cbn [cells]. apply lookup_insert_ne. exact Hne. Qed.

Lemma index_Some (x : string) (l : list string) (i : nat) :
  index x l = Some i -> l !! i = Some x.
Proof.
  revert i. induction l as [|y l IH]; intros i; cbn [index]; [discriminate|].
  destruct (decide (x = y)) as [->|Hne].
  - intros [= <-]. reflexivity.
  - destruct (index x l) as [j|]; [|discriminate]. intros [= <-]. cbn. apply IH. reflexivity.
Qed.

(** The names of two properties that land in the same column are equal. *)
Lemma index_inj (x y : string) (l : list string) (i : nat) :
  index x l = Some i -> index y l = Some i -> x = y.
Proof.
  intros Hx Hy. apply index_Some in Hx. apply index_Some in Hy. congruence.
Qed.

Lemma variable_format_spec (req : option (list string)) (prop : string) :
  variable_format req prop
  = if bool_decide (prop ∈ match req with Some l => l | None => [] end)
    then required_variable_cell_format
    else optional_variable_cell_format.
Proof.
  assert (Hnil : bool_decide (prop ∈ @nil string) = false)
    by (apply bool_decide_eq_false_2; intros H; inversion H).
  destruct req as [[|r req]|]; cbn [variable_format].
  - rewrite Hnil. reflexivity.
  - reflexivity.
  - rewrite Hnil. reflexivity.
Qed.

Lemma required_optional_differ :
  required_variable_cell_format <> optional_variable_cell_format.
Proof. discriminate. Qed.

(** One property of a test case: only its own cell of the row changes. *)
Lemma write_property_other_cell (asv : list string) (req : option (list string))
  (add : bool) (row : nat) (ws : worksheet) (prop : string) (pspec : property_spec)
  (row' col' : nat) :
  (forall col, index prop asv = Some col -> (row, col + start_column) <> (row', col')) ->
  cells (write_property asv req add row ws (prop, pspec)) !! (row', col')
  = cells ws !! (row', col').
Proof.
  intros Hother. unfold write_property.
  destruct (index prop asv) as [col|]; [|reflexivity].
  specialize (Hother col eq_refl).
  destruct (prop_enum pspec) as [[|v values]|]; cbn [data_validation cells];
    apply cells_write_ne; exact Hother.
Qed.

Lemma write_property_own_cell (asv : list string) (req : option (list string))
  (add : bool) (row : nat) (ws : worksheet) (prop : string) (pspec : property_spec)
  (col : nat) :
  index prop asv = Some col ->
  exists cl,
    cells (write_property asv req add row ws (prop, pspec)) !! (row, col + start_column)
    = Some cl /\ fmt cl = variable_format req prop.
Proof.
  intros Hcol. unfold write_property. rewrite Hcol.
  eexists. split.
  - destruct (prop_enum pspec) as [[|v values]|]; cbn [data_validation cells];
      apply cells_write_eq.
  - reflexivity.
Qed.

(** The cell of a property after the loop over the properties. *)
Lemma write_properties_cell (asv : list string) (req : option (list string))
  (add : bool) (row : nat) (props : list (string * property_spec)) (ws : worksheet)
  (prop : string) (col : nat) :
  index prop asv = Some col ->
  prop ∈ Dict.keys props \/
  (exists cl, cells ws !! (row, col + start_column) = Some cl /\
              fmt cl = variable_format req prop) ->
  exists cl,
    cells (fold_left (write_property asv req add row) props ws) !! (row, col + start_column)
    = Some cl /\ fmt cl = variable_format req prop.
Proof.
  intros Hcol. revert ws. induction props as [|[p pspec] props IH]; intros ws H.
  - destruct H as [H|H]; [inversion H | exact H].
  - cbn [fold_left]. apply IH.
    destruct (decide (p = prop)) as [->|Hne].
    + right. apply write_property_own_cell. exact Hcol.
    + destruct H as [H|H].
      * left. unfold Dict.keys in *. cbn [List.map fst] in H.
        apply elem_of_cons in H as [H|H]; [congruence | exact H].
      * right. rewrite write_property_other_cell; [exact H|].
        intros col' Hcol' Heq. injection Heq as Heq.
        assert (col' = col) as -> by lia.
        apply Hne. apply (index_inj _ _ _ _ Hcol' Hcol).
Qed.

Lemma write_properties_other_row (asv : list string) (req : option (list string))
  (add : bool) (row : nat) (props : list (string * property_spec)) (ws : worksheet)
  (row' col' : nat) :
  row' <> row ->
  cells (fold_left (write_property asv req add row) props ws) !! (row', col')
  = cells ws !! (row', col').
Proof.
  intros Hne. revert ws. induction props as [|[p pspec] props IH]; intros ws.
  - reflexivity.
  - cbn [fold_left]. rewrite IH. apply write_property_other_cell.
    intros col _ Heq. injection Heq as Heq _. congruence.
Qed.

(** One test case: the next row, and nothing outside its own row. *)
Lemma write_test_case_row (lists : tag_lists)
  (asv : list string) (add : bool) (ws : worksheet) (row : nat)
  (entry : service_key * test_case) :
  snd (write_test_case lists asv add (ws, row) entry) = row + 1.
Proof.
  unfold write_test_case. destruct entry as [[[name operation] endpoint] tc].
  reflexivity.
Qed.

Lemma write_test_case_other_row (lists : tag_lists)
  (asv : list string) (add : bool) (ws : worksheet)
  (row : nat) (entry : service_key * test_case) (row' col' : nat) :
  row' <> row ->
  cells (fst (write_test_case lists asv add (ws, row) entry)) !! (row', col')
  = cells ws !! (row', col').
Proof.
  intros Hne. unfold write_test_case. destruct entry as [[[name operation] endpoint] tc].
  cbn [fst].
  assert (Hhead : forall c v f ws0,
             cells (write row c v f ws0) !! (row', col') = cells ws0 !! (row', col')).
  { intros. apply cells_write_ne. intros Heq. injection Heq as Heq _. congruence. }
  destruct (properties tc) as [[|p props]|].
  - rewrite !Hhead. reflexivity.
  - rewrite write_properties_other_row by exact Hne. rewrite !Hhead. reflexivity.
  - rewrite !Hhead. reflexivity.
Qed.

Lemma write_test_case_cell (lists : tag_lists)
  (asv : list string) (add : bool) (ws : worksheet) (row : nat)
  (key : service_key) (tc : test_case) props prop pspec col :
  properties tc = Some props ->
  (prop, pspec) ∈ props ->
  index prop asv = Some col ->
  exists cl,
    cells (fst (write_test_case lists asv add (ws, row) (key, tc))) !! (row, col + start_column)
    = Some cl /\ fmt cl = variable_format (required tc) prop.
Proof.
  intros Hprops Hin Hcol. unfold write_test_case.
  destruct key as [[name operation] endpoint]. cbn [fst]. rewrite Hprops.
  destruct props as [|p props]; [inversion Hin|].
  apply write_properties_cell; [exact Hcol|]. left.
  unfold Dict.keys. apply list_elem_of_In. apply in_map_iff.
  exists (prop, pspec). split; [reflexivity|]. apply list_elem_of_In. exact Hin.
Qed.

(** The loop over the test cases: the test case at position [i] owns row
    [row + i], and later test cases leave that row alone. *)
Lemma write_test_cases_rows_below (lists : tag_lists) (asv : list string) (add : bool)
  (test_cases : service_dict) (ws : worksheet) (row row' col' : nat) :
  row' < row ->
  cells (fst (fold_left (write_test_case lists asv add) test_cases (ws, row))) !! (row', col')
  = cells ws !! (row', col').
Proof.
  revert ws row. induction test_cases as [|entry test_cases IH]; intros ws row Hlt.
  - reflexivity.
  - cbn [fold_left].
    destruct (write_test_case lists asv add (ws, row) entry) as [ws1 row1] eqn:Hstep.
    assert (row1 = row + 1) as ->
      by (rewrite <- (write_test_case_row lists asv add ws row entry), Hstep; reflexivity).
    rewrite IH by lia.
    replace ws1 with (fst (write_test_case lists asv add (ws, row) entry))
      by (rewrite Hstep; reflexivity).
    apply write_test_case_other_row. lia.
Qed.

Lemma write_test_cases_cell (lists : tag_lists) (asv : list string) (add : bool)
  (test_cases : service_dict) (ws : worksheet) (row i : nat)
  key tc props prop pspec col :
  test_cases !! i = Some (key, tc) ->
  properties tc = Some props ->
  (prop, pspec) ∈ props ->
  index prop asv = Some col ->
  exists cl,
    cells (fst (fold_left (write_test_case lists asv add) test_cases (ws, row)))
      !! (row + i, col + start_column) = Some cl /\
    fmt cl = variable_format (required tc) prop.
Proof.
  intros Hi Hprops Hin Hcol. revert ws row i Hi.
  induction test_cases as [|entry test_cases IH]; intros ws row i Hi.
  - inversion Hi.
  - cbn [fold_left].
    destruct (write_test_case lists asv add (ws, row) entry) as [ws1 row1] eqn:Hstep.
    assert (row1 = row + 1) as ->
      by (rewrite <- (write_test_case_row lists asv add ws row entry), Hstep; reflexivity).
    destruct i as [|i].
    + injection Hi as ->. rewrite write_test_cases_rows_below by lia.
      replace ws1 with (fst (write_test_case lists asv add (ws, row) (key, tc)))
        by (rewrite Hstep; reflexivity).
      replace (row + 0) with row by lia.
      apply (write_test_case_cell lists asv add ws row key tc props prop pspec col);
        assumption.
    + cbn in Hi. replace (row + S i) with (row + 1 + i) by lia. apply IH. exact Hi.
Qed.

(** C7. For every property of every test case rendered into the sheet
    (the property has a column), the cell of the property in the row of
    the test case carries the required format if and only if the name is
    in the [required] list of the test case, and the optional format
    otherwise. *)
Theorem required_cell_iff_required_name (lists : tag_lists) (ws : worksheet)
  (all_service_variables : list string) (test_cases : service_dict)
  (add_example_data : bool) (i : nat) (key : service_key) (tc : test_case)
  (props : list (string * property_spec)) (prop : string) (pspec : property_spec)
  (col : nat) :
  test_cases !! i = Some (key, tc) ->
  properties tc = Some props ->
  (prop, pspec) ∈ props ->
  index prop all_service_variables = Some col ->
  exists cl,
    cells (fst (write_excel_test_case_data lists ws all_service_variables test_cases
                  add_example_data)) !! (1 + i, col + start_column) = Some cl /\
    (fmt cl = required_variable_cell_format <-> prop ∈ required_names tc) /\
    (fmt cl = optional_variable_cell_format <-> prop ∉ required_names tc).
Proof.
  intros Hi Hprops Hin Hcol. unfold write_excel_test_case_data.
  set (ws0 := fill_background _ _ ws).
  destruct (write_test_cases_cell lists all_service_variables add_example_data test_cases
              ws0 1 i key tc props prop pspec col Hi Hprops Hin Hcol)
    as [cl [Hcell Hfmt]].
  destruct (fold_left _ test_cases (ws0, 1)) as [ws1 row1].
  cbn [fst set_column cells] in *. exists cl. split; [exact Hcell|].
  rewrite Hfmt, variable_format_spec. unfold required_names.
  destruct (bool_decide_reflect (prop ∈ match required tc with Some l => l | None => [] end))
    as [Hreq|Hreq].
  - split; split; intros H; try assumption; try reflexivity.
    + discriminate.
    + contradiction.
  - split; split; intros H; try assumption; try reflexivity.
    + discriminate.
    + contradiction.
Qed.

Lemma required_cell_iff_required_name_witness :
  let addPet :=
    {| properties := Some [("name", Sample.text_property);
                           ("Status", Sample.status_property);
                           ("id", Sample.text_property)];
       required := Some ["name"]; example := None;
       tags := TagsList 0; summary := "Add a new pet"; description := "";
       expected_status_code := JNum 200 |} in
  exists cl,
    cells (fst (write_excel_test_case_data Sample.pet_tags empty_worksheet ["id"; "name"; "Status"]
                  [(("addPet", "post", "/pet"), addPet)] false))
      !! (1 + 0, 1 + start_column) = Some cl /\
    (fmt cl = required_variable_cell_format <-> "name" ∈ required_names addPet) /\
    (fmt cl = optional_variable_cell_format <-> "name" ∉ required_names addPet).
Proof.
  intros addPet.
  apply (required_cell_iff_required_name Sample.pet_tags empty_worksheet ["id"; "name"; "Status"]
           [(("addPet", "post", "/pet"), addPet)] false 0 ("addPet", "post", "/pet")
           addPet [("name", Sample.text_property); ("Status", Sample.status_property);
                   ("id", Sample.text_property)]
           "name" Sample.text_property 1).
  - reflexivity.
  - reflexivity.
  - apply elem_of_cons. left. reflexivity.
  - reflexivity.
Defined.

(** ** C1: one order of the variables *)

(** *** The sort *)

Lemma insert_sorted_perm (x : string) (l : list string) :
  Permutation (insert_sorted x l) (x :: l).
Proof.
  induction l as [|y l IH]; cbn [insert_sorted]; [reflexivity|].
  destruct (String.leb (Str.lower x) (Str.lower y)); [reflexivity|].
  rewrite IH. apply perm_swap.
Qed.

Lemma sorted_lower_perm (l : list string) : Permutation (sorted_lower l) l.
Proof.
  induction l as [|x l IH]; [reflexivity|].
  unfold sorted_lower in *. cbn [foldr]. rewrite insert_sorted_perm, IH. reflexivity.
Qed.

Lemma lower_le_total (x y : string) :
  String.leb (Str.lower x) (Str.lower y) = false -> lower_le y x.
Proof.
  intros H. unfold lower_le, String.le.
  destruct (String.leb_total (Str.lower x) (Str.lower y)) as [H'|H'].
  - congruence.
  - rewrite H'. exact I.
Qed.

Lemma lower_le_leb (x y : string) :
  String.leb (Str.lower x) (Str.lower y) = true -> lower_le x y.
Proof. intros H. unfold lower_le, String.le. rewrite H. exact I. Qed.

#[local] Instance lower_le_trans : Transitive lower_le.
Proof. intros x y z Hxy Hyz. unfold lower_le in *. etransitivity; eassumption. Qed.

Lemma insert_sorted_Sorted (x : string) (l : list string) :
  Sorted lower_le l -> Sorted lower_le (insert_sorted x l).
Proof.
  induction l as [|y l IH]; intros Hs; cbn [insert_sorted].
  - repeat constructor.
  - destruct (String.leb (Str.lower x) (Str.lower y)) eqn:Hxy.
    + constructor; [exact Hs|]. constructor. apply lower_le_leb. exact Hxy.
    + apply Sorted_inv in Hs as [Hs Hhd]. constructor; [apply IH; exact Hs|].
      destruct l as [|z l]; cbn [insert_sorted].
      * constructor. apply lower_le_total. exact Hxy.
      * destruct (String.leb (Str.lower x) (Str.lower z)).
        -- constructor. apply lower_le_total. exact Hxy.
        -- constructor. apply HdRel_inv in Hhd. exact Hhd.
Qed.

Lemma sorted_lower_Sorted (l : list string) : StronglySorted lower_le (sorted_lower l).
Proof.
  apply Sorted_StronglySorted; [apply lower_le_trans|].
  induction l as [|x l IH]; [constructor|].
  unfold sorted_lower in *. cbn [foldr]. apply insert_sorted_Sorted. exact IH.
Qed.

(** *** The set of variables *)

Lemma pyset_add_elem (x v : string) (s : list string) :
  v ∈ PySet.add x s <-> v ∈ s \/ v = x.
Proof.
  unfold PySet.add. destruct (bool_decide_reflect (x ∈ s)) as [Hin|Hnin].
  - split; [auto|]. intros [H| ->]; assumption.
  - rewrite elem_of_app, list_elem_of_singleton. reflexivity.
Qed.

Lemma pyset_add_NoDup (x : string) (s : list string) :
  NoDup s -> NoDup (PySet.add x s).
Proof.
  intros Hs. unfold PySet.add. destruct (bool_decide_reflect (x ∈ s)) as [Hin|Hnin].
  - exact Hs.
  - apply NoDup_app. split; [exact Hs|]. split.
    + intros y Hy Hy'. apply list_elem_of_singleton in Hy'. subst. contradiction.
    + apply NoDup_singleton.
Qed.

Lemma pyset_adds (keys : list string) (s : list string) :
  NoDup s ->
  NoDup (fold_left (fun vs prop => PySet.add prop vs) keys s) /\
  forall v, v ∈ fold_left (fun vs prop => PySet.add prop vs) keys s <-> v ∈ s \/ v ∈ keys.
Proof.
  revert s. induction keys as [|k keys IH]; intros s Hs; cbn [fold_left].
  - split; [exact Hs|]. intros v. split; [auto|]. intros [H|H]; [exact H | inversion H].
  - destruct (IH (PySet.add k s) (pyset_add_NoDup k s Hs)) as [Hnd Hel].
    split; [exact Hnd|]. intros v. rewrite Hel, pyset_add_elem, elem_of_cons. tauto.
Qed.

Lemma add_properties_spec (op : operation_object) (s : list string) :
  NoDup s ->
  NoDup (add_properties (snd (fst (request_fields op))) s) /\
  forall v, v ∈ add_properties (snd (fst (request_fields op))) s
            <-> v ∈ s \/ v ∈ property_keys op.
Proof.
  intros Hs. unfold add_properties, property_keys.
  destruct (snd (fst (request_fields op))) as [props|].
  - apply pyset_adds. exact Hs.
  - split; [exact Hs|]. intros v. split; [auto|]. intros [H|H]; [exact H | inversion H].
Qed.

(** The set after the walk: the keys of the properties of the visited
    operations, each once. *)
Lemma visits_varset (l : list (string * string * operation_object)) (st st' : walker) :
  foldM visit l st = Ok st' ->
  NoDup (wk_varset st) ->
  NoDup (wk_varset st') /\
  forall v, v ∈ wk_varset st' <->
            v ∈ wk_varset st \/ exists x, x ∈ l /\ v ∈ property_keys (snd x).
Proof.
  revert st. induction l as [|[[path operation] op] l IH]; intros st Hrun Hnd.
  - injection Hrun as <-. split; [exact Hnd|]. intros v. split; [auto|].
    intros [H|[x [H _]]]; [exact H | inversion H].
  - cbn [foldM] in Hrun. apply bind_Ok in Hrun as [st1 [Hvisit Hrun]].
    apply visit_Ok in Hvisit as (_ & _ & _ & _ & _ & Hvars & _).
    destruct (add_properties_spec op (wk_varset st) Hnd) as [Hnd1 Hel1].
    rewrite <- Hvars in Hnd1, Hel1.
    destruct (IH st1 Hrun Hnd1) as [Hnd' Hel']. split; [exact Hnd'|].
    intros v. rewrite Hel', Hel1. split.
    + intros [[H|H]|[x [Hx H]]].
      * auto.
      * right. exists (path, operation, op). split; [apply elem_of_cons; auto | exact H].
      * right. exists x. split; [apply elem_of_cons; auto | exact H].
    + intros [H|[x [Hx H]]]; [auto|].
      apply elem_of_cons in Hx as [-> | Hx]; [auto | eauto].
Qed.

(** *** The two renderings of the variables *)

Lemma header_loop (all_service_variables : list string) (ws : worksheet) (col : nat) :
  forall i variable,
    all_service_variables !! i = Some variable ->
    cells (fst (fold_left write_header_variable all_service_variables (ws, col)))
      !! (0, col + i)
    = Some {| content := JStr (robot_variable variable);
              fmt := bold_test_variables_cell_format |}.
Proof.
  assert (Hkeep : forall l ws0 col0 c,
             c < col0 ->
             cells (fst (fold_left write_header_variable l (ws0, col0))) !! (0, c)
             = cells ws0 !! (0, c)).
  { induction l as [|v l IH]; intros ws0 col0 c Hlt; [reflexivity|].
    cbn [fold_left write_header_variable]. rewrite IH by lia.
    apply cells_write_ne. intros Heq. injection Heq as Heq. lia. }
  revert ws col. induction all_service_variables as [|v l IH]; intros ws col i variable Hi.
  - inversion Hi.
  - cbn [fold_left write_header_variable]. destruct i as [|i].
    + injection Hi as ->. rewrite Hkeep by lia.
      replace (col + 0) with col by lia. apply cells_write_eq.
    + cbn in Hi. replace (col + S i) with (col + 1 + i) by lia. apply IH. exact Hi.
Qed.

Lemma map_seq_lookup {A : Type} (f : nat -> string) (g : A -> string) (l : list A)
  (start : nat) :
  (forall i x, l !! i = Some x -> f (start + i) = g x) ->
  List.map f (seq start (length l)) = List.map g l.
Proof.
  revert start. induction l as [|x l IH]; intros start H; [reflexivity|].
  cbn [length seq List.map]. f_equal.
  - rewrite <- (H 0 x eq_refl). f_equal. lia.
  - apply IH. intros i y Hi. rewrite <- (H (S i) y Hi). f_equal. lia.
Qed.

(** The header cells from column [start_column] on are the variables, in
    the order of the list. *)
Lemma write_excel_header_columns (ws : worksheet) (all_service_variables : list string) :
  snd (write_excel_header ws all_service_variables)
  = start_column + length all_service_variables /\
  variable_columns (fst (write_excel_header ws all_service_variables))
    (snd (write_excel_header ws all_service_variables))
  = List.map robot_variable all_service_variables.
Proof.
  unfold write_excel_header.
  set (ws6 := write 0 5 _ _ _).
  pose proof (header_loop all_service_variables ws6 start_column) as Hloop.
  destruct (fold_left write_header_variable all_service_variables (ws6, start_column))
    as [ws' col'].
  cbn [fst snd] in *. split; [reflexivity|].
  unfold variable_columns.
  replace (start_column + length all_service_variables - start_column)
    with (length all_service_variables) by lia.
  apply map_seq_lookup. intros i x Hi. unfold cell_text.
  rewrite (Hloop i x Hi). reflexivity.
Qed.

Lemma arguments_loop (l : list string) (acc : string) :
  fold_left (fun my_arguments_string service_var =>
               my_arguments_string ++ "  " ++ robot_variable service_var) l acc
  = acc ++ Str.cat (List.map (fun text => "  " ++ text) (List.map robot_variable l)).
Proof.
  revert acc. induction l as [|v l IH]; intros acc; cbn [fold_left List.map Str.cat].
  - rewrite append_nil_r. reflexivity.
  - rewrite IH, !append_assoc. reflexivity.
Qed.

(** C1. For every parsed description, the variable columns of the sheet
    header (from column 6 on), the variable arguments of the shared
    argument string of the script, and [all_service_variables] are one
    ordered list; and that list is the set of the [properties] keys of all
    operations, without repetition, in ascending order of the lower-cased
    names (the order is stated for ASCII names, for which [Str.lower] is
    [str.lower]). *)
Theorem variable_order_is_shared
  (list_of_set : list string -> list string)
  (list_of_set_perm : forall s, Permutation (list_of_set s) s)
  (spec : specification) servers service_dictionary all_service_variables
  (ws : worksheet) :
  parse_openapi_spec list_of_set (Some spec)
  = Ok (true, servers, service_dictionary, all_service_variables) ->
  let header := write_excel_header ws all_service_variables in
  variable_columns (fst header) (snd header)
  = List.map robot_variable all_service_variables
  /\ arguments_string all_service_variables
     = "${API_CALL}  ${API_OPERATION}  ${EXPECTED_STATUS_CODE}"
       ++ Str.cat (List.map (fun text => "  " ++ text)
                     (variable_columns (fst header) (snd header)))
  /\ (Forall (fun v => Str.is_ascii v = true) all_service_variables ->
      StronglySorted lower_le all_service_variables)
  /\ NoDup all_service_variables
  /\ forall v, v ∈ all_service_variables <->
               exists path operation op,
                 (path, operation, op) ∈ operations spec /\ v ∈ property_keys op.
Proof.
  intros Hparse header.
  destruct (write_excel_header_columns ws all_service_variables) as [_ Hcolumns].
  fold header in Hcolumns.
  apply parse_Ok in Hparse as (st & Hwalk & _ & _ & ->).
  apply walk_paths_Ok in Hwalk as [_ Hwalk].
  destruct (visits_varset _ _ _ Hwalk (NoDup_nil_2 : NoDup (wk_varset
              {| wk_service_dictionary := []; wk_varset := [];
                 wk_expected_status_code := None |}))) as [Hnd Hel].
  assert (Hperm : Permutation (sorted_lower (list_of_set (wk_varset st))) (wk_varset st))
    by (rewrite sorted_lower_perm; apply list_of_set_perm).
  split; [exact Hcolumns|]. split; [|split; [|split]].
  - rewrite Hcolumns. apply arguments_loop.
  - intros _. apply sorted_lower_Sorted.
  - rewrite Hperm. exact Hnd.
  - intros v. rewrite Hperm, Hel. cbn [wk_varset]. split.
    + intros [H|[[[path operation] op] [Hx H]]]; [inversion H|]. eauto.
    + intros (path & operation & op & Hx & H). right.
      exists (path, operation, op). auto.
Qed.

Lemma variable_order_is_shared_witness :
  let header := write_excel_header empty_worksheet ["id"; "name"; "Status"] in
  variable_columns (fst header) (snd header) = ["${id}"; "${name}"; "${Status}"]
  /\ arguments_string ["id"; "name"; "Status"]
     = "${API_CALL}  ${API_OPERATION}  ${EXPECTED_STATUS_CODE}  ${id}  ${name}  ${Status}"
  /\ StronglySorted lower_le ["id"; "name"; "Status"].
Proof.
  pose proof (variable_order_is_shared Sample.insertion_order
                (fun s => Permutation_refl s) Sample.petstore
                [ {| url := "https://api.example.com/v1/pets" |} ]
                (match parse_openapi_spec Sample.insertion_order (Some Sample.petstore) with
                 | Ok (_, _, d, _) => d
                 | Raise _ => []
                 end)
                ["id"; "name"; "Status"] empty_worksheet) as H.
  cbn zeta in H. destruct H as (Hcolumns & Harguments & Hsorted & _).
  - vm_compute. reflexivity.
  - split; [|split].
    + exact Hcolumns.
    + rewrite Harguments, Hcolumns. reflexivity.
    + apply Hsorted. repeat constructor.
Defined.

(** ** C8: path parameters *)

Lemma length_append (a b : string) :
  String.length (a ++ b) = String.length a + String.length b.
Proof.
  induction a as [|x a IH]; [reflexivity|].
  change (S (String.length (a ++ b)) = S (String.length a + String.length b)).
  f_equal. exact IH.
Qed.

Lemma prefix_char (c x : ascii) (s : string) :
  String.prefix (Str.of_ascii c) (String x s) = Ascii.eqb c x.
Proof.
  cbn. destruct (ascii_dec c x) as [->|Hne].
  - rewrite Ascii.eqb_refl. destruct s; reflexivity.
  - symmetry. apply Ascii.eqb_neq. exact Hne.
Qed.

Lemma contains_char (c : ascii) (a b : string) :
  Str.contains (Str.of_ascii c) (a ++ String c b) = true.
Proof.
  induction a as [|x a IH].
  - change ("" ++ String c b) with (String c b). cbn [Str.contains].
    rewrite prefix_char, Ascii.eqb_refl. reflexivity.
  - change (String x a ++ String c b) with (String x (a ++ String c b)).
    cbn [Str.contains]. rewrite IH. apply orb_true_r.
Qed.

(** *** The rewriting of the braces *)

Lemma replace_char_cons (c x : ascii) (new s : string) :
  Str.replace_from (Str.of_ascii c) new (String x s) 0
  = (if Ascii.eqb c x then new else Str.of_ascii x)
    ++ Str.replace_from (Str.of_ascii c) new s 0.
Proof.
  cbn [Str.replace_from]. rewrite prefix_char.
  destruct (Ascii.eqb c x); reflexivity.
Qed.

Lemma replace_char_app (c : ascii) (new a b : string) :
  Str.replace_from (Str.of_ascii c) new (a ++ b) 0
  = Str.replace_from (Str.of_ascii c) new a 0 ++ Str.replace_from (Str.of_ascii c) new b 0.
Proof.
  induction a as [|x a IH]; [reflexivity|].
  change (String x a ++ b) with (String x (a ++ b)).
  rewrite !replace_char_cons, IH, append_assoc. reflexivity.
Qed.

Lemma replace_char_absent (c : ascii) (new s : string) :
  has_char c s = false -> Str.replace_from (Str.of_ascii c) new s 0 = s.
Proof.
  induction s as [|x s IH]; intros H; [reflexivity|].
  apply has_char_cons in H as [Hx H].
  rewrite replace_char_cons, Hx, (IH H). reflexivity.
Qed.

Lemma replace_braces_pieces (before : string) (parts : list (string * string)) :
  template_pieces before parts = true ->
  Str.replace "{" "${" (path_template before parts) = engine_path before parts.
Proof.
  unfold template_pieces, path_template, engine_path, plain_text. intros H.
  apply andb_true_iff in H as [Hbefore Hparts]. apply negb_true_iff in Hbefore.
  change (Str.replace "{" "${") with (fun s => Str.replace_from (Str.of_ascii "{") "${" s 0).
  cbv beta. rewrite replace_char_app, (replace_char_absent _ _ _ Hbefore). f_equal.
  induction parts as [|[name text] parts IH]; [reflexivity|].
  cbn [forallb fst snd] in Hparts. apply andb_true_iff in Hparts as [Hpart Hparts].
  apply andb_true_iff in Hpart as [Hname Htext]. unfold parameter_name in Hname.
  apply andb_true_iff in Hname as [Hname _]. apply andb_true_iff in Hname as [Hname _].
  apply negb_true_iff in Hname, Htext.
  cbn [List.map Str.cat fst snd]. rewrite replace_char_app, (IH Hparts). f_equal.
  change ("{" ++ name ++ "}" ++ text) with (String "{" (name ++ "}" ++ text)).
  rewrite replace_char_cons. change (Ascii.eqb "{" "{") with true.
  rewrite replace_char_app, (replace_char_absent _ _ _ Hname).
  change ("}" ++ text) with (String "}" text).
  rewrite replace_char_cons. change (Ascii.eqb "{" "}") with false.
  rewrite (replace_char_absent _ _ _ Htext). reflexivity.
Qed.

(** *** The placeholders found *)

Section ParameterRegex.

Import Re.

(** The lazy run stops at the first closing brace. *)
Lemma name_run_match (name rest acc : string) :
  has_char "}" name = false -> has_char newline name = false ->
  re_match (name ++ String "}" rest) name_run (InGroup acc)
  = Some (Group (acc ++ name), rest).
Proof.
  revert acc. induction name as [|c name IH]; intros acc Hb Hn.
  - change ("" ++ String "}" rest) with (String "}" rest).
    unfold name_run. rewrite re_match_lazy, re_match_close, re_match_chr.
    change (Ascii.eqb "}" "}") with true. rewrite re_match_nil.
    rewrite append_nil_r. reflexivity.
  - apply has_char_cons in Hb as [Hc Hb]. apply has_char_cons in Hn as [Hcn Hn].
    change (String c name ++ String "}" rest) with (String c (name ++ String "}" rest)).
    unfold name_run. rewrite re_match_lazy, re_match_close, re_match_chr, Hc.
    rewrite (not_newline _ Hcn). fold name_run. cbn [push].
    rewrite (IH _ Hb Hn). unfold Str.of_ascii. rewrite append_assoc. reflexivity.
Qed.

Lemma finditer_skip (p : list item) (a rest : string) :
  finditer_from p (a ++ rest) (String.length a) = finditer_from p rest 0.
Proof.
  induction a as [|x a IH]; [reflexivity|].
  change (String x a ++ rest) with (String x (a ++ rest)). exact IH.
Qed.

Lemma finditer_plain (text rest : string) :
  has_char "{" text = false ->
  finditer_from url_parameter_regex (text ++ rest) 0
  = finditer_from url_parameter_regex rest 0.
Proof.
  induction text as [|x text IH]; intros H; [reflexivity|].
  apply has_char_cons in H as [Hx H].
  change (String x text ++ rest) with (String x (text ++ rest)).
  cbn [finditer_from]. unfold url_parameter_regex at 1.
  rewrite re_match_chr, Hx. apply IH. exact H.
Qed.

Lemma finditer_placeholder (name rest : string) :
  has_char "}" name = false -> has_char newline name = false ->
  finditer_from url_parameter_regex (String "{" (name ++ String "}" rest)) 0
  = Group name :: finditer_from url_parameter_regex rest 0.
Proof.
  intros Hb Hn. cbn [finditer_from]. unfold url_parameter_regex at 1.
  rewrite re_match_chr. change (Ascii.eqb "{" "{") with true.
  rewrite re_match_open. fold name_run. cbn [push].
  rewrite (name_run_match name rest "" Hb Hn).
  change ("" ++ name) with name. f_equal.
  replace (String.length (String "{" (name ++ String "}" rest)) - String.length rest - 1)
    with (String.length (name ++ "}")).
  - rewrite <- (finditer_skip url_parameter_regex (name ++ "}") rest).
    rewrite append_assoc. reflexivity.
  - cbn [String.length]. rewrite !length_append. cbn [String.length]. lia.
Qed.

Lemma finditer_pieces (before : string) (parts : list (string * string)) :
  template_pieces before parts = true ->
  finditer url_parameter_regex (path_template before parts)
  = List.map (fun part => Group (fst part)) parts.
Proof.
  unfold template_pieces, path_template, plain_text, finditer. intros H.
  apply andb_true_iff in H as [Hbefore Hparts]. apply negb_true_iff in Hbefore.
  rewrite (finditer_plain _ _ Hbefore).
  induction parts as [|[name text] parts IH]; [reflexivity|].
  cbn [forallb fst snd] in Hparts. apply andb_true_iff in Hparts as [Hpart Hparts].
  apply andb_true_iff in Hpart as [Hname Htext]. unfold parameter_name in Hname.
  apply andb_true_iff in Hname as [Hname Hnl]. apply andb_true_iff in Hname as [_ Hname].
  apply negb_true_iff in Hname, Hnl, Htext.
  cbn [List.map Str.cat fst snd].
  replace (("{" ++ name ++ "}" ++ text)
           ++ Str.cat (List.map (fun part => "{" ++ fst part ++ "}" ++ snd part) parts))
    with (String "{" (name ++ String "}"
            (text ++ Str.cat (List.map (fun part => "{" ++ fst part ++ "}" ++ snd part)
                                parts)))).
  - rewrite (finditer_placeholder _ _ Hname Hnl), (finditer_plain _ _ Htext), (IH Hparts).
    reflexivity.
  - change ("{" ++ name ++ "}" ++ text) with (String "{" (name ++ String "}" text)).
    change (String "{" (name ++ String "}" text) ++ ?x)
      with (String "{" ((name ++ String "}" text) ++ x)).
    rewrite append_assoc. reflexivity.
Qed.

End ParameterRegex.

Lemma url_parameters_loop (names : list string) (acc : string) :
  fold_left (fun acc m => acc ++ set_test_variable (Re.group1 m))
    (List.map Re.Group names) acc
  = acc ++ Str.cat (List.map set_test_variable names).
Proof.
  revert acc. induction names as [|name names IH]; intros acc; cbn [fold_left List.map Str.cat].
  - rewrite append_nil_r. reflexivity.
  - rewrite IH, append_assoc. reflexivity.
Qed.

(** The statements for the parameters of a path that has some: a block
    between two line feeds. *)
Lemma statements_block (names : list string) :
  names <> [] ->
  exists m, Str.cat (List.map set_test_variable names) = m ++ line_feed.
Proof.
  induction names as [|name names IH]; intros Hne; [congruence|].
  cbn [List.map Str.cat]. destruct names as [|name' names].
  - exists ("    Set Test Variable  ${" ++ name ++ "}  " ++ name).
    cbn [List.map Str.cat]. unfold set_test_variable.
    rewrite append_nil_r, !append_assoc. reflexivity.
  - destruct IH as [m Hm]; [discriminate|]. rewrite Hm.
    exists (set_test_variable name ++ m). rewrite append_assoc. reflexivity.
Qed.

Lemma keyword_text_stages (my_arguments_string keyword_body_template
  keyword_no_body_template : string) (entry : service_key * test_case) :
  keyword_text my_arguments_string keyword_body_template keyword_no_body_template entry
  = Str.replace "REPLACE_API_PATH_REPLACE" (snd (url_parameters (snd (fst entry))))
      (keyword_before_path my_arguments_string keyword_body_template
         keyword_no_body_template entry).
Proof.
  destruct entry as [[[name operation] endpoint] tc].
  unfold keyword_text, keyword_before_path, keyword_head, true_properties.
  cbn [fst snd]. destruct (url_parameters endpoint) as [parameters endpoint'].
  cbn [fst snd]. destruct (properties tc) as [[|p props]|]; reflexivity.
Qed.

(** C8. For an operation whose path template holds placeholders, the
    program computes, for each placeholder in order of appearance, one
    statement that sets a variable of that name to the name itself (four
    blanks, [Set Test Variable], two blanks, the variable, two blanks, the
    name, a line feed), all of them after one line feed, and the path in
    which every opening brace is written as a dollar sign and a brace.
    The rendered block holds these statements where the template has the
    token for the URL parameters (no parameter name carrying a token of
    its own), and the rewritten path where the template has the token for
    the path. *)
Theorem path_parameters_initialised_and_rewritten
  (before : string) (parts : list (string * string))
  (my_arguments_string keyword_body_template keyword_no_body_template : string)
  (test_case_name test_case_operation : string) (tc : test_case) :
  template_pieces before parts = true ->
  parts <> [] ->
  let entry := ((test_case_name, test_case_operation, path_template before parts), tc) in
  let statements :=
    Str.cat (List.map (fun part => "    Set Test Variable  ${" ++ fst part ++ "}  "
                                   ++ fst part ++ String "010" "") parts) in
  let block := keyword_text my_arguments_string keyword_body_template
                 keyword_no_body_template entry in
  url_parameters (path_template before parts)
  = (String "010" statements, engine_path before parts)
  /\ Str.replace "{" "${" (path_template before parts) = engine_path before parts
  /\ (Str.contains "REPLACE_URL_PARAMETERS_REPLACE"
        (keyword_head my_arguments_string keyword_body_template
           keyword_no_body_template entry) = true ->
      Str.contains "REPLACE_" statements = false ->
      exists a b, block = a ++ String "010" statements ++ b)
  /\ (Str.contains "REPLACE_API_PATH_REPLACE"
        (keyword_before_path my_arguments_string keyword_body_template
           keyword_no_body_template entry) = true ->
      exists a b, block = a ++ engine_path before parts ++ b).
Proof.
  intros Hpieces Hparts entry statements block.
  change (Str.cat (List.map (fun part => set_test_variable (fst part)) parts))
    in (value of statements).
  change (String "010" statements) with (line_feed ++ statements).
  assert (Hurl : url_parameters (path_template before parts)
                 = (line_feed ++ statements, engine_path before parts)).
  { unfold url_parameters.
    assert (Hbrace : Str.contains "{" (path_template before parts) = true).
    { destruct parts as [|[name text] parts]; [congruence|].
      unfold path_template. cbn [List.map Str.cat fst snd].
      change (("{" ++ name ++ "}" ++ text) ++ ?x)
        with (String "{" ((name ++ "}" ++ text) ++ x)).
      apply (contains_char "{"). }
    rewrite Hbrace, (finditer_pieces _ _ Hpieces), (replace_braces_pieces _ _ Hpieces).
    f_equal. unfold statements.
    rewrite <- (map_map fst Re.Group), url_parameters_loop, map_map. reflexivity. }
  split; [exact Hurl|]. split; [apply replace_braces_pieces; exact Hpieces|].
  assert (Hblock : block
                   = Str.replace "REPLACE_API_PATH_REPLACE" (engine_path before parts)
                       (keyword_before_path my_arguments_string keyword_body_template
                          keyword_no_body_template entry)).
  { unfold block. rewrite keyword_text_stages. unfold entry at 1. cbn [fst snd].
    rewrite Hurl. reflexivity. }
  split.
  - intros Htoken Hfree.
    destruct (statements_block (List.map fst parts)) as [m Hm].
    { destruct parts; [congruence | discriminate]. }
    rewrite map_map in Hm. fold statements in Hm.
    assert (Hm_free : Str.contains "REPLACE_" m = false).
    { rewrite Hm in Hfree. apply (contains_app_l _ _ _ Hfree). }
    rewrite Hblock. unfold keyword_before_path, entry. cbn [fst]. fold entry.
    rewrite Hurl. cbn [fst].
    destruct (replace_present _ _ (line_feed ++ statements) _ Htoken) as (a & b & ->).
    rewrite Hm.
    assert (Hshape : forall b0,
               (line_feed ++ m ++ line_feed) ++ b0 = String "010" (m ++ String "010" b0)).
    { intros b0.
      change ((line_feed ++ m ++ line_feed) ++ b0)
        with (String "010" ((m ++ line_feed) ++ b0)).
      rewrite append_assoc. reflexivity. }
    rewrite Hshape.
    assert (Hgoal : forall text,
               (exists a0 b0, text = a0 ++ String "010" (m ++ String "010" b0)) ->
               exists a0 b0, text = a0 ++ (line_feed ++ m ++ line_feed) ++ b0).
    { intros text (a0 & b0 & ->). exists a0, b0. rewrite Hshape. reflexivity. }
    apply Hgoal.
    assert (Hframe : forall token new a0 b0,
               has_char "010" ("REPLACE_" ++ token) = false ->
               Str.replace ("REPLACE_" ++ token) new
                 (a0 ++ String "010" (m ++ String "010" b0))
               = Str.replace ("REPLACE_" ++ token) new a0
                 ++ String "010" (m ++ String "010"
                                    (Str.replace ("REPLACE_" ++ token) new b0))).
    { intros token new a0 b0 Hnl.
      apply (replace_frame "R" ("EPLACE_" ++ token) new a0 m b0 "010" "010" Hnl Hnl).
      apply (contains_of_longer "REPLACE_" token m Hm_free). }
    destruct (true_properties tc) as [props|].
    + rewrite (Hframe "SCHEMA_GENERATOR_STRING_REPLACE") by reflexivity.
      rewrite (Hframe "HTTP_OPERATION_REPLACE") by reflexivity.
      rewrite (Hframe "API_PATH_REPLACE") by reflexivity.
      eexists. eexists. reflexivity.
    + rewrite (Hframe "HTTP_OPERATION_REPLACE") by reflexivity.
      rewrite (Hframe "API_PATH_REPLACE") by reflexivity.
      eexists. eexists. reflexivity.
  - intros Htoken. rewrite Hblock. apply replace_present. exact Htoken.
Qed.

Lemma path_parameters_initialised_and_rewritten_witness :
  let template :=
    "REPLACE_OPERATIONID_REPLACE:REPLACE_URL_PARAMETERS_REPLACEREPLACE_HTTP_OPERATION_REPLACE REPLACE_API_PATH_REPLACE;" in
  let entry :=
    (("getToy", "get", "/pets/{petId}/toys/{toyId}"),
     {| properties := None; required := None; example := None;
        tags := TagsStr ""; summary := ""; description := "";
        expected_status_code := JStr "" |}) in
  let lf := String "010" "" in
  let statements :=
    "    Set Test Variable  ${petId}  petId" ++ lf
    ++ "    Set Test Variable  ${toyId}  toyId" ++ lf in
  url_parameters "/pets/{petId}/toys/{toyId}"
  = (lf ++ statements, "/pets/${petId}/toys/${toyId}")
  /\ (exists a b, keyword_text "" "" template entry = a ++ (lf ++ statements) ++ b)
  /\ (exists a b, keyword_text "" "" template entry
                  = a ++ "/pets/${petId}/toys/${toyId}" ++ b)
  /\ keyword_text "" "" template entry
     = "getToy:" ++ lf ++ statements ++ "GET /pets/${petId}/toys/${toyId};".
Proof.
  intros template entry lf statements.
  destruct (path_parameters_initialised_and_rewritten
              "/pets/" [("petId", "/toys/"); ("toyId", "")] "" "" template
              "getToy" "get"
              {| properties := None; required := None; example := None;
                 tags := TagsStr ""; summary := ""; description := "";
                 expected_status_code := JStr "" |})
    as (Hurl & _ & Hstatements & Hpath).
  - reflexivity.
  - discriminate.
  - split; [exact Hurl|]. split; [|split].
    + apply Hstatements; reflexivity.
    + apply Hpath. reflexivity.
    + reflexivity.
Defined.

(** * Further properties of the program *)

(** ** The walker: when it completes and what it stores *)

Lemma visit_Ok_record (st st' : walker) path operation op :
  visit st (path, operation, op) = Ok st' ->
  exists operationid code,
    op_operationId op = Some operationid /\
    assign_status op (wk_expected_status_code st) = Some code /\
    wk_expected_status_code st' = Some code /\
    wk_service_dictionary st'
    = Dict.set (operationid, operation, path) (operation_record op code)
        (wk_service_dictionary st).
Proof.
  unfold visit, walk_operation, operation_record.
  destruct (op_operationId op) as [operationid|]; [|discriminate].
  destruct (request_fields op) as [[req props] ex].
  destruct (assign_status op (wk_expected_status_code st)) as [code|]; [|discriminate].
  intros [= <-]. exists operationid, code. repeat split.
Qed.

(** A visit completes when the operation has an [operationId] and the
    status variable is bound or gets bound. *)
Lemma visit_completes (st : walker) path operation op operationid :
  op_operationId op = Some operationid ->
  wk_expected_status_code st <> None \/ assigns_status op = true ->
  exists st', visit st (path, operation, op) = Ok st' /\
              wk_expected_status_code st' <> None.
Proof.
  intros Hid Hbound. unfold visit, walk_operation. rewrite Hid.
  destruct (request_fields op) as [[req props] ex].
  assert (Hsome : exists code, assign_status op (wk_expected_status_code st) = Some code).
  { unfold assign_status, assigns_status in *.
    destruct (op_responses op) as [[|[k v] rest]|]; eauto;
      (destruct Hbound as [Hb|Hb]; [|discriminate]);
      (destruct (wk_expected_status_code st); [eauto | congruence]). }
  destruct Hsome as [code ->]. eexists. split; [reflexivity|]. cbn. discriminate.
Qed.

Lemma visits_complete (l : list (string * string * operation_object)) (st : walker) :
  Forall (fun x => op_operationId (snd x) <> None) l ->
  wk_expected_status_code st <> None ->
  exists st', foldM visit l st = Ok st'.
Proof.
  revert st. induction l as [|[[path operation] op] l IH]; intros st Hall Hst.
  - eexists. reflexivity.
  - apply Forall_cons in Hall as [Hid Hall]. cbn [snd] in Hid.
    destruct (op_operationId op) as [operationid|] eqn:Hop; [|congruence].
    destruct (visit_completes st path operation op operationid Hop (or_introl Hst))
      as (st1 & Hvisit & Hst1).
    cbn [foldM]. rewrite Hvisit. cbn [bind]. apply IH; assumption.
Qed.

Lemma visits_have_operationId (l : list (string * string * operation_object))
  (st st' : walker) :
  foldM visit l st = Ok st' ->
  Forall (fun x => op_operationId (snd x) <> None) l.
Proof.
  revert st. induction l as [|[[path operation] op] l IH]; intros st Hrun; [constructor|].
  cbn [foldM] in Hrun. apply bind_Ok in Hrun as [st1 [Hvisit Hrun]].
  constructor; [|apply (IH st1 Hrun)].
  apply visit_Ok_record in Hvisit as (operationid & code & Hid & _). cbn [snd]. congruence.
Qed.

(** X1. [parse_openapi_spec] returns for a loaded description exactly
    when the description has the key [paths], every entry of every path
    item has an [operationId] (a path-level list such as [parameters] is
    an entry without one), and the first entry visited, if there is one,
    has a non-empty [responses] map.  It ends with [KeyError] exactly
    when the key [paths] is missing. *)
Theorem walker_completes_iff (list_of_set : list string -> list string)
  (spec : specification) :
  ((exists r, parse_openapi_spec list_of_set (Some spec) = Ok r) <->
   spec_paths_entry spec <> None /\
   Forall (fun x => op_operationId (snd x) <> None) (operations spec) /\
   match operations spec with
   | [] => True
   | x :: _ => assigns_status (snd x) = true
   end)
  /\
  (spec_paths_entry spec = None <->
   parse_openapi_spec list_of_set (Some spec) = Raise (KeyError "paths")).
Proof.
  split; [split|split].
  - intros [r Hr]. unfold parse_openapi_spec in Hr.
    apply bind_Ok in Hr as [st [Hwalk _]].
    apply walk_paths_Ok in Hwalk as [Hentry Hrun]. split; [exact Hentry|]. split.
    + apply (visits_have_operationId _ _ _ Hrun).
    + destruct (operations spec) as [|[[path operation] op] l]; [exact I|].
      cbn [foldM] in Hrun. apply bind_Ok in Hrun as [st1 [Hvisit _]].
      apply visit_Ok_record in Hvisit as (operationid & code & _ & Hassign & _).
      cbn [wk_expected_status_code snd] in *.
      unfold assign_status, assigns_status in *.
      destruct (op_responses op) as [[|[k v] rest]|]; try discriminate; reflexivity.
  - intros (Hentry & Hall & Hfirst). unfold parse_openapi_spec.
    rewrite (walk_paths_visit _ Hentry).
    destruct (operations spec) as [|[[path operation] op] l].
    + eexists. reflexivity.
    + apply Forall_cons in Hall as [Hid Hall]. cbn [snd] in *.
      destruct (op_operationId op) as [operationid|] eqn:Hop; [|congruence].
      destruct (visit_completes
                  {| wk_service_dictionary := []; wk_varset := [];
                     wk_expected_status_code := None |}
                  path operation op operationid Hop (or_intror Hfirst))
        as (st1 & Hvisit & Hst1).
      destruct (visits_complete l st1 Hall Hst1) as [st' Hrun].
      cbn [foldM]. rewrite Hvisit. cbn [bind]. rewrite Hrun. cbn [bind].
      eexists. reflexivity.
  - intros Hnone. unfold parse_openapi_spec. rewrite (walk_paths_no_entry _ Hnone).
    reflexivity.
  - intros Hraise. destruct (spec_paths_entry spec) as [paths|] eqn:Hentry; [|reflexivity].
    exfalso. unfold parse_openapi_spec in Hraise.
    rewrite walk_paths_visit in Hraise by congruence.
    assert (Hvisit : forall l st,
               foldM visit l st <> Raise (KeyError "paths")).
    { induction l as [|[[path operation] op] l IH]; intros st; [discriminate|].
      cbn [foldM]. destruct (visit st (path, operation, op)) as [st1|e] eqn:Hstep.
      - cbn [bind]. apply IH.
      - cbn [bind]. unfold visit, walk_operation in Hstep.
        destruct (op_operationId op); [|injection Hstep as <-; discriminate].
        destruct (request_fields op) as [[req props] ex].
        destruct (assign_status op (wk_expected_status_code st));
          [discriminate | injection Hstep as <-; discriminate]. }
    destruct (foldM visit (operations spec) _) as [st|e] eqn:Hrun; [discriminate|].
    cbn [bind] in Hraise. injection Hraise as ->. exact (Hvisit _ _ Hrun).
Qed.

Lemma walker_completes_iff_witness :
  parse_openapi_spec Sample.insertion_order (Some Sample.petstore_without_paths)
  = Raise (KeyError "paths")
  /\ (exists r, parse_openapi_spec Sample.insertion_order (Some Sample.petstore) = Ok r)
  /\ forall r, parse_openapi_spec Sample.insertion_order (Some Sample.petstore_unbound)
               <> Ok r.
Proof.
  split; [|split].
  - apply (walker_completes_iff Sample.insertion_order Sample.petstore_without_paths).
    reflexivity.
  - apply (walker_completes_iff Sample.insertion_order Sample.petstore).
    split; [discriminate|]. split; [|reflexivity].
    repeat constructor; discriminate.
  - intros r Hr.
    assert (Hsome : exists r, parse_openapi_spec Sample.insertion_order
                                (Some Sample.petstore_unbound) = Ok r) by eauto.
    apply (walker_completes_iff Sample.insertion_order Sample.petstore_unbound) in Hsome
      as (_ & _ & Hfirst).
    discriminate Hfirst.
Defined.

Lemma dict_set_fresh {K V : Type} `{EqDecision K} (k : K) (v : V) (d : list (K * V)) :
  k ∉ Dict.keys d -> Dict.set k v d = (d ++ [(k, v)])%list.
Proof.
  unfold Dict.keys. induction d as [|[k0 v0] d IH]; intros Hfresh; [reflexivity|].
  cbn [List.map fst] in Hfresh. apply not_elem_of_cons in Hfresh as [Hne Hfresh].
  cbn [Dict.set]. destruct (decide (k = k0)); [contradiction|].
  rewrite (IH Hfresh). reflexivity.
Qed.

(** The keys after a walk: those there before, then one per visited
    operation, in the order of the visits. *)
Lemma visits_keys (l : list (string * string * operation_object)) (st st' : walker) :
  foldM visit l st = Ok st' ->
  NoDup (List.map fst l) ->
  (forall k, k ∈ Dict.keys (wk_service_dictionary st) ->
             (snd k, snd (fst k)) ∉ List.map fst l) ->
  List.map Some (Dict.keys (wk_service_dictionary st'))
  = (List.map Some (Dict.keys (wk_service_dictionary st)) ++ List.map operation_key l)%list.
Proof.
  revert st. induction l as [|[[path operation] op] l IH]; intros st Hrun Hnd Hold.
  - injection Hrun as <-. rewrite app_nil_r. reflexivity.
  - cbn [foldM] in Hrun. apply bind_Ok in Hrun as [st1 [Hvisit Hrun]].
    cbn [List.map fst] in Hnd, Hold. apply NoDup_cons in Hnd as [Hnew Hnd].
    apply visit_Ok_record in Hvisit as (operationid & code & Hid & _ & _ & Hdict).
    assert (Hfresh : (operationid, operation, path)
                     ∉ Dict.keys (wk_service_dictionary st)).
    { intros Hin. apply (Hold _ Hin). cbn [fst snd]. apply elem_of_cons. auto. }
    rewrite (dict_set_fresh _ _ _ Hfresh) in Hdict.
    rewrite (IH st1 Hrun Hnd).
    + rewrite Hdict. unfold Dict.keys. rewrite !map_app. cbn [List.map fst operation_key].
      rewrite Hid, <- app_assoc. reflexivity.
    + intros k Hk. rewrite Hdict in Hk. unfold Dict.keys in Hk. rewrite map_app in Hk.
      apply elem_of_app in Hk as [Hk|Hk].
      * intros Hin. apply (Hold k Hk). apply elem_of_cons. auto.
      * cbn [List.map fst] in Hk. apply list_elem_of_singleton in Hk. subst k.
        cbn [fst snd]. exact Hnew.
Qed.

(** X2. The dictionary of a parsed (well-formed) description holds one
    record per operation, under the key (operationId, method, path), in
    the order in which the description lists the operations; the servers
    are handed on unchanged (none when the description has no [servers]). *)
Theorem one_record_per_operation (list_of_set : list string -> list string)
  (spec : specification) success servers service_dictionary all_service_variables :
  wf_spec spec = true ->
  parse_openapi_spec list_of_set (Some spec)
  = Ok (success, servers, service_dictionary, all_service_variables) ->
  List.map Some (Dict.keys service_dictionary) = List.map operation_key (operations spec)
  /\ length service_dictionary = length (operations spec)
  /\ NoDup (Dict.keys service_dictionary)
  /\ servers = match spec_servers spec with Some l => l | None => [] end.
Proof.
  intros Hwf Hparse.
  assert (Hservers : servers = match spec_servers spec with Some l => l | None => [] end).
  { unfold parse_openapi_spec in Hparse. apply bind_Ok in Hparse as [st [_ Hparse]].
    injection Hparse as _ <- _ _. reflexivity. }
  apply parse_Ok in Hparse as (st & Hwalk & _ & -> & _).
  apply walk_paths_Ok in Hwalk as [_ Hwalk].
  pose proof (visits_keys _ _ _ Hwalk (wf_spec_NoDup spec Hwf)) as Hkeys.
  cbn [wk_service_dictionary Dict.keys List.map app] in Hkeys.
  assert (Hk : List.map Some (Dict.keys (wk_service_dictionary st))
               = List.map operation_key (operations spec)).
  { apply Hkeys. intros k Hk. inversion Hk. }
  split; [exact Hk|]. split; [|split; [|exact Hservers]].
  - apply (f_equal length) in Hk. unfold Dict.keys in Hk.
    rewrite !length_map in Hk. exact Hk.
  - apply (NoDup_fmap_1 (fun k : service_key => (snd k, snd (fst k)))).
    assert (Hpairs : forall l ks,
               List.map Some ks = List.map operation_key l ->
               (fun k : service_key => (snd k, snd (fst k))) <$> ks = List.map fst l).
    { induction l as [|[[path operation] op] l IH]; intros [|k ks] Heq;
        try discriminate; [reflexivity|].
      cbn [List.map operation_key] in Heq. injection Heq as Hk' Heq.
      cbn [fmap list_fmap List.map fst]. f_equal.
      - destruct (op_operationId op); [|discriminate]. injection Hk' as ->. reflexivity.
      - apply IH. exact Heq. }
    rewrite (Hpairs _ _ Hk). apply wf_spec_NoDup. exact Hwf.
Qed.

Lemma one_record_per_operation_witness :
  List.map Some
    (Dict.keys (match parse_openapi_spec Sample.insertion_order (Some Sample.petstore) with
                | Ok (_, _, d, _) => d
                | Raise _ => []
                end))
  = List.map operation_key (operations Sample.petstore).
Proof.
  eapply (one_record_per_operation Sample.insertion_order Sample.petstore true).
  - vm_compute. reflexivity.
  - vm_compute. reflexivity.
Defined.

(** X3. The record stored for an operation: [tags] is the list of the
    operation or the empty string, [summary] and [description] default to
    the empty string, and [properties], [required] and [example] come from
    the [application/json] entry of [requestBody.content] alone; without
    a [requestBody], or with other media types only, all three are absent. *)
Theorem stored_record_fields (list_of_set : list string -> list string)
  (spec : specification) servers service_dictionary all_service_variables
  path ops operation op :
  wf_spec spec = true ->
  parse_openapi_spec list_of_set (Some spec)
  = Ok (true, servers, service_dictionary, all_service_variables) ->
  (path, ops) ∈ spec_paths spec ->
  (operation, op) ∈ ops ->
  exists operationid tc,
    op_operationId op = Some operationid /\
    Dict.get (operationid, operation, path) service_dictionary = Some tc /\
    tags tc = match op_tags op with Some ref => TagsList ref | None => TagsStr "" end /\
    summary tc = match op_summary op with Some text => text | None => "" end /\
    description tc = match op_description op with Some text => text | None => "" end /\
    (op_requestBody op = None ->
     properties tc = None /\ required tc = None /\ example tc = None) /\
    (forall body, op_requestBody op = Some body ->
       match body_content body with
       | None => properties tc = None /\ required tc = None /\ example tc = None
       | Some content =>
           match Dict.get "application/json" content with
           | None => properties tc = None /\ required tc = None /\ example tc = None
           | Some media =>
               example tc = media_example media /\
               match media_schema media with
               | Some schema =>
                   properties tc = schema_properties schema /\
                   required tc = schema_required schema
               | None => properties tc = None /\ required tc = None
               end
           end
       end).
Proof.
  intros Hwf Hparse Hpath Hop.
  apply parse_Ok in Hparse as (st & Hwalk & _ & -> & _).
  assert (Hin : (path, operation, op) ∈ operations spec)
    by (apply elem_of_operations; eauto).
  apply list_elem_of_split in Hin as (l1 & l2 & Hsplit).
  pose proof Hwalk as Hrun. apply walk_paths_Ok in Hrun as [_ Hrun]. rewrite Hsplit in Hrun.
  apply walk_split in Hrun as (st1 & st2 & _ & Hvisit & H2).
  apply visit_Ok_record in Hvisit as (operationid & code & Hid & _ & _ & Hdict).
  exists operationid, (operation_record op code).
  split; [exact Hid|]. split.
  - rewrite (visits_keep_record l2 st2 st operationid operation path H2).
    + rewrite Hdict. apply dict_get_set_eq.
    + apply wf_spec_NoDup in Hwf. rewrite Hsplit, map_app in Hwf.
      apply NoDup_app in Hwf as (_ & _ & Hwf). cbn [List.map fst] in Hwf.
      apply NoDup_cons in Hwf as [Hfresh _]. exact Hfresh.
  - unfold operation_record, request_fields.
    cbn [tags summary description properties required example].
    split; [reflexivity|]. split; [reflexivity|]. split; [reflexivity|]. split.
    + intros ->. auto.
    + intros body ->. destruct (body_content body) as [content|]; [|auto].
      destruct (Dict.get "application/json" content) as [media|]; [|auto].
      destruct (media_schema media) as [schema|]; cbn [fst snd]; auto.
Qed.

Lemma stored_record_fields_witness :
  exists operationid tc,
    op_operationId Sample.getPetById = Some operationid /\
    Dict.get (operationid, "get", "/pet/{petId}")
      (match parse_openapi_spec Sample.insertion_order (Some Sample.petstore) with
       | Ok (_, _, d, _) => d
       | Raise _ => []
       end) = Some tc /\
    tags tc = TagsStr "" /\ summary tc = "Find pet by ID" /\ description tc = "" /\
    properties tc = None.
Proof.
  destruct (stored_record_fields Sample.insertion_order Sample.petstore
              [ {| url := "https://api.example.com/v1/pets" |} ]
              (match parse_openapi_spec Sample.insertion_order (Some Sample.petstore) with
               | Ok (_, _, d, _) => d
               | Raise _ => []
               end)
              ["id"; "name"; "Status"]
              "/pet/{petId}" [("get", Sample.getPetById); ("delete", Sample.deletePet)]
              "get" Sample.getPetById)
    as (operationid & tc & Hid & Hget & Htags & Hsummary & Hdescription & Hnone & _).
  - vm_compute. reflexivity.
  - vm_compute. reflexivity.
  - apply elem_of_cons. right. apply elem_of_cons. left. reflexivity.
  - apply elem_of_cons. left. reflexivity.
  - exists operationid, tc. repeat split; try assumption.
    apply Hnone. reflexivity.
Defined.

(** ** The order of the variables does not depend on the set *)

(** Two sorted lists with the same elements are equal when no two
    elements have the same sort key. *)
Lemma sorted_lower_unique (l1 l2 : list string) :
  StronglySorted lower_le l1 -> StronglySorted lower_le l2 ->
  Permutation l1 l2 ->
  NoDup (List.map Str.lower l1) ->
  l1 = l2.
Proof.
  revert l2. induction l1 as [|x l1 IH]; intros l2 Hs1 Hs2 Hperm Hkeys.
  - apply Permutation_nil in Hperm. congruence.
  - destruct l2 as [|y l2].
    { apply Permutation_sym, Permutation_nil in Hperm. discriminate. }
    apply StronglySorted_inv in Hs1 as [Hs1 Hx]. apply StronglySorted_inv in Hs2 as [Hs2 Hy].
    cbn [List.map] in Hkeys. apply NoDup_cons in Hkeys as [Hxkey Hkeys].
    assert (x = y) as <-.
    { assert (Hyin : y ∈ x :: l1) by (rewrite Hperm; apply elem_of_cons; auto).
      assert (Hxin : x ∈ y :: l2) by (rewrite <- Hperm; apply elem_of_cons; auto).
      apply elem_of_cons in Hyin as [->|Hyin]; [reflexivity|].
      apply elem_of_cons in Hxin as [->|Hxin]; [reflexivity|].
      rewrite Forall_forall in Hx, Hy.
      pose proof (Hx y Hyin) as Hxy. pose proof (Hy x Hxin) as Hyx.
      unfold lower_le in *.
      assert (Heq : Str.lower x = Str.lower y) by (apply (anti_symm String.le); assumption).
      exfalso. apply Hxkey. rewrite Heq.
      apply list_elem_of_In. apply in_map. apply list_elem_of_In. exact Hyin. }
    f_equal. apply IH; try assumption. apply (Permutation_cons_inv Hperm).
Qed.

(** X4. When the variables are ASCII names no two of which are equal up
    to case, the result of [parse_openapi_spec] does not depend on the
    order in which Python enumerates the set of variables: two
    enumerations give the same [all_service_variables]. *)
Theorem variables_independent_of_set_order
  (list_of_set list_of_set' : list string -> list string)
  (list_of_set_perm : forall s, Permutation (list_of_set s) s)
  (list_of_set_perm' : forall s, Permutation (list_of_set' s) s)
  (spec : specification) r r' :
  parse_openapi_spec list_of_set (Some spec) = Ok r ->
  parse_openapi_spec list_of_set' (Some spec) = Ok r' ->
  Forall (fun v => Str.is_ascii v = true) (snd r) ->
  NoDup (List.map Str.lower (snd r)) ->
  r = r'.
Proof.
  destruct r as [[[success servers] sd] asv], r' as [[[success' servers'] sd'] asv'].
  intros Hparse Hparse' _ Hkeys. cbn [snd] in Hkeys.
  pose proof Hparse as H1. pose proof Hparse' as H2.
  unfold parse_openapi_spec in H1, H2.
  apply bind_Ok in H1 as [st [Hwalk H1]]. apply bind_Ok in H2 as [st' [Hwalk' H2]].
  rewrite Hwalk in Hwalk'. injection Hwalk' as <-.
  injection H1 as <- <- <- <-. injection H2 as <- <- <- <-.
  f_equal. apply sorted_lower_unique.
  - apply sorted_lower_Sorted.
  - apply sorted_lower_Sorted.
  - rewrite !sorted_lower_perm, list_of_set_perm, list_of_set_perm'. reflexivity.
  - exact Hkeys.
Qed.

Lemma variables_independent_of_set_order_witness :
  parse_openapi_spec Sample.insertion_order (Some Sample.petstore)
  = parse_openapi_spec (@rev string) (Some Sample.petstore).
Proof.
  destruct (parse_openapi_spec Sample.insertion_order (Some Sample.petstore))
    as [r|e] eqn:Hr; [|vm_compute in Hr; discriminate].
  destruct (parse_openapi_spec (@rev string) (Some Sample.petstore))
    as [r'|e'] eqn:Hr'; [|vm_compute in Hr'; discriminate].
  f_equal.
  apply (variables_independent_of_set_order Sample.insertion_order (@rev string)
           (fun s => Permutation_refl s) (fun s => Permutation_sym (Permutation_rev s))
           Sample.petstore r r' Hr Hr').
  - vm_compute in Hr. injection Hr as <-. repeat constructor.
  - vm_compute in Hr. injection Hr as <-. vm_compute.
    repeat (apply NoDup_cons; split;
            [intros H; repeat (apply elem_of_cons in H as [H|H]; [discriminate|]);
             inversion H|]).
    apply NoDup_nil. exact I.
Defined.

(** ** The sheet, cell by cell *)

Lemma same_at_refl (ws : worksheet) (row col : nat) : same_at ws ws row col.
Proof. split; reflexivity. Qed.

Lemma same_at_trans (ws1 ws2 ws3 : worksheet) (row col : nat) :
  same_at ws1 ws2 row col -> same_at ws2 ws3 row col -> same_at ws1 ws3 row col.
Proof. intros [H1 H2] [H3 H4]. split; congruence. Qed.

Lemma write_same_at (row col : nat) (v : json) (f : format) (ws : worksheet)
  (row' col' : nat) :
  (row, col) <> (row', col') -> same_at (write row col v f ws) ws row' col'.
Proof. intros Hne. split; [apply cells_write_ne; exact Hne | reflexivity]. Qed.

Lemma data_validation_same_at (row col : nat) (values : list json) (ws : worksheet)
  (row' col' : nat) :
  (row, col) <> (row', col') -> same_at (data_validation row col values ws) ws row' col'.
Proof.
  intros Hne. split; [reflexivity|]. unfold data_validation. cbn [validations].
  apply lookup_insert_ne. exact Hne.
Qed.

Lemma set_column_same_at (first last : nat) (width : Z) (ws : worksheet) (row col : nat) :
  same_at (set_column first last width ws) ws row col.
Proof. split; reflexivity. Qed.

Lemma index_lt (x : string) (l : list string) (i : nat) :
  index x l = Some i -> i < length l.
Proof. intros H. apply index_Some in H. apply (lookup_lt_Some _ _ _ H). Qed.

Lemma write_property_same_at (asv : list string) (req : option (list string))
  (add : bool) (row : nat) (ws : worksheet) (prop : string) (pspec : property_spec)
  (row' col' : nat) :
  (forall col, index prop asv = Some col -> (row, col + start_column) <> (row', col')) ->
  same_at (write_property asv req add row ws (prop, pspec)) ws row' col'.
Proof.
  intros Hother. unfold write_property.
  destruct (index prop asv) as [col|]; [|apply same_at_refl].
  specialize (Hother col eq_refl).
  destruct (prop_enum pspec) as [[|v values]|].
  - apply write_same_at. exact Hother.
  - eapply same_at_trans; [apply data_validation_same_at | apply write_same_at]; exact Hother.
  - apply write_same_at. exact Hother.
Qed.

Lemma write_properties_same_at (asv : list string) (req : option (list string))
  (add : bool) (row : nat) (props : list (string * property_spec)) (ws : worksheet)
  (row' col' : nat) :
  (forall prop col, prop ∈ Dict.keys props -> index prop asv = Some col ->
                    (row, col + start_column) <> (row', col')) ->
  same_at (fold_left (write_property asv req add row) props ws) ws row' col'.
Proof.
  revert ws. induction props as [|[p pspec] props IH]; intros ws Hother.
  - apply same_at_refl.
  - cbn [fold_left]. eapply same_at_trans.
    + apply IH. intros prop col Hin. apply Hother.
      unfold Dict.keys in *. cbn [List.map fst]. apply elem_of_cons. auto.
    + apply write_property_same_at. intros col. apply Hother.
      unfold Dict.keys. cbn [List.map fst]. apply elem_of_cons. auto.
Qed.

(** The six leading writes of a row, and then the properties. *)
Lemma write_test_case_unfold (lists : tag_lists)
  (asv : list string) (add : bool) (ws : worksheet) (row : nat)
  (name operation endpoint : string) (tc : test_case) :
  fst (write_test_case lists asv add (ws, row) ((name, operation, endpoint), tc))
  = match true_properties tc with
    | Some props => fold_left (write_property asv (required tc) add row) props
    | None => fun sheet => sheet
    end
      (write row 5 (expected_status_code tc) test_case_cell_format
         (write row 4 (JStr (Str.upper operation)) test_case_cell_format
            (write row 3 (JStr name) test_case_cell_format
               (write row 2 (JStr (tags_csv lists (tags tc))) test_case_cell_format
                  (write row 1 (JStr (summary tc)) test_case_cell_format
                     (write row 0 (JStr name) test_case_cell_format ws)))))).
Proof.
  unfold write_test_case, true_properties. cbn [fst].
  destruct (properties tc) as [[|p props]|]; reflexivity.
Qed.

Lemma write_test_case_same_at (lists : tag_lists) (asv : list string) (add : bool) (ws : worksheet)
  (row : nat) (key : service_key) (tc : test_case) (row' col' : nat) :
  row' <> row \/ no_property_at asv tc col' ->
  same_at (fst (write_test_case lists asv add (ws, row) (key, tc))) ws row' col'.
Proof.
  intros Hcond. destruct key as [[name operation] endpoint].
  rewrite write_test_case_unfold.
  assert (Hhead : forall c v f ws0, c < start_column ->
             same_at (write row c v f ws0) ws0 row' col').
  { intros c v f ws0 Hc. apply write_same_at. intros Heq. injection Heq as <- <-.
    destruct Hcond as [Hne|[Hcol _]]; [congruence | lia]. }
  assert (Hsix : same_at
                   (write row 5 (expected_status_code tc) test_case_cell_format
                      (write row 4 (JStr (Str.upper operation)) test_case_cell_format
                         (write row 3 (JStr name) test_case_cell_format
                            (write row 2 (JStr (tags_csv lists (tags tc))) test_case_cell_format
                               (write row 1 (JStr (summary tc)) test_case_cell_format
                                  (write row 0 (JStr name) test_case_cell_format ws))))))
                   ws row' col').
  { repeat (eapply same_at_trans; [apply Hhead; unfold start_column; lia|]).
    apply same_at_refl. }
  destruct (true_properties tc) as [props|] eqn:Hprops; [|exact Hsix].
  eapply same_at_trans; [|exact Hsix].
  apply write_properties_same_at. intros prop col Hin Hcol Heq. injection Heq as <- <-.
  destruct Hcond as [Hne|[_ Hno]]; [congruence|].
  apply (Hno props prop Hprops Hin). rewrite Hcol. f_equal. lia.
Qed.

(** The loop over the test cases leaves a cell alone when no test case
    touches it in its own row. *)
Lemma write_test_cases_same_at (lists : tag_lists) (asv : list string) (add : bool)
  (test_cases : service_dict) (ws : worksheet) (row row' col' : nat) :
  (forall i key tc, test_cases !! i = Some (key, tc) ->
                    row' <> row + i \/ no_property_at asv tc col') ->
  same_at (fst (fold_left (write_test_case lists asv add) test_cases (ws, row))) ws row' col'.
Proof.
  revert ws row. induction test_cases as [|[key tc] test_cases IH]; intros ws row Hcond.
  - apply same_at_refl.
  - cbn [fold_left].
    destruct (write_test_case lists asv add (ws, row) (key, tc)) as [ws1 row1] eqn:Hstep.
    assert (row1 = row + 1) as ->
      by (rewrite <- (write_test_case_row lists asv add ws row (key, tc)), Hstep; reflexivity).
    eapply same_at_trans.
    + apply IH. intros i key' tc' Hi.
      replace (row + 1 + i) with (row + S i) by lia. apply (Hcond (S i) key' tc' Hi).
    + replace ws1 with (fst (write_test_case lists asv add (ws, row) (key, tc)))
        by (rewrite Hstep; reflexivity).
      apply write_test_case_same_at.
      replace row with (row + 0) at 1 by lia. apply (Hcond 0 key tc eq_refl).
Qed.

(** The row of the test case at position [i] is, in the end, what the
    round of that test case made of it. *)
Lemma write_test_cases_round (lists : tag_lists) (asv : list string) (add : bool)
  (test_cases : service_dict) (ws : worksheet) (row i : nat) (entry : service_key * test_case) :
  test_cases !! i = Some entry ->
  exists ws_i,
    (forall col, same_at ws_i ws (row + i) col) /\
    forall col,
      same_at (fst (fold_left (write_test_case lists asv add) test_cases (ws, row)))
        (fst (write_test_case lists asv add (ws_i, row + i) entry)) (row + i) col.
Proof.
  revert ws row i. induction test_cases as [|[key tc] test_cases IH]; intros ws row i Hi.
  - inversion Hi.
  - cbn [fold_left].
    destruct (write_test_case lists asv add (ws, row) (key, tc)) as [ws1 row1] eqn:Hstep.
    assert (row1 = row + 1) as ->
      by (rewrite <- (write_test_case_row lists asv add ws row (key, tc)), Hstep; reflexivity).
    assert (Hws1 : ws1 = fst (write_test_case lists asv add (ws, row) (key, tc)))
      by (rewrite Hstep; reflexivity).
    destruct i as [|i].
    + injection Hi as <-. exists ws. replace (row + 0) with row by lia.
      split; [intros; apply same_at_refl|]. intros col. rewrite <- Hws1.
      apply write_test_cases_same_at. intros j key' tc' _. left. lia.
    + cbn in Hi. destruct (IH ws1 (row + 1) i Hi) as [ws_i [Hbefore Hround]].
      replace (row + S i) with (row + 1 + i) by lia.
      exists ws_i. split; [|exact Hround].
      intros col. eapply same_at_trans; [apply Hbefore|]. rewrite Hws1.
      apply write_test_case_same_at. left. lia.
Qed.

(** The background fill: blank cells in the area of the variables,
    nothing elsewhere. *)
Lemma fill_row_cells (row : nat) (cols : list nat) (ws : worksheet) (row' col' : nat) :
  cells (fold_left (fun ws col => write row col (JStr "") test_variables_cell_format ws)
           cols ws) !! (row', col')
  = if bool_decide (row' = row /\ col' ∈ cols)
    then Some {| content := JStr ""; fmt := test_variables_cell_format |}
    else cells ws !! (row', col').
Proof.
  revert ws. induction cols as [|c cols IH]; intros ws; cbn [fold_left].
  - rewrite bool_decide_eq_false_2; [reflexivity|]. intros [_ H]. inversion H.
  - rewrite IH. destruct (bool_decide_reflect (row' = row /\ col' ∈ cols)) as [[-> Hin]|Hnot].
    + rewrite bool_decide_eq_true_2; [reflexivity|]. split; [reflexivity|].
      apply elem_of_cons. auto.
    + destruct (decide ((row, c) = (row', col'))) as [Heq|Hne].
      * injection Heq as <- <-. rewrite cells_write_eq.
        rewrite bool_decide_eq_true_2; [reflexivity|].
        split; [reflexivity | apply elem_of_cons; auto].
      * rewrite (cells_write_ne _ _ _ _ _ _ _ Hne).
        rewrite bool_decide_eq_false_2; [reflexivity|].
        intros [-> Hin]. apply elem_of_cons in Hin as [->|Hin]; [congruence|].
        apply Hnot. auto.
Qed.

Lemma fill_row_validations (row : nat) (cols : list nat) (ws : worksheet) :
  validations (fold_left (fun ws col => write row col (JStr "") test_variables_cell_format ws)
                 cols ws)
  = validations ws.
Proof.
  revert ws. induction cols as [|c cols IH]; intros ws; cbn [fold_left]; [reflexivity|].
  rewrite IH. reflexivity.
Qed.

Lemma fill_background_cells (maxrow maxcol : nat) (ws : worksheet) (row col : nat) :
  cells (fill_background maxrow maxcol ws) !! (row, col)
  = if bool_decide (1 <= row <= maxrow /\ start_column <= col < maxcol)
    then Some {| content := JStr ""; fmt := test_variables_cell_format |}
    else cells ws !! (row, col).
Proof.
  unfold fill_background.
  assert (Hrows : forall rows ws0,
             cells (fold_left
                      (fun ws row =>
                         fold_left
                           (fun ws col =>
                              write row col (JStr "") test_variables_cell_format ws)
                           (seq start_column (maxcol - start_column)) ws)
                      rows ws0) !! (row, col)
             = if bool_decide (row ∈ rows /\ start_column <= col < maxcol)
               then Some {| content := JStr ""; fmt := test_variables_cell_format |}
               else cells ws0 !! (row, col)).
  { induction rows as [|r rows IH]; intros ws0; cbn [fold_left].
    - rewrite bool_decide_eq_false_2; [reflexivity|]. intros [H _]. inversion H.
    - rewrite IH, fill_row_cells.
      destruct (bool_decide_reflect (row ∈ rows /\ start_column <= col < maxcol))
        as [[Hin Hc]|Hnot].
      + rewrite bool_decide_eq_true_2; [reflexivity|].
        split; [apply elem_of_cons; auto | exact Hc].
      + destruct (bool_decide_reflect
                    (row = r /\ col ∈ seq start_column (maxcol - start_column)))
          as [[-> Hin]|Hnot'].
        * rewrite bool_decide_eq_true_2; [reflexivity|].
          split; [apply elem_of_cons; auto|]. apply elem_of_seq in Hin. lia.
        * rewrite bool_decide_eq_false_2; [reflexivity|].
          intros [Hin Hc]. apply elem_of_cons in Hin as [->|Hin]; [|apply Hnot; auto].
          apply Hnot'. split; [reflexivity|]. apply elem_of_seq. lia. }
  rewrite Hrows.
  rewrite (bool_decide_ext (row ∈ seq 1 maxrow /\ start_column <= col < maxcol)
             (1 <= row <= maxrow /\ start_column <= col < maxcol));
    [reflexivity|].
  rewrite elem_of_seq. lia.
Qed.

Lemma fill_background_validations (maxrow maxcol : nat) (ws : worksheet) :
  validations (fill_background maxrow maxcol ws) = validations ws.
Proof.
  unfold fill_background. generalize (seq 1 maxrow). intros rows. revert ws.
  induction rows as [|r rows IH]; intros ws; cbn [fold_left]; [reflexivity|].
  rewrite IH, fill_row_validations. reflexivity.
Qed.

Lemma write_excel_test_case_data_same_at (lists : tag_lists) (ws : worksheet) (asv : list string)
  (test_cases : service_dict) (add : bool) (row col : nat) :
  same_at (fst (write_excel_test_case_data lists ws asv test_cases add))
    (fst (fold_left (write_test_case lists asv add) test_cases
            (fill_background (length test_cases) (start_column + length asv) ws, 1)))
    row col.
Proof.
  unfold write_excel_test_case_data.
  destruct (fold_left (write_test_case lists asv add) test_cases _) as [ws1 row1].
  cbn [fst]. split; reflexivity.
Qed.

(** The six leading cells of the row a test case writes. *)
Lemma write_test_case_leading (lists : tag_lists)
  (asv : list string) (add : bool) (ws : worksheet) (row : nat)
  (name operation endpoint : string) (tc : test_case) (col : nat) (v : json) :
  nth_error [JStr name; JStr (summary tc); JStr (tags_csv lists (tags tc)); JStr name;
             JStr (Str.upper operation); expected_status_code tc] col = Some v ->
  cells (fst (write_test_case lists asv add (ws, row) ((name, operation, endpoint), tc)))
    !! (row, col)
  = Some {| content := v; fmt := test_case_cell_format |}.
Proof.
  intros Hv. rewrite write_test_case_unfold.
  assert (Hcol : col < start_column).
  { destruct col as [|[|[|[|[|[|[|col]]]]]]]; cbn in Hv; try discriminate;
      unfold start_column; lia. }
  assert (Hprops : forall props sheet,
             cells (fold_left (write_property asv (required tc) add row) props sheet)
               !! (row, col) = cells sheet !! (row, col)).
  { intros props sheet. apply write_properties_same_at.
    intros prop c _ _ Heq. injection Heq as Heq. lia. }
  assert (Hsix : cells
                   (write row 5 (expected_status_code tc) test_case_cell_format
                      (write row 4 (JStr (Str.upper operation)) test_case_cell_format
                         (write row 3 (JStr name) test_case_cell_format
                            (write row 2 (JStr (tags_csv lists (tags tc))) test_case_cell_format
                               (write row 1 (JStr (summary tc)) test_case_cell_format
                                  (write row 0 (JStr name) test_case_cell_format ws))))))
                   !! (row, col)
                 = Some {| content := v; fmt := test_case_cell_format |}).
  { destruct col as [|[|[|[|[|[|[|col]]]]]]]; cbn in Hv; try discriminate;
      injection Hv as <-;
      repeat (first [ apply cells_write_eq
                    | rewrite cells_write_ne by (intros Heq; discriminate) ]). }
  destruct (true_properties tc) as [props|]; [rewrite Hprops|]; exact Hsix.
Qed.

(** X5. The row of the test case at position [i] (row 1 + [i] of the
    sheet) starts, in the format of the test case cells, with: the
    operation id, the summary, the tags joined by commas, the operation id
    again, the HTTP method in upper case, and the expected status code.
    No later write changes these cells. *)
Theorem leading_cells_of_test_case (lists : tag_lists)
  (ws : worksheet) (all_service_variables : list string)
  (test_cases : service_dict) (add_example_data : bool) (i : nat)
  (test_case_name test_case_operation test_case_endpoint : string) (tc : test_case) :
  test_cases !! i
  = Some ((test_case_name, test_case_operation, test_case_endpoint), tc) ->
  let sheet := fst (write_excel_test_case_data lists ws all_service_variables test_cases
                      add_example_data) in
  let leading v := Some {| content := v; fmt := test_case_cell_format |} in
  cells sheet !! (1 + i, 0) = leading (JStr test_case_name)
  /\ cells sheet !! (1 + i, 1) = leading (JStr (summary tc))
  /\ (forall ref, tags tc = TagsList ref ->
                  cells sheet !! (1 + i, 2)
                  = leading (JStr (Str.join "," (tag_list lists ref))))
  /\ (tags tc = TagsStr "" -> cells sheet !! (1 + i, 2) = leading (JStr ""))
  /\ cells sheet !! (1 + i, 3) = leading (JStr test_case_name)
  /\ cells sheet !! (1 + i, 4) = leading (JStr (Str.upper test_case_operation))
  /\ cells sheet !! (1 + i, 5) = leading (expected_status_code tc).
Proof.
  intros Hi sheet leading.
  destruct (write_test_cases_round lists all_service_variables add_example_data test_cases
              (fill_background (length test_cases)
                 (start_column + length all_service_variables) ws) 1 i _ Hi)
    as [ws_i [_ Hround]].
  assert (Hcell : forall col v,
             nth_error [JStr test_case_name; JStr (summary tc); JStr (tags_csv lists (tags tc));
                        JStr test_case_name; JStr (Str.upper test_case_operation);
                        expected_status_code tc] col = Some v ->
             cells sheet !! (1 + i, col) = leading v).
  { intros col v Hv. unfold sheet.
    rewrite (proj1 (write_excel_test_case_data_same_at _ _ _ _ _ _ _)).
    rewrite (proj1 (Hround col)). apply write_test_case_leading. exact Hv. }
  repeat split; try (apply Hcell; reflexivity).
  - intros l Htags. rewrite (Hcell 2 _ eq_refl), Htags. reflexivity.
  - intros Htags. rewrite (Hcell 2 _ eq_refl), Htags. reflexivity.
Qed.

Lemma leading_cells_of_test_case_witness :
  let tc := {| properties := None; required := None; example := None;
               tags := TagsList 7; summary := "Add a new pet";
               description := ""; expected_status_code := JNum 200 |} in
  let sheet := fst (write_excel_test_case_data {[ 7 := ["pet"; "store"] ]}
                      empty_worksheet ["id"] [(("addPet", "post", "/pet"), tc)] false) in
  cells sheet !! (1 + 0, 2)
  = Some {| content := JStr "pet,store"; fmt := test_case_cell_format |}
  /\ cells sheet !! (1 + 0, 4)
     = Some {| content := JStr "POST"; fmt := test_case_cell_format |}.
Proof.
  intros tc sheet.
  destruct (leading_cells_of_test_case {[ 7 := ["pet"; "store"] ]} empty_worksheet ["id"]
              [(("addPet", "post", "/pet"), tc)] false 0 "addPet" "post" "/pet" tc eq_refl)
    as (_ & _ & Htags & _ & _ & Hmethod & _).
  split; [apply (Htags 7); reflexivity | exact Hmethod].
Defined.

(** X6. In the row of a test case, the cell of a variable that is not
    among the (true) properties of that test case stays as the background
    fill left it: empty, in the format of the variable area. *)
Theorem unused_variable_cell_is_blank (lists : tag_lists) (ws : worksheet)
  (all_service_variables : list string) (test_cases : service_dict)
  (add_example_data : bool) (i : nat) (key : service_key) (tc : test_case)
  (col : nat) (variable : string) :
  test_cases !! i = Some (key, tc) ->
  all_service_variables !! col = Some variable ->
  (forall props, true_properties tc = Some props -> variable ∉ Dict.keys props) ->
  cells (fst (write_excel_test_case_data lists ws all_service_variables test_cases
                add_example_data)) !! (1 + i, start_column + col)
  = Some {| content := JStr ""; fmt := test_variables_cell_format |}.
Proof.
  intros Hi Hvar Hunused.
  rewrite (proj1 (write_excel_test_case_data_same_at _ _ _ _ _ _ _)).
  destruct (write_test_cases_round lists all_service_variables add_example_data test_cases
              (fill_background (length test_cases)
                 (start_column + length all_service_variables) ws) 1 i _ Hi)
    as [ws_i [Hbefore Hround]].
  rewrite (proj1 (Hround _)).
  assert (Hno : no_property_at all_service_variables tc (start_column + col)).
  { split; [lia|]. intros props prop Hprops Hin Hindex.
    replace (start_column + col - start_column) with col in Hindex by lia.
    apply index_Some in Hindex. rewrite Hvar in Hindex. injection Hindex as ->.
    apply (Hunused props Hprops Hin). }
  rewrite (proj1 (write_test_case_same_at lists all_service_variables add_example_data ws_i
                    (1 + i) key tc (1 + i) (start_column + col) (or_intror Hno))).
  rewrite (proj1 (Hbefore _)), fill_background_cells.
  rewrite bool_decide_eq_true_2; [reflexivity|].
  apply lookup_lt_Some in Hi. apply lookup_lt_Some in Hvar. lia.
Qed.

Lemma unused_variable_cell_is_blank_witness :
  let tc := {| properties := Some [("name", Sample.text_property)];
               required := Some ["name"]; example := None;
               tags := TagsList 0; summary := ""; description := "";
               expected_status_code := JNum 200 |} in
  cells (fst (write_excel_test_case_data Sample.pet_tags empty_worksheet ["id"; "name"]
                [(("addPet", "post", "/pet"), tc)] false)) !! (1 + 0, start_column + 0)
  = Some {| content := JStr ""; fmt := test_variables_cell_format |}.
Proof.
  intros tc.
  apply (unused_variable_cell_is_blank Sample.pet_tags empty_worksheet ["id"; "name"]
           [(("addPet", "post", "/pet"), tc)] false 0 ("addPet", "post", "/pet") tc 0 "id").
  - reflexivity.
  - reflexivity.
  - intros props [= <-] Hin. apply list_elem_of_singleton in Hin. discriminate.
Defined.

(** The cell of a property after the loop over the properties of a
    dictionary: what the round of that property wrote. *)
Lemma write_properties_own (asv : list string) (req : option (list string))
  (add : bool) (row : nat) (props : list (string * property_spec)) (ws : worksheet)
  (prop : string) (pspec : property_spec) (col : nat) :
  NoDup (Dict.keys props) ->
  (prop, pspec) ∈ props ->
  index prop asv = Some col ->
  same_at (fold_left (write_property asv req add row) props ws)
    (write_property asv req add row ws (prop, pspec)) row (col + start_column).
Proof.
  intros Hnd Hin Hcol.
  apply list_elem_of_split in Hin as (p1 & p2 & ->).
  unfold Dict.keys in Hnd. rewrite map_app in Hnd. cbn [List.map fst] in Hnd.
  apply NoDup_app in Hnd as (_ & Hfresh1 & Hnd). apply NoDup_cons in Hnd as [Hfresh2 _].
  assert (Hother : forall l : list (string * property_spec), prop ∉ List.map fst l ->
             forall p c, p ∈ Dict.keys l -> index p asv = Some c ->
                         (row, c + start_column) <> (row, col + start_column)).
  { intros l Hfresh p c Hp Hc Heq. injection Heq as Heq.
    assert (c = col) as -> by lia. rewrite (index_inj _ _ _ _ Hc Hcol) in Hp.
    apply Hfresh. exact Hp. }
  rewrite fold_left_app. cbn [fold_left].
  eapply same_at_trans.
  { apply write_properties_same_at. apply (Hother p2 Hfresh2). }
  assert (Hbefore : same_at (fold_left (write_property asv req add row) p1 ws) ws
                      row (col + start_column)).
  { apply write_properties_same_at. apply (Hother p1).
    intros Hin. apply (Hfresh1 prop Hin). apply elem_of_cons. auto. }
  unfold write_property. rewrite Hcol. destruct Hbefore as [_ Hval].
  destruct (prop_enum pspec) as [[|v values]|]; split;
    cbn [cells validations write data_validation];
    rewrite ?lookup_insert_eq; try reflexivity; exact Hval.
Qed.

(** X7. The cell of a property of a test case: what is written to it is
    the example of the property when example data was asked for and the
    property has an example, and the empty string otherwise; and the list
    validation attached to it has the values of a non-empty [enum],
    whether or not example data was asked for (without such an [enum] the
    validation of the cell is left as it was).  This is stated for calls
    that xlsxwriter accepts: the cell lies within the limits of a sheet,
    no example is a list or a dictionary when example data was asked for
    (else [write] raises [TypeError]), and the values of the [enum] are
    strings that, joined by commas, take at most 255 characters (else the
    validation is refused). *)
Theorem property_cell_content_and_validation (lists : tag_lists) (ws : worksheet)
  (all_service_variables : list string) (test_cases : service_dict)
  (add_example_data : bool) (i : nat) (key : service_key) (tc : test_case)
  (props : list (string * property_spec)) (prop : string) (pspec : property_spec)
  (col : nat) :
  test_cases !! i = Some (key, tc) ->
  properties tc = Some props ->
  NoDup (Dict.keys props) ->
  (prop, pspec) ∈ props ->
  index prop all_service_variables = Some col ->
  (Z.of_nat (1 + i) < xls_rowmax)%Z ->
  (Z.of_nat (col + start_column) < xls_colmax)%Z ->
  (add_example_data = true ->
   Forall (fun value => scalar value = true) (property_examples test_cases)) ->
  (forall values,
      prop_enum pspec = Some values ->
      exists texts, enum_texts values = Some texts /\
                    String.length (Str.join "," texts) <= validation_list_max) ->
  let sheet := fst (write_excel_test_case_data lists ws all_service_variables test_cases
                      add_example_data) in
  option_map content (cells sheet !! (1 + i, col + start_column))
  = Some (match add_example_data, prop_example pspec with
          | true, Some value => value
          | _, _ => JStr ""
          end)
  /\ validations sheet !! (1 + i, col + start_column)
     = match prop_enum pspec with
       | Some ((_ :: _) as values) => Some values
       | _ => validations ws !! (1 + i, col + start_column)
       end.
Proof.
  intros Hi Hprops Hnd Hin Hcol _ _ _ _ sheet.
  destruct (write_test_cases_round lists all_service_variables add_example_data test_cases
              (fill_background (length test_cases)
                 (start_column + length all_service_variables) ws) 1 i _ Hi)
    as [ws_i [Hbefore Hround]].
  assert (Htrue : true_properties tc = Some props).
  { unfold true_properties. rewrite Hprops. destruct props; [inversion Hin | reflexivity]. }
  destruct key as [[name operation] endpoint].
  assert (Hsame : same_at sheet
                    (write_property all_service_variables (required tc) add_example_data
                       (1 + i)
                       (write (1 + i) 5 (expected_status_code tc) test_case_cell_format
                          (write (1 + i) 4 (JStr (Str.upper operation)) test_case_cell_format
                             (write (1 + i) 3 (JStr name) test_case_cell_format
                                (write (1 + i) 2 (JStr (tags_csv lists (tags tc)))
                                   test_case_cell_format
                                   (write (1 + i) 1 (JStr (summary tc))
                                      test_case_cell_format
                                      (write (1 + i) 0 (JStr name) test_case_cell_format
                                         ws_i))))))
                       (prop, pspec))
                    (1 + i) (col + start_column)).
  { eapply same_at_trans; [apply write_excel_test_case_data_same_at|].
    eapply same_at_trans; [apply Hround|].
    rewrite write_test_case_unfold, Htrue.
    apply write_properties_own; assumption. }
  destruct Hsame as [Hcells Hvals]. rewrite Hcells, Hvals.
  unfold write_property. rewrite Hcol.
  assert (Hold : validations ws_i !! (1 + i, col + start_column)
                 = validations ws !! (1 + i, col + start_column)).
  { rewrite (proj2 (Hbefore _)), fill_background_validations. reflexivity. }
  split.
  - destruct (prop_enum pspec) as [[|v values]|];
      cbn [cells write data_validation]; rewrite lookup_insert_eq; cbn [option_map content];
      destruct add_example_data, (prop_example pspec); reflexivity.
  - destruct (prop_enum pspec) as [[|v values]|];
      cbn [validations write data_validation]; rewrite ?lookup_insert_eq;
      try reflexivity; exact Hold.
Qed.

Lemma property_cell_content_and_validation_witness :
  let tc := {| properties := Some [("name", Sample.text_property);
                                   ("Status", Sample.status_property)];
               required := Some ["name"]; example := None;
               tags := TagsList 0; summary := ""; description := "";
               expected_status_code := JNum 200 |} in
  let sheet := fst (write_excel_test_case_data Sample.pet_tags empty_worksheet
                      ["name"; "Status"] [(("addPet", "post", "/pet"), tc)] true) in
  option_map content (cells sheet !! (1, 7)) = Some (JStr "available")
  /\ validations sheet !! (1, 7) = Some [JStr "available"; JStr "sold"].
Proof.
  intros tc sheet.
  apply (property_cell_content_and_validation Sample.pet_tags empty_worksheet
           ["name"; "Status"] [(("addPet", "post", "/pet"), tc)] true 0
           ("addPet", "post", "/pet") tc
           [("name", Sample.text_property); ("Status", Sample.status_property)]
           "Status" Sample.status_property 1).
  - reflexivity.
  - reflexivity.
  - apply (bool_decide_unpack _). vm_compute. exact I.
  - apply elem_of_cons. right. apply elem_of_cons. left. reflexivity.
  - reflexivity.
  - unfold xls_rowmax. lia.
  - unfold xls_colmax, start_column. lia.
  - intros _. repeat constructor.
  - intros values [= <-]. exists ["available"; "sold"]. split; [reflexivity|].
    apply Nat.leb_le. reflexivity.
Defined.

Lemma header_loop_same_at (l : list string) (ws : worksheet) (col row' col' : nat) :
  row' <> 0 \/ col' < col \/ col + length l <= col' ->
  same_at (fst (fold_left write_header_variable l (ws, col))) ws row' col'.
Proof.
  revert ws col. induction l as [|v l IH]; intros ws col Hout.
  - apply same_at_refl.
  - cbn [fold_left write_header_variable]. cbn [length] in Hout.
    eapply same_at_trans.
    + apply IH. lia.
    + apply write_same_at. intros Heq. injection Heq as <- <-. lia.
Qed.

(** X8. The dimensions the two sheet writers return bound what they
    write: [maxcol] is 6 plus the number of variables, [maxrow] the number
    of test cases, no cell of a row below [maxrow] or of a column from
    [maxcol] on is touched, and the test case data leave the header row as
    [write_excel_header] wrote it. *)
Theorem sheet_writes_within_dimensions (lists : tag_lists) (ws : worksheet)
  (all_service_variables : list string) (test_cases : service_dict)
  (add_example_data : bool) :
  let header := write_excel_header ws all_service_variables in
  let data := write_excel_test_case_data lists (fst header) all_service_variables test_cases
                add_example_data in
  snd header = 6 + length all_service_variables
  /\ snd data = length test_cases
  /\ (forall row col, snd data < row \/ snd header <= col ->
                      same_at (fst data) ws row col)
  /\ (forall col, same_at (fst data) (fst header) 0 col).
Proof.
  intros header data.
  assert (Hmaxcol : snd header = 6 + length all_service_variables).
  { unfold header, write_excel_header.
    destruct (fold_left write_header_variable _ _). reflexivity. }
  assert (Hmaxrow : snd data = length test_cases).
  { unfold data, write_excel_test_case_data.
    destruct (fold_left (write_test_case _ _ _) _ _). reflexivity. }
  assert (Hdata : forall sheet row col,
             row = 0 \/ length test_cases < row
             \/ start_column + length all_service_variables <= col ->
             same_at (fst (write_excel_test_case_data lists sheet all_service_variables
                             test_cases add_example_data)) sheet row col).
  { intros sheet row col Hout.
    eapply same_at_trans; [apply write_excel_test_case_data_same_at|].
    eapply same_at_trans.
    - apply write_test_cases_same_at. intros i key tc Hi.
      apply lookup_lt_Some in Hi.
      destruct (decide (row = 1 + i)) as [->|Hne]; [|auto].
      right. split; [lia|]. intros props prop _ _ Hindex.
      apply index_lt in Hindex. lia.
    - split; [|rewrite fill_background_validations; reflexivity].
      rewrite fill_background_cells. rewrite bool_decide_eq_false_2; [reflexivity|]. lia. }
  split; [exact Hmaxcol|]. split; [exact Hmaxrow|]. split.
  - intros row col Hout. rewrite Hmaxrow, Hmaxcol in Hout.
    eapply same_at_trans.
    + apply Hdata. unfold start_column. lia.
    + unfold header, write_excel_header.
      set (ws6 := write 0 5 _ _ _).
      pose proof (header_loop_same_at all_service_variables ws6 start_column row col) as Hloop.
      destruct (fold_left write_header_variable all_service_variables (ws6, start_column))
        as [ws' col'].
      cbn [fst] in *. destruct Hout as [Hrow|Hcol].
      * eapply same_at_trans; [apply Hloop; lia|]. unfold ws6.
        repeat (eapply same_at_trans;
                [apply write_same_at; intros Heq; injection Heq as <- <-; lia|]).
        apply same_at_refl.
      * eapply same_at_trans; [apply Hloop; unfold start_column; lia|]. unfold ws6.
        repeat (eapply same_at_trans;
                [apply write_same_at; intros Heq; injection Heq as <- <-; lia|]).
        apply same_at_refl.
  - intros col. apply Hdata. auto.
Qed.

(** ** The Jira mirror: the requests it sends *)

Lemma create_jira_item_ticket (resp : option response) (expected : Z)
  (jira_ticket_id : option string) :
  create_jira_item resp expected true = Ok (true, jira_ticket_id) ->
  exists key, jira_ticket_id = Some key.
Proof.
  unfold create_jira_item. destruct resp as [r|]; [|discriminate].
  destruct (negb (response_ok r)); [discriminate|].
  destruct (negb (status_code r =? expected)%Z); [discriminate|]. cbn [negb].
  destruct (json_body r) as [json_response|]; [|discriminate].
  destruct (negb (body_true json_response)); [discriminate|].
  destruct json_response as [members|items|s|z|b|]; try discriminate.
  - destruct (Dict.get "key" members) as [key|]; [|discriminate].
    intros [= <-]. eauto.
  - destruct (existsb is_key_text items); discriminate.
  - destruct (Str.contains "key" s); discriminate.
Qed.

(** Without the extraction of a ticket [create_jira_item] looks at the
    status only and does not raise. *)
Lemma create_jira_item_plain (resp : option response) (expected : Z) :
  exists success, create_jira_item resp expected false = Ok (success, None).
Proof.
  unfold create_jira_item. destruct resp as [r|]; [|eauto].
  destruct (negb (response_ok r)); [eauto|].
  destruct (negb (status_code r =? expected)%Z); eauto.
Qed.

(** X11. The requests of the mirror.  With both Jira templates read, a
    run that returns has sent one request per test case to the issue URL.
    If no ticket was created it reports failure and has sent nothing
    more.  Otherwise it has sent the test execution exactly once; when
    that ticket is created, a single link request to the test list of the
    execution follows, its body the JSON object with the one member
    [add], the array of the created tickets in their order, and the
    result of that request is the result of the run; when it is not
    created, the run reports failure.  (The ticket keys are plain: they
    hold nothing that JSON escapes.) *)
Theorem mirror_requests (w : world) (lists lists' : tag_lists) (test_cases : service_dict)
  (openapi_filename jira_test_template jira_test_execution_template : string)
  (success : bool) (requests : list effect) :
  read_template_file_from_disk w (path_join "templates" "template_jira_test_case")
  = (true, Some jira_test_template) ->
  read_template_file_from_disk w (path_join "templates" "template_jira_test_execution")
  = (true, Some jira_test_execution_template) ->
  create_jira_tickets w lists test_cases openapi_filename = Ok (success, lists', requests) ->
  let n := length test_cases in
  let tickets := created_tickets (http w) n in
  Forall (fun ticket => plain_key ticket = true) tickets ->
  let issues := "https://jira.acme.com:443/jira/rest/api/2/issue/" in
  let quote := String "034" "" in
  let execution_request :=
    HttpPost issues
      (Str.replace "REPLACE_API_NAME_REPLACE" openapi_filename
         jira_test_execution_template) in
  exists posts,
    length posts = n /\
    Forall (fun e => exists body, e = HttpPost issues body) posts /\
    match tickets with
    | [] => success = false /\ requests = posts
    | _ :: _ =>
        match create_jira_item (nth n (http w) None) 201 true with
        | Ok (true, Some execution) =>
            requests
            = app posts
                [execution_request;
                 HttpPost ("https://jira.acme.com:443/jira/rest/raven/1.0/api/testexec/"
                           ++ execution ++ "/test")
                   ("{" ++ quote ++ "add" ++ quote ++ ": ["
                    ++ Str.join ", "
                         (List.map (fun ticket => quote ++ ticket ++ quote) tickets)
                    ++ "]}")]
            /\ create_jira_item (nth (n + 1) (http w) None) 200 false = Ok (success, None)
        | _ => requests = app posts [execution_request] /\ success = false
        end
    end.
Proof.
  intros Htest Hexec Hrun n tickets _ issues quote execution_request.
  unfold create_jira_tickets in Hrun.
  rewrite Htest, Hexec in Hrun. apply bind_Ok in Hrun as [st [Hloop Hrun]].
  apply bind_Ok in Hrun as [[s sent'] [Hexecution Hrun]]. injection Hrun as -> _ ->.
  apply create_test_tickets_state in Hloop
    as (Hnth & Htickets & _ & _ & posts & Hsent & Hposts & Hall).
  cbn [net jira_test_tickets sent app] in *.
  exists posts. split; [exact Hposts|]. split; [exact Hall|].
  unfold create_test_execution in Hexecution. rewrite Htickets in Hexecution.
  fold n tickets in Hexecution.
  destruct tickets as [|ticket tickets'] eqn:Hcreated.
  - injection Hexecution as <- <-. split; [reflexivity | exact Hsent].
  - rewrite !post_nth, nth_tl in Hexecution. rewrite !Hnth in Hexecution.
    replace (length test_cases + 0) with n in Hexecution by (unfold n; lia).
    replace (length test_cases + 1) with (n + 1) in Hexecution by (unfold n; lia).
    destruct (create_jira_item (nth n (http w) None) 201 true)
      as [[[|] execution]|e] eqn:Hitem; cbn [bind] in Hexecution; [| |discriminate].
    + destruct (create_jira_item_ticket _ _ _ Hitem) as [key ->].
      destruct (create_jira_item_plain (nth (n + 1) (http w) None) 200) as [linked Hlink].
      rewrite Hlink in Hexecution. cbn [bind fst] in Hexecution.
      injection Hexecution as <- <-. rewrite Hsent, <- app_assoc.
      split; [reflexivity | exact Hlink].
    + injection Hexecution as <- <-. rewrite Hsent.
      destruct execution; split; reflexivity.
Qed.

Lemma mirror_requests_witness :
  let w := Sample.make_world Sample.petstore []
             [Sample.created "PET-1"; Sample.created "PET-2"; Sample.created "EXEC-1";
              Some {| status_code := 200; json_body := None |}] in
  let record operationid :=
    ((operationid, "get", "/pet"),
     {| properties := None; required := None; example := None;
        tags := TagsList 0; summary := ""; description := "";
        expected_status_code := JNum 200 |}) in
  let quote := String "034" "" in
  exists posts,
    length posts = 2 /\
    match create_jira_tickets w Sample.pet_tags [record "getPets"; record "getPet"]
            "petstore.json" with
    | Ok (success, _, requests) =>
        success = true /\
        requests
        = app posts
            [HttpPost "https://jira.acme.com:443/jira/rest/api/2/issue/"
               ("{" ++ quote ++ "summary" ++ quote ++ ": " ++ quote ++ "petstore.json"
                ++ quote ++ "}");
             HttpPost "https://jira.acme.com:443/jira/rest/raven/1.0/api/testexec/EXEC-1/test"
               ("{" ++ quote ++ "add" ++ quote ++ ": [" ++ quote ++ "PET-1" ++ quote
                ++ ", " ++ quote ++ "PET-2" ++ quote ++ "]}")]
    | Raise _ => False
    end.
Proof.
  intros w record quote.
  destruct (create_jira_tickets w Sample.pet_tags [record "getPets"; record "getPet"]
              "petstore.json")
    as [[[success lists'] requests]|e] eqn:Hrun; [|vm_compute in Hrun; discriminate].
  destruct (mirror_requests w Sample.pet_tags lists' [record "getPets"; record "getPet"]
              "petstore.json" _ _ success requests eq_refl eq_refl Hrun)
    as (posts & Hlen & _ & Hrequests).
  { repeat constructor. }
  exists posts. split; [exact Hlen|].
  change (created_tickets (http w) (length [record "getPets"; record "getPet"]))
    with ["PET-1"; "PET-2"] in Hrequests.
  change (create_jira_item (nth (length [record "getPets"; record "getPet"]) (http w) None)
            201 true) with (Ok (A := bool * option string) (true, Some "EXEC-1"))
    in Hrequests.
  destruct Hrequests as [-> Hlink]. split; [|reflexivity].
  vm_compute in Hlink. congruence.
Defined.

(** The mirror sends requests and does nothing else. *)
Lemma create_jira_tickets_posts (w : world) (lists lists' : tag_lists)
  (test_cases : service_dict)
  (openapi_filename : string) (success : bool) (requests : list effect) :
  create_jira_tickets w lists test_cases openapi_filename = Ok (success, lists', requests) ->
  Forall (fun e => exists target body, e = HttpPost target body) requests.
Proof.
  intros Hrun. unfold create_jira_tickets in Hrun.
  destruct (read_template_file_from_disk w _) as [[|] [t1|]];
    try (injection Hrun as _ _ <-; constructor).
  destruct (read_template_file_from_disk w _) as [[|] [t2|]];
    try (injection Hrun as _ _ <-; constructor).
  apply bind_Ok in Hrun as [st [Hloop Hrun]].
  apply bind_Ok in Hrun as [[s sent'] [Hexecution Hrun]]. injection Hrun as _ _ <-.
  apply create_test_tickets_state in Hloop as (_ & _ & _ & _ & posts & Hsent & _ & Hall).
  cbn [sent app] in Hsent.
  assert (Hposts : Forall (fun e => exists target body, e = HttpPost target body) (sent st)).
  { rewrite Hsent. eapply Forall_impl; [exact Hall|]. intros e [body ->]. eauto. }
  unfold create_test_execution in Hexecution.
  destruct (jira_test_tickets st); [injection Hexecution as _ <-; exact Hposts|].
  destruct (post (net st)) as [resp net'].
  destruct (create_jira_item resp 201 true) as [[[|] execution]|e];
    cbn [bind] in Hexecution; [| |discriminate].
  - destruct (post net') as [resp' net''].
    destruct (create_jira_item resp' 200 false) as [linked|e];
      cbn [bind] in Hexecution; [|discriminate].
    injection Hexecution as _ <-. repeat (apply Forall_app; split); try exact Hposts;
      repeat constructor; eauto.
  - injection Hexecution as _ <-. apply Forall_app. split; [exact Hposts|].
    repeat constructor; eauto.
Qed.

Lemma requests_sent_issue_posts (posts : list effect) :
  Forall (fun e => exists body, e = HttpPost jira_issue_url body) posts ->
  requests_sent posts = repeat jira_issue_url (length posts).
Proof.
  induction 1 as [|e posts [body ->] _ IH]; [reflexivity|].
  cbn [length repeat]. rewrite <- IH. reflexivity.
Qed.

Lemma requests_sent_app (log log' : list effect) :
  requests_sent (log ++ log')%list = (requests_sent log ++ requests_sent log')%list.
Proof. apply omap_app. Qed.

(** What a mirror run that reports success has done. *)
Lemma create_jira_tickets_success (w : world) (lists lists' : tag_lists)
  (test_cases : service_dict) (openapi_filename : string) (requests : list effect) :
  create_jira_tickets w lists test_cases openapi_filename = Ok (true, lists', requests) ->
  let n := length test_cases in
  created_tickets (http w) n <> [] /\
  (forall ref, tag_list lists' ref
               = (tag_list lists ref ++ tickets_of_list (http w) 0 test_cases ref)%list) /\
  exists execution,
    create_jira_item (nth n (http w) None) 201 true = Ok (true, Some execution) /\
    create_jira_item (nth (n + 1) (http w) None) 200 false = Ok (true, None) /\
    requests_sent requests
    = app (repeat jira_issue_url (n + 1))
        [JIRA_SERVER_URL ++ "/jira/rest/raven/1.0/api/testexec/" ++ execution ++ "/test"].
Proof.
  intros Hrun n. unfold create_jira_tickets in Hrun.
  destruct (read_template_file_from_disk w _) as [[|] [t1|]]; try discriminate.
  destruct (read_template_file_from_disk w _) as [[|] [t2|]]; try discriminate.
  apply bind_Ok in Hrun as [st [Hloop Hrun]].
  apply bind_Ok in Hrun as [[s sent'] [Hexecution Hrun]]. injection Hrun as -> <- <-.
  apply create_test_tickets_state in Hloop
    as (Hnth & Htickets & Hlists & _ & posts & Hsent & Hposts & Hall).
  cbn [net jira_test_tickets sent store app] in *.
  unfold create_test_execution in Hexecution. rewrite Htickets in Hexecution.
  fold n in Hexecution.
  destruct (created_tickets (http w) n) as [|ticket tickets]; [discriminate|].
  split; [discriminate|]. split; [exact Hlists|].
  rewrite !post_nth, nth_tl in Hexecution. rewrite !Hnth in Hexecution.
  replace (length test_cases + 0) with n in Hexecution by (unfold n; lia).
  replace (length test_cases + 1) with (n + 1) in Hexecution by (unfold n; lia).
  destruct (create_jira_item (nth n (http w) None) 201 true)
    as [[[|] execution]|e] eqn:Hitem; cbn [bind] in Hexecution; try discriminate.
  destruct (create_jira_item_ticket _ _ _ Hitem) as [key ->].
  destruct (create_jira_item_plain (nth (n + 1) (http w) None) 200) as [linked Hlink].
  rewrite Hlink in Hexecution. cbn [bind fst] in Hexecution.
  injection Hexecution as -> <-. exists key. split; [reflexivity|]. split; [exact Hlink|].
  rewrite Hsent, !requests_sent_app, (requests_sent_issue_posts _ Hall), Hposts.
  fold n. rewrite repeat_app, <- !app_assoc. reflexivity.
Qed.

(** ** The driver: what a run leaves behind *)

Lemma files_written_app (log log' : list effect) :
  files_written (log ++ log')%list = (files_written log ++ files_written log')%list.
Proof. apply omap_app. Qed.

Lemma files_written_posts (log : list effect) :
  Forall (fun e => exists target body, e = HttpPost target body) log ->
  files_written log = [].
Proof.
  induction 1 as [|e log [target [body ->]] _ IH]; [reflexivity|]. exact IH.
Qed.

Lemma check_and_create_data_directory_quiet (w : world) (directory_name : string) :
  files_written (snd (check_and_create_data_directory w directory_name)) = [] /\
  requests_sent (snd (check_and_create_data_directory w directory_name)) = [].
Proof.
  unfold check_and_create_data_directory.
  destruct (negb (path_exists w directory_name)).
  - destruct (mkdir_ok w directory_name); split; reflexivity.
  - destruct (negb (isdir w directory_name)); split; reflexivity.
Qed.

(** X12. The files of a run, by its outcome.  A run that returns [True]
    has written the sheet and the includes file, in this order, and after
    them the script if the script file could be opened.  A run that
    returns [False] has written nothing, or the sheet alone because the
    includes file could not be opened.  A run that ends with an exception
    has written nothing. *)
Theorem files_by_outcome (list_of_set : list string -> list string) (w : world)
  (openapi_filename output_filename output_dir : string)
  (add_example_data : bool) (jira_access_key : option string) :
  let run := transform_openapi_to_robot list_of_set w openapi_filename output_filename
               output_dir add_example_data jira_access_key in
  let sheet_file := path_join output_dir (output_filename ++ ".xlsx") in
  let includes_file := path_join output_dir "includes.resource" in
  let script_file := path_join output_dir (output_filename ++ ".robot") in
  match fst run with
  | Returned true =>
      files_written (snd run)
      = (sheet_file :: includes_file
           :: (if writable w script_file then [script_file] else []))
  | Returned false =>
      files_written (snd run) = [] \/
      (files_written (snd run) = [sheet_file] /\ writable w includes_file = false)
  | Raised _ => files_written (snd run) = []
  end.
Proof.
  cbv zeta. unfold transform_openapi_to_robot.
  pose proof (check_and_create_data_directory_quiet w output_dir) as [Hlog _].
  destruct (check_and_create_data_directory w output_dir) as [ok log].
  cbn [fst snd] in *.
  destruct ok; cbn [negb]; [|cbn [fst snd]; auto].
  destruct (read_template_files w) as [tpl|]; [|cbn [fst snd]; auto].
  destruct (check_if_file_exists w openapi_filename); cbn [negb]; [|cbn [fst snd]; auto].
  destruct (parse_openapi_spec list_of_set (resolve w openapi_filename))
    as [[[[[|] servers] service_dictionary] all_service_variables]|e];
    [|cbn [fst snd]; auto|cbn [fst snd]; auto].
  cbv zeta. set (lists := loaded_tag_lists (resolve w openapi_filename)).
  assert (Hmirror :
            forall s lists' requests,
              match jira_access_key with
              | Some (String _ _) =>
                  create_jira_tickets w lists service_dictionary openapi_filename
              | _ => Ok (true, lists, [])
              end = Ok (s, lists', requests) ->
              files_written requests = []).
  { intros s lists' requests Hrun.
    destruct jira_access_key as [[|c key]|].
    - injection Hrun as _ _ <-. reflexivity.
    - apply files_written_posts. eapply create_jira_tickets_posts. exact Hrun.
    - injection Hrun as _ _ <-. reflexivity. }
  destruct (match jira_access_key with
            | Some (String _ _) =>
                create_jira_tickets w lists service_dictionary openapi_filename
            | _ => Ok (true, lists, [])
            end) as [[[[|] lists'] requests]|e]; [| |cbn [fst snd]; auto].
  2: { cbn [fst snd]. left. rewrite files_written_app, Hlog. apply (Hmirror _ _ _ eq_refl). }
  specialize (Hmirror _ _ _ eq_refl).
  destruct (write_excel_header empty_worksheet all_service_variables) as [ws maxcol].
  destruct (write_excel_test_case_data lists' ws all_service_variables service_dictionary
              add_example_data) as [ws' maxrow].
  destruct (writable w (path_join output_dir (output_filename ++ ".xlsx")));
    cbn [negb].
  2: { cbn [fst snd]. left. rewrite files_written_app, Hlog. exact Hmirror. }
  unfold write_robot_framework_includes_file.
  destruct (writable w (path_join output_dir "includes.resource")); cbn [negb fst snd].
  - unfold write_robot_framework_test_case_file.
    destruct (writable w (path_join output_dir (output_filename ++ ".robot")));
      cbn [negb fst snd]; rewrite !files_written_app, Hlog, Hmirror; reflexivity.
  - right. rewrite !files_written_app, Hlog, Hmirror. split; reflexivity.
Qed.

(** X13. Without credentials no request is sent: with no access key, and
    likewise with an empty one, the log of a run holds no request; the two
    runs are the same. *)
Theorem no_credentials_no_requests (list_of_set : list string -> list string) (w : world)
  (openapi_filename output_filename output_dir : string) (add_example_data : bool) :
  let run jira_access_key :=
    transform_openapi_to_robot list_of_set w openapi_filename output_filename
      output_dir add_example_data jira_access_key in
  requests_sent (snd (run None)) = [] /\ run (Some "") = run None.
Proof.
  cbv zeta. split; [|reflexivity]. unfold transform_openapi_to_robot.
  pose proof (check_and_create_data_directory_quiet w output_dir) as [_ Hlog].
  destruct (check_and_create_data_directory w output_dir) as [ok log].
  cbn [fst snd] in *.
  destruct ok; cbn [negb]; [|exact Hlog].
  destruct (read_template_files w) as [tpl|]; [|exact Hlog].
  destruct (check_if_file_exists w openapi_filename); cbn [negb]; [|exact Hlog].
  destruct (parse_openapi_spec list_of_set (resolve w openapi_filename))
    as [[[[[|] servers] service_dictionary] all_service_variables]|e];
    [|exact Hlog|exact Hlog].
  cbv zeta.
  destruct (write_excel_header empty_worksheet all_service_variables) as [ws maxcol].
  destruct (write_excel_test_case_data (loaded_tag_lists (resolve w openapi_filename)) ws
              all_service_variables service_dictionary add_example_data) as [ws' maxrow].
  rewrite app_nil_r.
  destruct (writable w (path_join output_dir (output_filename ++ ".xlsx")));
    cbn [negb]; [|exact Hlog].
  unfold write_robot_framework_includes_file.
  destruct (writable w (path_join output_dir "includes.resource")); cbn [negb fst snd].
  - unfold write_robot_framework_test_case_file.
    destruct (writable w (path_join output_dir (output_filename ++ ".robot")));
      cbn [negb fst snd]; rewrite !requests_sent_app, Hlog; reflexivity.
  - rewrite !requests_sent_app, Hlog. reflexivity.
Qed.

(** X14. A run that fails before the walker leaves nothing behind but,
    at most, the output directory: when the directory check fails, a
    mandatory template cannot be read, the description file does not
    exist or cannot be resolved, the run returns [False] and its log is
    that of the directory check, without any file or request. *)
Theorem early_failure_leaves_nothing (list_of_set : list string -> list string) (w : world)
  (openapi_filename output_filename output_dir : string)
  (add_example_data : bool) (jira_access_key : option string) :
  fst (check_and_create_data_directory w output_dir) = false \/
  read_template_files w = None \/
  check_if_file_exists w openapi_filename = false \/
  resolve w openapi_filename = None ->
  let run := transform_openapi_to_robot list_of_set w openapi_filename output_filename
               output_dir add_example_data jira_access_key in
  fst run = Returned false /\
  snd run = snd (check_and_create_data_directory w output_dir) /\
  files_written (snd run) = [] /\ requests_sent (snd run) = [].
Proof.
  intros Hearly. cbv zeta.
  pose proof (check_and_create_data_directory_quiet w output_dir) as [Hfiles Hrequests].
  assert (Hrun : fst (transform_openapi_to_robot list_of_set w openapi_filename
                        output_filename output_dir add_example_data jira_access_key)
                 = Returned false /\
                 snd (transform_openapi_to_robot list_of_set w openapi_filename
                        output_filename output_dir add_example_data jira_access_key)
                 = snd (check_and_create_data_directory w output_dir)).
  { unfold transform_openapi_to_robot.
    destruct (check_and_create_data_directory w output_dir) as [ok log].
    cbn [fst snd] in *.
    destruct ok; cbn [negb]; [|split; reflexivity].
    destruct (read_template_files w) as [tpl|]; [|split; reflexivity].
    destruct (check_if_file_exists w openapi_filename); cbn [negb]; [|split; reflexivity].
    destruct Hearly as [H | [H | [H | H]]]; try discriminate.
    rewrite H. cbn. split; reflexivity. }
  destruct Hrun as [Hfst Hsnd]. rewrite Hsnd. tauto.
Qed.

Lemma early_failure_leaves_nothing_witness :
  let w := Sample.make_world Sample.petstore [] [] in
  let missing :=
    {| path_exists := path_exists w; isdir := isdir w;
       isfile := fun name => negb (String.eqb name "petstore.json");
       mkdir_ok := mkdir_ok w; read_text := read_text w; writable := writable w;
       resolve := resolve w; now := now w; json_loads_ok := json_loads_ok w;
       http := http w |} in
  transform_openapi_to_robot Sample.insertion_order missing "petstore.json" "export"
    "output" false None
  = (Returned false, []).
Proof.
  intros w missing.
  destruct (early_failure_leaves_nothing Sample.insertion_order missing "petstore.json"
              "export" "output" false None (or_intror (or_intror (or_introl eq_refl))))
    as (Hfst & Hsnd & _).
  rewrite (surjective_pairing (transform_openapi_to_robot _ _ _ _ _ _ _)).
  rewrite Hfst, Hsnd. reflexivity.
Defined.

(** X15. Success with credentials.  A run with a non-empty access key
    returns [True] only if the walker completed, at least one test ticket
    was created, the test execution was created and the link request was
    accepted; such a run has sent one request per test case and one for
    the test execution to the issue URL, and then the link request. *)
Theorem success_with_credentials (list_of_set : list string -> list string) (w : world)
  (openapi_filename output_filename output_dir : string) (add_example_data : bool)
  (c : ascii) (key : string) :
  let run := transform_openapi_to_robot list_of_set w openapi_filename output_filename
               output_dir add_example_data (Some (String c key)) in
  fst run = Returned true ->
  exists servers service_dictionary all_service_variables execution,
    let n := length service_dictionary in
    parse_openapi_spec list_of_set (resolve w openapi_filename)
    = Ok (true, servers, service_dictionary, all_service_variables) /\
    created_tickets (http w) n <> [] /\
    create_jira_item (nth n (http w) None) 201 true = Ok (true, Some execution) /\
    create_jira_item (nth (n + 1) (http w) None) 200 false = Ok (true, None) /\
    requests_sent (snd run)
    = app (repeat jira_issue_url (n + 1))
        [JIRA_SERVER_URL ++ "/jira/rest/raven/1.0/api/testexec/" ++ execution ++ "/test"].
Proof.
  cbv zeta. unfold transform_openapi_to_robot.
  pose proof (check_and_create_data_directory_quiet w output_dir) as [_ Hlog].
  destruct (check_and_create_data_directory w output_dir) as [ok log].
  cbn [fst snd] in *.
  destruct ok; cbn [negb]; [|discriminate].
  destruct (read_template_files w) as [tpl|]; [|discriminate].
  destruct (check_if_file_exists w openapi_filename); cbn [negb]; [|discriminate].
  destruct (parse_openapi_spec list_of_set (resolve w openapi_filename))
    as [[[[[|] servers] service_dictionary] all_service_variables]|e];
    [|discriminate|discriminate].
  cbv zeta.
  destruct (create_jira_tickets w (loaded_tag_lists (resolve w openapi_filename))
              service_dictionary openapi_filename)
    as [[[[|] lists'] requests]|e] eqn:Hmirror; [|discriminate|discriminate].
  apply create_jira_tickets_success in Hmirror
    as (Htickets & _ & execution & Hitem & Hlink & Hrequests).
  intros Hrun. exists servers, service_dictionary, all_service_variables, execution.
  split; [reflexivity|]. split; [exact Htickets|]. split; [exact Hitem|].
  split; [exact Hlink|]. rewrite <- Hrequests. clear Hrequests.
  destruct (write_excel_header empty_worksheet all_service_variables) as [ws maxcol].
  destruct (write_excel_test_case_data lists' ws all_service_variables service_dictionary
              add_example_data) as [ws' maxrow].
  destruct (writable w (path_join output_dir (output_filename ++ ".xlsx")));
    cbn [negb] in *; [|discriminate].
  unfold write_robot_framework_includes_file in *.
  destruct (writable w (path_join output_dir "includes.resource"));
    cbn [negb fst snd] in *; [|discriminate].
  unfold write_robot_framework_test_case_file.
  destruct (writable w (path_join output_dir (output_filename ++ ".robot")));
    cbn [negb fst snd]; rewrite !requests_sent_app, Hlog; cbn [app];
    cbn [requests_sent omap list_omap]; rewrite ?app_nil_r; reflexivity.
Qed.

Lemma success_with_credentials_witness :
  let w := Sample.make_world Sample.petstore []
             [Sample.created "PET-1"; None; None; Sample.created "EXEC-1";
              Some {| status_code := 200; json_body := None |}] in
  exists servers service_dictionary all_service_variables execution,
    parse_openapi_spec Sample.insertion_order (resolve w "petstore.json")
    = Ok (true, servers, service_dictionary, all_service_variables) /\
    created_tickets (http w) (length service_dictionary) <> [] /\
    create_jira_item (nth (length service_dictionary) (http w) None) 201 true
    = Ok (true, Some execution).
Proof.
  intros w.
  destruct (success_with_credentials Sample.insertion_order w "petstore.json" "export"
              "output" false "k" "ey" eq_refl)
    as (servers & sd & vars & execution & Hparse & Htickets & Hitem & _).
  exists servers, sd, vars, execution. auto.
Defined.

(** The six leading cells of the row of the test case at position [i]. *)
Lemma test_case_data_leading_cell (lists : tag_lists)
  (ws : worksheet) (all_service_variables : list string)
  (test_cases : service_dict) (add_example_data : bool) (i : nat)
  (name operation endpoint : string) (tc : test_case) (col : nat) (v : json) :
  test_cases !! i = Some ((name, operation, endpoint), tc) ->
  nth_error [JStr name; JStr (summary tc); JStr (tags_csv lists (tags tc)); JStr name;
             JStr (Str.upper operation); expected_status_code tc] col = Some v ->
  cells (fst (write_excel_test_case_data lists ws all_service_variables test_cases
                add_example_data)) !! (1 + i, col)
  = Some {| content := v; fmt := test_case_cell_format |}.
Proof.
  intros Hi Hv.
  destruct (write_test_cases_round lists all_service_variables add_example_data test_cases
              (fill_background (length test_cases)
                 (start_column + length all_service_variables) ws) 1 i _ Hi)
    as [ws_i [_ Hround]].
  rewrite (proj1 (write_excel_test_case_data_same_at _ _ _ _ _ _ _)).
  rewrite (proj1 (Hround col)). apply write_test_case_leading. exact Hv.
Qed.

(** X16. A ticket reaches the sheet.  In a run with credentials that
    returns [True] the sheet file is written, and in the row of a test case
    that holds a tags list the tags cell is that list as the mirror left
    it, joined by commas: the tags of the description followed by the
    tickets of all the test cases that hold the same list object, in
    their order.  So, when the ticket of the test case was created and no
    other test case holds its list, the cell is the tags of the
    description followed by that ticket. *)
Theorem ticket_reaches_sheet (list_of_set : list string -> list string) (w : world)
  (openapi_filename output_filename output_dir : string) (add_example_data : bool)
  (c : ascii) (key : string) servers service_dictionary all_service_variables
  (i : nat) (name operation endpoint : string) (tc : test_case) (ref : nat) :
  let run := transform_openapi_to_robot list_of_set w openapi_filename output_filename
               output_dir add_example_data (Some (String c key)) in
  let described := tag_list (loaded_tag_lists (resolve w openapi_filename)) ref in
  parse_openapi_spec list_of_set (resolve w openapi_filename)
  = Ok (true, servers, service_dictionary, all_service_variables) ->
  fst run = Returned true ->
  service_dictionary !! i = Some ((name, operation, endpoint), tc) ->
  tags tc = TagsList ref ->
  exists sheet,
    WriteFile (path_join output_dir (output_filename ++ ".xlsx")) (Sheet sheet) ∈ snd run /\
    cells sheet !! (1 + i, 2)
    = Some {| content :=
                JStr (Str.join ","
                        (described ++ tickets_of_list (http w) 0 service_dictionary ref)%list);
              fmt := test_case_cell_format |} /\
    forall jira_ticket_id,
      create_jira_item (nth i (http w) None) 201 true = Ok (true, Some jira_ticket_id) ->
      (forall j key' tc', j <> i -> service_dictionary !! j = Some (key', tc') ->
                          tags tc' <> TagsList ref) ->
      cells sheet !! (1 + i, 2)
      = Some {| content := JStr (Str.join "," (described ++ [jira_ticket_id])%list);
                fmt := test_case_cell_format |}.
Proof.
  cbv zeta. intros Hparse. unfold transform_openapi_to_robot.
  destruct (check_and_create_data_directory w output_dir) as [ok log].
  destruct ok; cbn [negb]; [|discriminate].
  destruct (read_template_files w) as [tpl|]; [|discriminate].
  destruct (check_if_file_exists w openapi_filename); cbn [negb]; [|discriminate].
  rewrite Hparse.
  destruct (create_jira_tickets w (loaded_tag_lists (resolve w openapi_filename))
              service_dictionary openapi_filename)
    as [[[[|] lists'] requests]|e] eqn:Hmirror; [|discriminate|discriminate].
  apply create_jira_tickets_success in Hmirror as (_ & Hlists & _).
  intros Hrun Hi Htags.
  destruct (write_excel_header empty_worksheet all_service_variables) as [ws maxcol].
  pose proof (test_case_data_leading_cell lists' ws all_service_variables service_dictionary
                add_example_data i name operation endpoint _ 2 _ Hi eq_refl) as Hcell.
  unfold tags_csv in Hcell. rewrite Htags, Hlists in Hcell.
  destruct (write_excel_test_case_data lists' ws all_service_variables service_dictionary
              add_example_data) as [ws' maxrow].
  cbn [fst] in Hcell.
  destruct (writable w (path_join output_dir (output_filename ++ ".xlsx")));
    cbn [negb] in *; [|discriminate].
  exists ws'. split; [|split; [exact Hcell|]].
  - destruct (write_robot_framework_includes_file w servers (includes_string tpl)
                (path_join output_dir "includes.resource") openapi_filename)
      as [[|] written]; cbn [negb fst snd] in *; [|discriminate].
    destruct (write_robot_framework_test_case_file w all_service_variables
                service_dictionary
                (path_join output_dir (output_filename ++ ".robot")) openapi_filename
                (header_string tpl) (footer_string tpl) (keyword_body_string tpl)
                (keyword_no_body_string tpl)) as [success written'].
    cbn [snd]. rewrite !elem_of_app. left. left. right. apply list_elem_of_singleton.
    reflexivity.
  - intros jira_ticket_id Hitem Halone. apply ticket_of_answer_Some in Hitem.
    rewrite Hcell, (tickets_of_list_alone _ _ _ _ _ _ _ Hi Htags Hitem Halone).
    reflexivity.
Qed.

Lemma ticket_reaches_sheet_witness :
  let w := Sample.make_world Sample.petstore_shared []
             [Sample.created "PET-1"; Sample.created "PET-2"; Sample.created "EXEC-1";
              Some {| status_code := 200; json_body := None |}] in
  let run := transform_openapi_to_robot Sample.insertion_order w "petstore.json" "export"
               "output" false (Some "key") in
  (exists sheet,
      WriteFile "output/export.xlsx" (Sheet sheet) ∈ snd run /\
      cells sheet !! (1, 2)
      = Some {| content := JStr "pet,PET-1,PET-2"; fmt := test_case_cell_format |}) /\
  (exists sheet,
      WriteFile "output/export.xlsx" (Sheet sheet) ∈ snd run /\
      cells sheet !! (2, 2)
      = Some {| content := JStr "pet,PET-1,PET-2"; fmt := test_case_cell_format |}).
Proof.
  intros w run.
  pose (parsed := parse_openapi_spec Sample.insertion_order (resolve w "petstore.json")).
  assert (Hparse : parse_openapi_spec Sample.insertion_order (resolve w "petstore.json")
                   = parsed) by reflexivity.
  vm_compute in parsed. subst parsed.
  assert (Hrun : fst run = Returned true) by (vm_compute; reflexivity).
  split.
  - destruct (ticket_reaches_sheet Sample.insertion_order w "petstore.json" "export"
                "output" false "k" "ey" _ _ _ 0 "addPet" "post" "/pet" _ 0
                Hparse Hrun eq_refl eq_refl) as (sheet & Hfile & Hcell & _).
    exists sheet. split; [exact Hfile | exact Hcell].
  - destruct (ticket_reaches_sheet Sample.insertion_order w "petstore.json" "export"
                "output" false "k" "ey" _ _ _ 1 "updatePet" "put" "/pet" _ 0
                Hparse Hrun eq_refl eq_refl) as (sheet & Hfile & Hcell & _).
    exists sheet. split; [exact Hfile | exact Hcell].
Defined.

(** ** The base URL pattern: what a match looks like *)

Section BaseUrlMatches.

Import Re.

Lemma newline_is_not_slash (c : ascii) :
  is_newline c = true -> Ascii.eqb "/" c = false.
Proof.
  unfold is_newline. intros H. apply Ascii.eqb_eq in H. subst c. reflexivity.
Qed.

Lemma is_newline_false (c : ascii) :
  is_newline c = false -> Ascii.eqb newline c = false.
Proof. unfold is_newline. rewrite Ascii.eqb_sym. auto. Qed.

Lemma has_char_app (c : ascii) (a b : string) :
  has_char c (a ++ b) = has_char c a || has_char c b.
Proof.
  induction a as [|x a IH]; [reflexivity|].
  change (has_char c (String x a ++ b)) with (Ascii.eqb c x || has_char c (a ++ b)).
  rewrite IH. cbn [has_char]. apply orb_assoc.
Qed.

(** The last run and the closing of the group match whatever follows. *)
Lemma last_run_total (s : string) (cap : capture) :
  exists r, re_match s last_run cap = Some r.
Proof.
  revert cap. induction s as [|c s IH]; intros cap.
  - unfold last_run. rewrite re_match_star_end, re_match_close, re_match_nil. eauto.
  - unfold last_run. rewrite re_match_star. destruct (is_newline c).
    + rewrite re_match_close, re_match_nil. eauto.
    + fold last_run. destruct (IH (push c cap)) as [r ->]. eauto.
Qed.

Lemma last_run_sound (s acc : string) (cap : capture) (rest : string) :
  re_match s last_run (InGroup acc) = Some (cap, rest) ->
  exists b,
    s = b ++ rest /\ cap = Group (acc ++ b) /\ has_char newline b = false /\
    (rest = "" \/ exists r, rest = String newline r).
Proof.
  revert acc. induction s as [|c s IH]; intros acc H.
  - unfold last_run in H. rewrite re_match_star_end, re_match_close, re_match_nil in H.
    injection H as <- <-. exists "". rewrite !append_nil_r. auto.
  - unfold last_run in H. rewrite re_match_star in H.
    destruct (is_newline c) eqn:Hnl.
    + rewrite re_match_close, re_match_nil in H. injection H as <- <-.
      exists "". rewrite append_nil_r. repeat split. right.
      unfold is_newline in Hnl. apply Ascii.eqb_eq in Hnl. subst c. eauto.
    + fold last_run in H. cbn [push] in H.
      destruct (re_match s last_run (InGroup (acc ++ Str.of_ascii c))) as [r|] eqn:Hrec.
      * injection H as ->. apply IH in Hrec as (b & -> & -> & Hb & Hrest).
        exists (String c b). split; [reflexivity|]. split.
        { unfold Str.of_ascii. rewrite append_assoc. reflexivity. }
        split; [|exact Hrest]. cbn [has_char]. rewrite (is_newline_false _ Hnl). exact Hb.
      * destruct (last_run_total s (InGroup (acc ++ Str.of_ascii c))) as [r Hr].
        congruence.
Qed.

(** With a slash ahead on the line the second segment can be closed. *)
Lemma second_segment_complete (b rest : string) (cap : capture) :
  has_char newline b = false -> has_char "/" b = true ->
  re_match (b ++ rest) second_segment cap <> None.
Proof.
  revert cap. induction b as [|c b IH]; intros cap Hnl Hslash; [discriminate|].
  apply has_char_cons in Hnl as [Hc Hnl].
  change (String c b ++ rest) with (String c (b ++ rest)).
  unfold second_segment. rewrite re_match_star, (not_newline _ Hc). fold second_segment.
  destruct (re_match (b ++ rest) second_segment (push c cap)) as [r|] eqn:Hrec;
    [discriminate|].
  cbn [has_char] in Hslash. destruct (has_char "/" b) eqn:Hb.
  - exfalso. exact (IH _ Hnl eq_refl Hrec).
  - rewrite orb_false_r in Hslash. rewrite re_match_chr, Hslash. fold last_run.
    destruct (last_run_total (b ++ rest) (push c cap)) as [r ->]. discriminate.
Qed.

Lemma second_segment_sound (s acc : string) (cap : capture) (rest : string) :
  re_match s second_segment (InGroup acc) = Some (cap, rest) ->
  exists a b,
    s = a ++ "/" ++ b ++ rest /\ cap = Group (acc ++ a ++ "/" ++ b) /\
    has_char "/" b = false /\
    has_char newline a = false /\ has_char newline b = false /\
    (rest = "" \/ exists r, rest = String newline r).
Proof.
  revert acc. induction s as [|c s IH]; intros acc H.
  - unfold second_segment in H. rewrite re_match_star_end, re_match_chr_end in H.
    discriminate.
  - unfold second_segment in H. rewrite re_match_star in H.
    destruct (is_newline c) eqn:Hnl.
    + rewrite re_match_chr, (newline_is_not_slash _ Hnl) in H. discriminate.
    + fold second_segment in H. cbn [push] in H.
      destruct (re_match s second_segment (InGroup (acc ++ Str.of_ascii c)))
        as [r|] eqn:Hrec.
      * injection H as ->. apply IH in Hrec as (a & b & -> & -> & Hb & Hna & Hnb & Hrest).
        exists (String c a), b. split; [reflexivity|]. split.
        { unfold Str.of_ascii. rewrite append_assoc. reflexivity. }
        split; [exact Hb|]. split; [|auto].
        cbn [has_char]. rewrite (is_newline_false _ Hnl). exact Hna.
      * rewrite re_match_chr in H. destruct (Ascii.eqb "/" c) eqn:Hc; [|discriminate].
        apply Ascii.eqb_eq in Hc. subst c. fold last_run in H. cbn [push] in H.
        apply last_run_sound in H as (b & -> & -> & Hnb & Hrest).
        exists "", b. split; [reflexivity|]. split.
        { unfold Str.of_ascii. rewrite append_assoc. reflexivity. }
        split; [|auto].
        destruct (has_char "/" b) eqn:Hb; [|reflexivity].
        exfalso. exact (second_segment_complete b rest _ Hnb Hb Hrec).
Qed.

(** With two slashes ahead on the line the group can be matched. *)
Lemma after_api_complete (a tail : string) (cap : capture) :
  has_char newline a = false -> has_char "/" a = true ->
  re_match (a ++ "/" ++ tail) after_api cap <> None.
Proof.
  revert cap. induction a as [|c a IH]; intros cap Hnl Hslash; [discriminate|].
  apply has_char_cons in Hnl as [Hc Hnl].
  change (String c a ++ "/" ++ tail) with (String c (a ++ "/" ++ tail)).
  unfold after_api. rewrite re_match_star, (not_newline _ Hc). fold after_api.
  destruct (re_match (a ++ "/" ++ tail) after_api (push c cap)) as [r|] eqn:Hrec;
    [discriminate|].
  cbn [has_char] in Hslash. destruct (has_char "/" a) eqn:Ha.
  - exfalso. exact (IH _ Hnl eq_refl Hrec).
  - rewrite orb_false_r in Hslash. rewrite re_match_open, re_match_chr, Hslash.
    fold second_segment.
    pose proof (second_segment_complete (a ++ "/") tail (push c (InGroup ""))) as H.
    rewrite append_assoc in H. apply H.
    + rewrite has_char_app, Hnl. reflexivity.
    + rewrite has_char_app, Ha. reflexivity.
Qed.

Lemma after_api_sound (s : string) (cap0 cap : capture) (rest : string) :
  re_match s after_api cap0 = Some (cap, rest) ->
  exists host seg1 seg2,
    s = host ++ "/" ++ seg1 ++ "/" ++ seg2 ++ rest /\
    cap = Group ("/" ++ seg1 ++ "/" ++ seg2) /\
    has_char "/" seg1 = false /\ has_char "/" seg2 = false /\
    has_char newline host = false /\ has_char newline seg1 = false /\
    has_char newline seg2 = false /\
    (rest = "" \/ exists r, rest = String newline r).
Proof.
  revert cap0. induction s as [|c s IH]; intros cap0 H.
  - unfold after_api in H.
    rewrite re_match_star_end, re_match_open, re_match_chr_end in H. discriminate.
  - unfold after_api in H. rewrite re_match_star in H.
    destruct (is_newline c) eqn:Hnl.
    + rewrite re_match_open, re_match_chr, (newline_is_not_slash _ Hnl) in H.
      discriminate.
    + fold after_api in H.
      destruct (re_match s after_api (push c cap0)) as [r|] eqn:Hrec.
      * injection H as ->.
        apply IH in Hrec as (host & seg1 & seg2 & -> & -> & H1 & H2 & Hh & Hn1 & Hn2 & Hr).
        exists (String c host), seg1, seg2. split; [reflexivity|]. split; [reflexivity|].
        split; [exact H1|]. split; [exact H2|]. split; [|auto].
        cbn [has_char]. rewrite (is_newline_false _ Hnl). exact Hh.
      * rewrite re_match_open, re_match_chr in H.
        destruct (Ascii.eqb "/" c) eqn:Hc; [|discriminate].
        apply Ascii.eqb_eq in Hc. subst c. fold second_segment in H. cbn [push] in H.
        apply second_segment_sound in H as (a & b & -> & -> & Hb & Hna & Hnb & Hrest).
        exists "", a, b. split; [reflexivity|]. split; [reflexivity|].
        split; [|auto].
        destruct (has_char "/" a) eqn:Ha; [|reflexivity].
        exfalso. exact (after_api_complete a (b ++ rest) _ Hna Ha Hrec).
Qed.

(** A literal prefix of a pattern is a prefix of what it matches. *)
Lemma literal_sound (lit s : string) (p : list item) (r : capture * string) :
  re_match s (literal lit ++ p)%list NoGroup = Some r ->
  exists s', s = lit ++ s' /\ re_match s' p NoGroup = Some r.
Proof.
  revert s. induction lit as [|x lit IH]; intros s H.
  - exists s. split; [reflexivity | exact H].
  - change (literal (String x lit) ++ p)%list with (Chr x :: (literal lit ++ p))%list in H.
    destruct s as [|c s]; [rewrite re_match_chr_end in H; discriminate|].
    rewrite re_match_chr in H. destruct (Ascii.eqb x c) eqn:Hc; [|discriminate].
    apply Ascii.eqb_eq in Hc. subst c. cbn [push] in H.
    apply IH in H as (s' & -> & H). exists s'. split; [reflexivity | exact H].
Qed.

(** A search matches at the start of some suffix. *)
Lemma search_sound (p : list item) (s : string) (r : capture * string) :
  search p s = Some r ->
  exists before s', s = before ++ s' /\ re_match s' p NoGroup = Some r.
Proof.
  induction s as [|c s IH]; intros H.
  - cbn [search] in H. destruct (re_match "" p NoGroup) as [r'|] eqn:Hm; [|discriminate].
    injection H as ->. exists "", "". auto.
  - cbn [search] in H.
    destruct (re_match (String c s) p NoGroup) as [r'|] eqn:Hm.
    + injection H as ->. exists "", (String c s). auto.
    + apply IH in H as (before & s' & -> & H). exists (String c before), s'. auto.
Qed.

Lemma search_base_url (text : string) (matches : capture) (rest : string) :
  search base_url_regex text = Some (matches, rest) ->
  last_two_segments text (group1 matches).
Proof.
  intros H. apply search_sound in H as (before & s' & -> & H).
  change base_url_regex with (literal "https://api" ++ after_api)%list in H.
  apply literal_sound in H as (s'' & -> & H).
  apply after_api_sound in H
    as (host & seg1 & seg2 & -> & -> & H1 & H2 & Hh & Hn1 & Hn2 & Hrest).
  exists before, host, seg1, seg2, rest. repeat split; assumption.
Qed.

End BaseUrlMatches.

(** X17. The base URL of the includes file is the sentinel or the last
    two path segments of a server URL: whatever the server list, the value
    substituted for the base URL token is either
    BASE_URL_NOT_FOUND_AND_NEEDS_TO_BE_SET_MANUALLY or, for one of the
    servers, the text slash, segment, slash, segment that ends a line of
    its URL (the URL itself when it has no line feed) after https://api
    on that line, neither segment holding a slash. *)
Theorem base_url_is_sentinel_or_last_two_segments (servers : list server) :
  find_base_url servers = base_url_default \/
  exists srv, srv ∈ servers /\ last_two_segments (url srv) (find_base_url servers).
Proof.
  unfold find_base_url. generalize base_url_default as base_url.
  induction servers as [|srv servers IH]; intros base_url; [left; reflexivity|].
  cbn [fold_left]. destruct (IH (scan_server base_url srv)) as [Hkeep | [srv' [Hin Hlast]]].
  - rewrite Hkeep. unfold scan_server.
    destruct (Re.search base_url_regex (url srv)) as [[matches rest]|] eqn:Hsearch;
      [|left; reflexivity].
    right. exists srv. split; [left|]. apply (search_base_url _ _ _ Hsearch).
  - right. exists srv'. split; [right; exact Hin | exact Hlast].
Qed.
